(** * CARG GeoPackage-to-shapefile converter: domain resolution, field cleanup
      and the final merge, embedded from the Python sources.

    The development follows [BDgpkg2shape.py] (class [CARGProcessor]); the
    variants of the same methods in [script/BDgpkg2shapePRO.py] and
    [openlibs/gpkg_pipeline.py] are embedded in the modules [PRO] and
    [OpenLibs].

    Conventions of the embedding.
    - A Python value read from an attribute table is [None], an [int], a
      [float] or a [str] ([value]).  Strings are byte strings, so [str] and
      [strip] never fail.
    - A [float] is an exact finite decimal [m / 10^k] ([dec]).  The range and
      the rounding of binary64 are outside the model, and so is the exponent
      notation [str] switches to for very large or very small floats.  The
      words inf and nan are parsed, because [int] fails on them.
    - A [dict] is a [gmap] over [key]: Python hashes and compares [1] and
      [1.0] as one key, which [key_of] captures by normalising decimals.
    - The geoprocessing store (arcpy) is a finite map from paths to tables;
      a table is its field list and its rows.  Calls into the store that the
      scripts wrap in [try] succeed, except the deletion of fields, whose
      outcome is a parameter ([delete_oracle]), and the append, which may
      drop features ([accept]).  Field widths are recorded; values are not
      cut to them.
    - A [dict] that the scripts walk ([items()]) is the list of its items
      in insertion order; where a result could depend on the order, the
      property is stated for every order.
    - What the scripts report through [arcpy.AddMessage], [AddWarning] and
      [AddError] is collected in a log; statistics gathered only for the log
      are left out. *)

From Stdlib Require Import ZArith Ascii String List Lia.
From stdpp Require Import base decidable option list strings pretty gmap.

Local Open Scope string_scope.
Local Open Scope list_scope.
Local Open Scope Z_scope.

(** ** Python strings *)

Module Py.

Definition chars (s : string) : list ascii := list_ascii_of_string s.
Definition text (l : list ascii) : string := string_of_list_ascii l.

Fixpoint drop_while {A} (p : A → bool) (l : list A) : list A :=
  match l with
  | [] => []
  | a :: r => if p a then drop_while p r else l
  end.

Fixpoint take_while {A} (p : A → bool) (l : list A) : list A :=
  match l with
  | [] => []
  | a :: r => if p a then a :: take_while p r else []
  end.

(** [s.strip()]: whitespace is space, TAB, LF, VT, FF, CR. *)
Definition lstrip_chars (l : list ascii) : list ascii := drop_while Ascii.is_space l.
Definition rstrip_chars (l : list ascii) : list ascii :=
  reverse (drop_while Ascii.is_space (reverse l)).
Definition strip_chars (l : list ascii) : list ascii := rstrip_chars (lstrip_chars l).
Definition strip (s : string) : string := text (strip_chars (chars s)).

Definition is_digit (a : ascii) : bool :=
  ((48 <=? nat_of_ascii a) && (nat_of_ascii a <=? 57))%nat.
Definition digit_val (a : ascii) : Z := Z.of_nat (nat_of_ascii a - 48).

(** [s.isdigit()]: non-empty and digits only. *)
Definition isdigit (s : string) : bool :=
  match chars s with
  | [] => false
  | l => forallb is_digit l
  end.

(** [s.replace(c, '')] for a one-character [c]. *)
Definition remove_char (c : ascii) (s : string) : string :=
  text (filter (λ a, a ≠ c) (chars s)).

Definition upper_char (a : ascii) : ascii :=
  let n := nat_of_ascii a in
  if ((97 <=? n) && (n <=? 122))%nat then ascii_of_nat (n - 32) else a.
Definition lower_char (a : ascii) : ascii :=
  let n := nat_of_ascii a in
  if ((65 <=? n) && (n <=? 90))%nat then ascii_of_nat (n + 32) else a.
Definition upper (s : string) : string := text (map upper_char (chars s)).
Definition lower (s : string) : string := text (map lower_char (chars s)).

Fixpoint is_prefix (p l : list ascii) : bool :=
  match p, l with
  | [], _ => true
  | _ :: _, [] => false
  | a :: p', b :: l' => bool_decide (a = b) && is_prefix p' l'
  end.

Fixpoint contains_chars (p l : list ascii) : bool :=
  is_prefix p l || match l with [] => false | _ :: r => contains_chars p r end.

(** [p in s] on strings. *)
Definition contains (p s : string) : bool := contains_chars (chars p) (chars s).

(** [s.endswith(p)] *)
Definition endswith (s p : string) : bool :=
  is_prefix (reverse (chars p)) (reverse (chars s)).

End Py.

(** ** Python numbers and values *)

(** The decimal [dmant / 10^dscale]. *)
Record dec := Dec { dmant : Z; dscale : nat }.

Inductive value :=
  | VNone
  | VInt (n : Z)
  | VFloat (d : dec)
  | VStr (s : string).

Global Instance dec_eq_dec : EqDecision dec.
Proof. solve_decision. Defined.
Global Instance value_eq_dec : EqDecision value.
Proof. solve_decision. Defined.

(** Dictionary keys: numbers are kept in lowest terms, so that the [int] 1
    and the [float] 1.0 are one key, as for Python's hash and [==]. *)
Inductive key :=
  | KNone
  | KNum (m : Z) (k : nat)
  | KStr (s : string).

Global Instance key_eq_dec : EqDecision key.
Proof. solve_decision. Defined.

Global Instance key_countable : Countable key :=
  inj_countable'
    (λ x, match x with
          | KNone => inl ()
          | KNum m k => inr (inl (m, k))
          | KStr s => inr (inr s)
          end)
    (λ y, match y with
          | inl _ => KNone
          | inr (inl (m, k)) => KNum m k
          | inr (inr s) => KStr s
          end)
    (λ x, match x with KNone => eq_refl | KNum _ _ => eq_refl | KStr _ => eq_refl end).

Module Num.

(** Lowest terms: drop the trailing zeros of the fraction. *)
Fixpoint dnorm_go (m : Z) (k : nat) : Z * nat :=
  match k with
  | O => (m, O)
  | S k' => if m mod 10 =? 0 then dnorm_go (m / 10) k' else (m, k)
  end.

Definition dnorm (d : dec) : dec :=
  let '(m, k) := dnorm_go (dmant d) (dscale d) in Dec m k.

(** [float(n)] for an [int] n. *)
Definition of_int (n : Z) : dec := Dec n 0.

(** [int(x)] for a finite float: truncation towards zero. *)
Definition trunc (d : dec) : Z := Z.quot (dmant d) (10 ^ Z.of_nat (dscale d)).

(** The [k] low decimal digits of [n], most significant first. *)
Fixpoint frac_digits (k : nat) (n : Z) : list ascii :=
  match k with
  | O => []
  | S k' => (frac_digits k' (n / 10) ++ [ascii_of_nat (48 + Z.to_nat (n mod 10))])%list
  end.

(** [str(x)] for a float, positional notation: [1.0], [-0.25], [12.5]. *)
Definition str_dec (d : dec) : string :=
  let d' := dnorm d in
  let m := dmant d' in
  let k := dscale d' in
  let a := Z.abs m in
  let p := 10 ^ Z.of_nat k in
  (if m <? 0 then "-" else "") +:+ pretty (a / p) +:+ "." +:+
  (match k with O => "0" | _ => Py.text (frac_digits k (a mod p)) end).

Definition digits_val (l : list ascii) : Z :=
  fold_left (λ acc a, 10 * acc + Py.digit_val a) l 0.

(** [m / 10^k * 10^x] *)
Definition scale10 (m : Z) (k : nat) (x : Z) : dec :=
  if 0 <=? x then dnorm (Dec (m * 10 ^ x) k)
  else dnorm (Dec m (k + Z.to_nat (- x))).

End Num.

(** The outcome of [float(s)] on a string. *)
Inductive float_result :=
  | FFinite (d : dec)
  | FInf
  | FNan
  | FValueError.

Module Conv.

Definition parse_sign (l : list ascii) : bool * list ascii :=
  match l with
  | "-"%char :: r => (true, r)
  | "+"%char :: r => (false, r)
  | _ => (false, l)
  end.

Definition signed (neg : bool) (n : Z) : Z := if neg then - n else n.

(** The exponent part of a float literal; [None] is a syntax error. *)
Definition parse_exponent (l : list ascii) : option Z :=
  match l with
  | [] => Some 0
  | e :: r =>
      if bool_decide (e = "e"%char) || bool_decide (e = "E"%char) then
        let '(neg, ds) := parse_sign r in
        match ds with
        | [] => None
        | _ => if forallb Py.is_digit ds then Some (signed neg (Num.digits_val ds)) else None
        end
      else None
  end.

(** [float(s)]: surrounding whitespace is ignored; a sign, then either one
    of the words inf, infinity, nan (any case) or digits with an optional
    point and an optional exponent. *)
Definition py_float (s : string) : float_result :=
  let '(neg, body) := parse_sign (Py.strip_chars (Py.chars s)) in
  let word := Py.text (map Py.lower_char body) in
  if bool_decide (word = "inf") || bool_decide (word = "infinity") then FInf
  else if bool_decide (word = "nan") then FNan
  else
    let ip := Py.take_while Py.is_digit body in
    let r1 := Py.drop_while Py.is_digit body in
    let '(fp, r2) :=
      match r1 with
      | "."%char :: r => (Py.take_while Py.is_digit r, Py.drop_while Py.is_digit r)
      | _ => ([], r1)
      end in
    match (ip ++ fp)%list with
    | [] => FValueError
    | ds =>
        match parse_exponent r2 with
        | None => FValueError
        | Some x => FFinite (Num.scale10 (signed neg (Num.digits_val ds)) (length fp) x)
        end
    end.

(** [str(v)] *)
Definition py_str (v : value) : string :=
  match v with
  | VNone => "None"
  | VInt n => pretty n
  | VFloat d => Num.str_dec d
  | VStr s => s
  end.

(** The dictionary key a value hashes to. *)
Definition key_of (v : value) : key :=
  match v with
  | VNone => KNone
  | VInt n => KNum n 0
  | VFloat d => let d' := Num.dnorm d in KNum (dmant d') (dscale d')
  | VStr s => KStr s
  end.

(** [v == w] on values of the table. *)
Definition py_eq (v w : value) : bool := bool_decide (key_of v = key_of w).

End Conv.

(** ** Exceptions, log and the attribute store *)

Inductive exn :=
  | ValueError
  | OverflowError
  | RuntimeError (msg : string).

Inductive result (A : Type) :=
  | Ok (a : A)
  | Raise (e : exn).
Global Arguments Ok {A} a.
Global Arguments Raise {A} e.

(** [arcpy.AddMessage], [arcpy.AddWarning], [arcpy.AddError]; the texts are
    cut to their fixed part and the names they mention. *)
Inductive log_entry :=
  | AddMessage (s : string)
  | AddWarning (s : string)
  | AddError (s : string).

Definition is_warning (e : log_entry) : bool :=
  match e with AddWarning _ => true | _ => false end.

(** [field.type] as arcpy reports it. *)
Inductive field_type :=
  | TOID | TGeometry | TString | TInteger | TSmallInteger | TDouble | TSingle | TDate.

Global Instance field_type_eq_dec : EqDecision field_type.
Proof. solve_decision. Defined.

Record field := Field { f_name : string; f_type : field_type; f_length : nat }.

Global Instance field_eq_dec : EqDecision field.
Proof. solve_decision. Defined.

(** A feature (or table row): its attribute values by field name; a missing
    entry reads as [None]. *)
Definition row_get (r : gmap string value) (n : string) : value := default VNone (r !! n).

(** A feature class, shapefile or plain table. *)
Record table := Table { t_fields : list field; t_rows : list (gmap string value) }.

Definition field_names (t : table) : list string := f_name <$> t_fields t.

(** [int(arcpy.GetCount_management(t)[0])] *)
Definition GetCount (t : table) : nat := length (t_rows t).

(** [{f.name.upper(): f.name for f in arcpy.ListFields(t)}]: the field stored
    under an upper-cased name (the last one, if two names differ by case). *)
Definition existing_fields_dict (t : table) : gmap string string :=
  foldl (λ m n, <[Py.upper n := n]> m) ∅ (field_names t).

(** [arcpy.AddField_management(t, name, type, field_length)]; a name the
    table already has (in any case) is reported and nothing is added. *)
Definition AddField (t : table) (name : string) (ty : field_type) (len : nat) : table :=
  if bool_decide (is_Some (existing_fields_dict t !! Py.upper name)) then t
  else Table (t_fields t ++ [Field name ty len]) (t_rows t).

(** [arcpy.DeleteField_management(t, names)] *)
Definition DeleteField (t : table) (names : list string) : table :=
  Table (filter (λ f, f_name f ∉ names) (t_fields t))
        ((λ r, foldl (λ r' n, delete n r') r names) <$> t_rows t).

(** The field a cursor binds a requested name to: names are matched without
    regard to case. *)
Definition cursor_field (t : table) (n : string) : option string :=
  List.find (λ m, bool_decide (Py.upper m = Py.upper n)) (field_names t).

(** An update cursor: the rows are visited in order; the first exception
    leaves that row and the rows after it as they were. *)
Fixpoint update_cursor (f : gmap string value → result (gmap string value))
    (rows : list (gmap string value)) : list (gmap string value) * option exn :=
  match rows with
  | [] => ([], None)
  | r :: rest =>
      match f r with
      | Ok r' => let '(rs, e) := update_cursor f rest in (r' :: rs, e)
      | Raise e => (r :: rest, Some e)
      end
  end.

(** A path is a directory and a file name: [os.path.join] pairs them,
    [os.path.dirname] and [os.path.basename] take them apart. *)
Definition path_join (dir file : string) : string * string := (dir, file).
Definition dirname (p : string * string) : string := fst p.
Definition basename (p : string * string) : string := snd p.

(** Accesses to the store made while loading a domain table. *)
Inductive io_event :=
  | EvExists (path : string * string)
  | EvListFields (path : string * string)
  | EvSearchCursor (path : string * string) (fields : list string).

(** The part of [CARGProcessor] the modelled methods use.  [store] is the
    file system as arcpy sees it; [trace] and [log] record what was read and
    what was reported. *)
Record processor := Processor {
  input_gpkg : string;
  domini_path : string;
  workspace_output : string;
  foglio : string;
  _domain_cache : gmap (string * string * string * bool) (gmap key string);
  store : gmap (string * string) table;
  trace : list io_event;
  log : list log_entry
}.

Definition add_trace (self : processor) (es : list io_event) : processor :=
  Processor (input_gpkg self) (domini_path self) (workspace_output self) (foglio self)
    (_domain_cache self) (store self) (trace self ++ es) (log self).

Definition add_log (self : processor) (ms : list log_entry) : processor :=
  Processor (input_gpkg self) (domini_path self) (workspace_output self) (foglio self)
    (_domain_cache self) (store self) (trace self) (log self ++ ms).

Definition set_cache (self : processor)
    (c : gmap (string * string * string * bool) (gmap key string)) : processor :=
  Processor (input_gpkg self) (domini_path self) (workspace_output self) (foglio self)
    c (store self) (trace self) (log self).

Definition set_store (self : processor) (st : gmap (string * string) table) : processor :=
  Processor (input_gpkg self) (domini_path self) (workspace_output self) (foglio self)
    (_domain_cache self) st (trace self) (log self).

(** ** DomainRegistry: [load_domain_mappings] *)

(** The keys one row of a domain table is stored under ([keys_to_map]), or
    the exception that escapes the inner [try] and makes the loader skip the
    row. *)
Definition keys_to_map (code_val : value) : result (list key) :=
  let k0 := KStr (Py.strip (Conv.py_str code_val)) in
  if Py.isdigit (Py.remove_char "-" (Py.remove_char "." (Conv.py_str code_val))) then
    match Conv.py_float (Conv.py_str code_val) with
    | FFinite float_val =>
        Ok [k0; Conv.key_of code_val; Conv.key_of (VFloat float_val);
            KNum (Num.trunc float_val) 0]
    | FInf => Raise OverflowError
    | FNan | FValueError => Ok [k0; Conv.key_of code_val]
    end
  else Ok [k0].

(** [str(desc_val).strip()] *)
Definition desc_clean (desc_val : value) : string := Py.strip (Conv.py_str desc_val).

(** The body of the loop over the search cursor: one [(code, description)]
    row. *)
Definition load_row (domain_file : string) (acc : gmap key string * list log_entry)
    (row : value * value) : gmap key string * list log_entry :=
  let '(code_map, warnings) := acc in
  let '(code_val, desc_val) := row in
  if bool_decide (code_val ≠ VNone) && bool_decide (desc_val ≠ VNone) then
    match keys_to_map code_val with
    | Ok ks => (foldl (λ m k, <[k := desc_clean desc_val]> m) code_map ks, warnings)
    | Raise _ =>
        (code_map, warnings ++ [AddWarning ("Skipping problematic row in " +:+ domain_file)])
    end
  else acc.

Definition build_code_map (domain_file : string) (rows : list (value * value))
    : gmap key string * list log_entry :=
  foldl (load_row domain_file) (∅, []) rows.

(** The rows a search cursor over [[code_field, desc_field]] yields. *)
Definition cursor_rows (t : table) (code_field desc_field : string) : list (value * value) :=
  (λ r, (row_get r code_field, row_get r desc_field)) <$> t_rows t.

(** [len(set(code_map.values()))] *)
Definition unique_mappings (code_map : gmap key string) : nat :=
  size (list_to_set (snd <$> map_to_list code_map) : gset string).

(** What both scripts do once the cache has been passed: [None] stands for
    the three early [return {}], [Some] for the map built from the cursor. *)
Definition read_domain_table (self : processor)
    (domain_file code_field desc_field_pattern : string) (is_gpkg_table : bool)
    : option (gmap key string) * processor :=
  let domain_table_path :=
    if is_gpkg_table then path_join (input_gpkg self) domain_file
    else path_join (domini_path self) domain_file in
  let self := add_trace self [EvExists domain_table_path] in
  match store self !! domain_table_path with
  | None =>
      (None, add_log self [AddWarning ("Domain table not found: " +:+ domain_file)])
  | Some t =>
      let self := add_trace self [EvListFields domain_table_path] in
      let names := field_names t in
      match List.find (λ n, Py.contains (Py.upper desc_field_pattern) (Py.upper n)) names with
      | None =>
          (None, add_log self [AddWarning ("Description field matching '" +:+
                   desc_field_pattern +:+ "' not found in " +:+ domain_file)])
      | Some desc_field =>
          if bool_decide (desc_field = "") then
            (None, add_log self [AddWarning ("Description field matching '" +:+
                     desc_field_pattern +:+ "' not found in " +:+ domain_file)])
          else if negb (bool_decide (code_field ∈ names)) then
            (None, add_log self [AddWarning ("Code field '" +:+ code_field +:+
                     "' not found in " +:+ domain_file)])
          else
            let self := add_trace self
                          [EvSearchCursor domain_table_path [code_field; desc_field]] in
            let '(code_map, warnings) :=
              build_code_map domain_file (cursor_rows t code_field desc_field) in
            (Some code_map,
             add_log self (warnings ++
               [AddMessage ("Loaded " +:+ pretty (unique_mappings code_map) +:+
                            " unique mappings from " +:+ domain_file)]))
      end
  end.

(** [CARGProcessor.load_domain_mappings] of BDgpkg2shape.py. *)
Definition load_domain_mappings (self : processor)
    (domain_file code_field desc_field_pattern : string) (is_gpkg_table : bool)
    : gmap key string * processor :=
  match read_domain_table self domain_file code_field desc_field_pattern is_gpkg_table with
  | (None, self') => (∅, self')
  | (Some code_map, self') => (code_map, self')
  end.

(** ** Domain application: [apply_domain_mapping] *)

(** The value the cursor loop computes for one feature ([mapped_value]):
    the probes raw value, trimmed string, float, int, in that order.
    [int(float('inf'))] raises [OverflowError], which the inner [except
    (ValueError, TypeError)] lets through. *)
Definition mapped_value (code_map : gmap key string) (src_val : value) : result string :=
  match src_val with
  | VNone => Ok ""
  | _ =>
    match code_map !! Conv.key_of src_val with
    | Some d => Ok d
    | None =>
      let str_val := Py.strip (Conv.py_str src_val) in
      match code_map !! KStr str_val with
      | Some d => Ok d
      | None =>
        match Conv.py_float str_val with
        | FFinite float_val =>
            match code_map !! Conv.key_of (VFloat float_val) with
            | Some d => Ok d
            | None =>
                match code_map !! KNum (Num.trunc float_val) 0 with
                | Some d => Ok d
                | None => Ok ""
                end
            end
        | FInf => Raise OverflowError
        | FNan | FValueError => Ok ""
        end
      end
    end
  end.

(** [cursor.updateRow([src_val, mapped_value])] on one feature. *)
Definition map_row (code_map : gmap key string) (src tgt : string)
    (r : gmap string value) : result (gmap string value) :=
  let src_val := row_get r src in
  match mapped_value code_map src_val with
  | Ok d => Ok (<[tgt := VStr d]> (<[src := src_val]> r))
  | Raise e => Raise e
  end.

Definition apply_domain_mapping (shapefile : table) (field_name source_field : string)
    (code_map : gmap key string) : table * list log_entry :=
  if bool_decide (code_map = ∅) then
    (shapefile, [AddWarning ("No domain mappings available for " +:+ field_name)])
  else
    let shapefile :=
      if bool_decide (is_Some (existing_fields_dict shapefile !! Py.upper field_name))
      then shapefile
      else AddField shapefile field_name TString 255 in
    match cursor_field shapefile source_field, cursor_field shapefile field_name with
    | Some src, Some tgt =>
        match update_cursor (map_row code_map src tgt) (t_rows shapefile) with
        | (rows, None) =>
            (Table (t_fields shapefile) rows, [AddMessage ("Mapping '" +:+ field_name +:+ "'")])
        | (rows, Some _) =>
            (Table (t_fields shapefile) rows,
             [AddError ("Error applying domain mapping for " +:+ field_name)])
        end
    | _, _ =>
        (shapefile, [AddError ("Error applying domain mapping for " +:+ field_name)])
    end.

(** ** SpecialCaseProcessor: the Sommerso flag *)

(** The [if]/[elif] chain of [process_sommerso_field_optimized]:
    [sommerso_val in [1, "1", "1.0"]] compares with [==]. *)
Definition sommerso_new_val (sommerso_val : value) : string :=
  if existsb (Conv.py_eq sommerso_val) [VInt 1; VStr "1"; VStr "1.0"] then "SI"
  else if existsb (Conv.py_eq sommerso_val) [VInt 2; VStr "2"; VStr "2.0"] then "NO"
  else "".

(** The field the flag is read from: the first whose upper-cased name holds
    SOMMERSO but not SOMMERSO_ (the dictionary is walked in field order). *)
Definition find_sommerso_field (t : table) : option string :=
  List.find (λ n, Py.contains "SOMMERSO" (Py.upper n) &&
                  negb (Py.contains "SOMMERSO_" (Py.upper n))) (field_names t).

Definition process_sommerso_field_optimized (output_shapefile_ETRF : table)
    : table * list log_entry :=
  match find_sommerso_field output_shapefile_ETRF with
  | None =>
      (AddField output_shapefile_ETRF "Sommerso_" TString 10,
       [AddMessage "Processing SOMMERSO field..."; AddWarning "SOMMERSO field not found in shapefile"])
  | Some sommerso_field =>
      let t := AddField output_shapefile_ETRF "Sommerso_" TString 10 in
      match cursor_field t "Sommerso_" with
      | Some tgt =>
          (Table (t_fields t)
             ((λ r, <[tgt := VStr (sommerso_new_val (row_get r sommerso_field))]>
                      (<[sommerso_field := row_get r sommerso_field]> r)) <$> t_rows t),
           [AddMessage "Processing SOMMERSO field..."; AddMessage "SOMMERSO field processed successfully"])
      | None =>
          (t, [AddMessage "Processing SOMMERSO field..."; AddWarning "Error processing SOMMERSO field"])
      end
  end.

(** ** Sheet-id injection: [_add_foglio_field] *)

(** The Python expression [CalculateField_management] is given is the text
    ['...'] built by ["'{}'".format(v)].  It denotes [v] when [v] has no
    quote, backslash or line break; other texts are not string literals of
    [v] and the call fails. *)
Definition plain_char (a : ascii) : bool :=
  negb (bool_decide (a = "'"%char)) && negb (bool_decide (a = "\"%char)) &&
  negb (bool_decide (a = "010"%char)) && negb (bool_decide (a = "013"%char)).

Definition quoted (v : string) : string := "'" +:+ v +:+ "'".

Definition eval_expression (expression : string) : result value :=
  match Py.chars expression with
  | "'"%char :: rest =>
      match reverse rest with
      | "'"%char :: body =>
          if forallb plain_char body then Ok (VStr (Py.text (reverse body)))
          else Raise (RuntimeError "ExecuteError")
      | _ => Raise (RuntimeError "ExecuteError")
      end
  | _ => Raise (RuntimeError "ExecuteError")
  end.

(** [arcpy.CalculateField_management(t, field, expression, ...)] *)
Definition CalculateField (t : table) (fld expression : string) : result table :=
  match cursor_field t fld, eval_expression expression with
  | Some f, Ok v => Ok (Table (t_fields t) ((λ r, <[f := v]> r) <$> t_rows t))
  | None, _ => Raise (RuntimeError "ExecuteError")
  | _, Raise e => Raise e
  end.

(** BDgpkg2shape.py *)
Definition _add_foglio_field (self : processor) (shapefile : table) : result table :=
  let shapefile :=
    if bool_decide (is_Some (existing_fields_dict shapefile !! "FOGLIO")) then shapefile
    else AddField shapefile "Foglio" TString 50 in
  CalculateField shapefile "Foglio" (quoted (foglio self)).

(** ** script/BDgpkg2shapePRO.py *)

Module PRO.

(** [load_domain_mappings]: the cache is consulted first and filled after the
    cursor loop.  (The script also stores an empty map when reading raises;
    reads do not raise here.) *)
Definition load_domain_mappings (self : processor)
    (domain_file code_field desc_field_pattern : string) (is_gpkg_table : bool)
    : gmap key string * processor :=
  let cache_key := (domain_file, code_field, desc_field_pattern, is_gpkg_table) in
  match _domain_cache self !! cache_key with
  | Some cached => (cached, self)
  | None =>
      match read_domain_table self domain_file code_field desc_field_pattern is_gpkg_table with
      | (None, self') => (∅, self')
      | (Some code_map, self') =>
          (code_map, set_cache self' (<[cache_key := code_map]> (_domain_cache self')))
      end
  end.

(** [_add_foglio_field] *)
Definition _add_foglio_field (self : processor) (shapefile : table)
    : result table * processor :=
  let shapefile :=
    if bool_decide (is_Some (existing_fields_dict shapefile !! "FOGLIO")) then shapefile
    else AddField shapefile "Foglio" TString 254 in
  let '(foglio_domain, self) :=
    load_domain_mappings self "d_foglio.dbf" "N1" "N2" false in
  if bool_decide (foglio_domain = ∅) then
    (CalculateField shapefile "Foglio" (quoted (foglio self)),
     add_log self [AddWarning "Domain mapping for Foglio not found in d_foglio.dbf - using raw values"])
  else
    let mapped_foglio := default (foglio self) (foglio_domain !! KStr (foglio self)) in
    (CalculateField shapefile "Foglio" (quoted mapped_foglio),
     add_log self
       [if bool_decide (mapped_foglio ≠ foglio self)
        then AddMessage ("Foglio mapped: '" +:+ foglio self +:+ "' -> '" +:+ mapped_foglio +:+ "'")
        else AddMessage ("Foglio value '" +:+ foglio self +:+
                         "' not found in domain, using original value")]).

End PRO.

(** ** SchemaStandardizer: [_cleanup_output_fields] *)

(** The part of a theme's configuration the cleanup reads. *)
Record feature_config := FeatureConfig {
  output_name : string;
  keep_fields : list string
}.

(** [_get_feature_configs]: output name and keep-field allowlist per theme. *)
Definition _get_feature_configs : list (string * feature_config) :=
  [ ("ST010Point", FeatureConfig "geomorfologia_punti.shp"
       ["Pun_Gmo"; "Foglio"; "Tipo_G_txt"; "Stato_txt"; "Tipol_txt"; "Direzione"]);
    ("ST011Polygon", FeatureConfig "geomorfologia_poligoni.shp"
       ["Pol_Gmo"; "Foglio"; "Tipo_G_txt"; "Stato_txt"; "Tipol_txt"; "Direzione"]);
    ("ST012Polyline", FeatureConfig "geomorfologia_linee.shp"
       ["Lin_Gmo"; "Label"; "Foglio"; "Tipo_G_txt"; "Stato_txt"; "Tipol_txt"]);
    ("ST013Point", FeatureConfig "risorse_prospezioni.shp"
       ["Num_Ris"; "Label1"; "Label2"; "Label3"; "Foglio"; "Tipo_txt"]);
    ("ST018Polyline", FeatureConfig "geologia_linee.shp"
       ["Foglio"; "Affior_txt"; "Tipo_g_txt"; "Cont_txt"; "Tipol_txt"; "Direzione"; "Fase_txt"]);
    ("ST018Polygon", FeatureConfig "geologia_poligoni.shp"
       ["Pol_Uc"; "Uc_Lege"; "Foglio"; "Direzione"; "Tipo_UQ"; "Stato_UQ"; "ETA_super";
        "ETA_infer"; "tipo_ug"; "Tessitura"; "Sigla1"; "Sigla_ug"; "Nome"; "Legenda";
        "Sommerso_"]);
    ("ST019Point", FeatureConfig "geologia_punti.shp"
       ["Num_Oss"; "Quota"; "Foglio"; "Tipo_g_txt"; "Inclinaz"; "Asimm_txt"; "Fase_txt";
        "Immersione"; "Verso_txt"; "Direzione"; "Tipol_txt"]);
    ("ST021Polyline", FeatureConfig "geologia_linee_pieghe.shp"
       ["Foglio"; "Fase_txt"; "Affior_txt"; "Tipo_g_txt"; "Cont_txt"; "Tipol_txt"; "Direzione"]) ].

Definition system_fields : gset string := {[ "FID"; "Shape" ]}.

Definition priority_fields : list string :=
  ["Foglio"; "Tipo_g_txt"; "Tipo_G_txt"; "Tipol_txt"; "Fase_txt"; "Tipo_geo"; "Tipologia";
   "Fase"; "Label"; "Num_Oss"; "Pun_Gmo"; "Lin_Gmo"; "Pol_Gmo"; "Num_Ris"].

(** [fields_to_keep] once the system fields and Foglio have been added. *)
Definition fields_to_keep (config : feature_config) (shapefile : table) : gset string :=
  list_to_set (keep_fields config) ∪ system_fields ∪
  (if bool_decide ("Foglio" ∈ field_names shapefile) then {[ "Foglio" ]} else ∅).

(** The attribute fields: those whose type is neither OID nor Geometry. *)
Definition data_fields (shapefile : table) : list string :=
  f_name <$> filter (λ f, f_type f ∉ [TOID; TGeometry]) (t_fields shapefile).

(** [fields_to_delete] as first computed. *)
Definition deletion_set (config : feature_config) (shapefile : table) : list string :=
  filter (λ f, f ∉ fields_to_keep config shapefile) (data_fields shapefile).

Definition remaining_data_fields (config : feature_config) (shapefile : table) : list string :=
  filter (λ f, (f ∉ deletion_set config shapefile) ∧ (f ∉ system_fields)) (data_fields shapefile).

(** [l.remove(x)]: the first occurrence. *)
Fixpoint list_remove (x : string) (l : list string) : list string :=
  match l with
  | [] => []
  | y :: r => if bool_decide (x = y) then r else y :: list_remove x r
  end.

(** The field the security check takes back out of a deletion list: the
    first priority field found in it, else its first field. *)
Definition rescue (fields_to_delete : list string) : option string :=
  match List.find (λ p, bool_decide (p ∈ fields_to_delete)) priority_fields with
  | Some p => Some p
  | None => head fields_to_delete
  end.

(** [fields_to_delete] after the security check, with the rescued field. *)
Definition fields_to_delete (config : feature_config) (shapefile : table)
    : list string * option string :=
  let del := deletion_set config shapefile in
  match remaining_data_fields config shapefile with
  | [] =>
      match rescue del with
      | Some r => (list_remove r del, Some r)
      | None => (del, None)
      end
  | _ => (del, None)
  end.

(** What the store answers to a deletion: whether one call for the whole
    list goes through, and whether a call for one field does. *)
Record delete_oracle := DeleteOracle {
  batch_ok : table → list string → bool;
  single_ok : table → string → bool
}.

Definition all_deletable : delete_oracle := DeleteOracle (λ _ _, true) (λ _ _, true).

(** The [try]/[except] around [DeleteField_management]. *)
Definition delete_with_fallback (o : delete_oracle) (shapefile : table) (names : list string)
    : table * list log_entry :=
  match names with
  | [] => (shapefile, [AddMessage "No fields to delete - all fields are marked as essential"])
  | _ =>
      if batch_ok o shapefile names then
        (DeleteField shapefile names, [AddMessage "Successfully cleaned up unused fields"])
      else
        (foldl (λ t n, if single_ok o t n then DeleteField t [n] else t) shapefile names,
         [AddWarning "Could not delete some fields"])
  end.

Definition _cleanup_output_fields (o : delete_oracle) (shapefile : table)
    (config : feature_config) : table * list log_entry * option exn :=
  let '(del, rescued) := fields_to_delete config shapefile in
  let warn :=
    match remaining_data_fields config shapefile with
    | [] => [AddWarning "Cannot delete all data fields - shapefile must have at least one attribute field"]
    | _ => []
    end in
  let '(t, msgs) := delete_with_fallback o shapefile del in
  match data_fields t with
  | [] =>
      (t, warn ++ msgs ++ [AddError "CRITICAL: Shapefile has no data fields remaining!"],
       Some (RuntimeError "Shapefile cleanup resulted in no data fields"))
  | _ => (t, warn ++ msgs, None)
  end.

(** ** SchemaStandardizer: [standardize_field_names_and_order] *)

Record field_standard := FieldStandard {
  field_order : list string;
  field_mappings : list (string * string)
}.

Definition lines_standard : field_standard :=
  FieldStandard
    ["FID"; "Shape"; "Foglio"; "Fase"; "Affiora"; "Tipo_Geo"; "Contorno"; "Tipologia"; "Direzione"]
    [("Affior_txt", "Affiora"); ("Tipo_g_txt", "Tipo_Geo"); ("Cont_txt", "Contorno");
     ("Tipol_txt", "Tipologia"); ("Fase_txt", "Fase")].

Definition morpho_mappings : list (string * string) :=
  [("Tipo_G_txt", "Tipo_Gmrf"); ("Stato_txt", "Stato"); ("Tipol_txt", "Tipologia")].

Definition _get_field_standards : list (string * field_standard) :=
  [ ("geologia_punti.shp", FieldStandard
       ["FID"; "Shape"; "Num_Oss"; "Quota"; "Foglio"; "Tipo_Geo"; "Inclinaz"; "Asimmetria";
        "Fase"; "Immersione"; "Verso"; "Direzione"; "Tipologia"]
       [("Tipo_g_txt", "Tipo_Geo"); ("Asimm_txt", "Asimmetria"); ("Fase_txt", "Fase");
        ("Verso_txt", "Verso"); ("Tipol_txt", "Tipologia")]);
    ("geologia_linee.shp", lines_standard);
    ("geologia_linee_pieghe.shp", lines_standard);
    ("geologia_poligoni.shp", FieldStandard
       ["FID"; "Shape"; "Pol_Uc"; "Uc_Lege"; "Foglio"; "Tipo_UQ"; "Stato_UQ"; "ETA_Super";
        "ETA_Infer"; "Tipo_UG"; "Tessitura"; "Sigla1"; "Sigla_UG"; "Nome"; "Legenda";
        "Sommerso"; "Direzione"]
       [("ETA_super", "ETA_Super"); ("ETA_infer", "ETA_Infer"); ("tipo_ug", "Tipo_UG");
        ("Sigla_ug", "Sigla_UG"); ("Sommerso_", "Sommerso")]);
    ("geomorfologia_punti.shp", FieldStandard
       ["FID"; "Shape"; "Pun_Gmo"; "Foglio"; "Tipo_Gmrf"; "Stato"; "Tipologia"; "Direzione"]
       morpho_mappings);
    ("geomorfologia_linee.shp", FieldStandard
       ["FID"; "Shape"; "Lin_Gmo"; "Label"; "Foglio"; "Tipo_Gmrf"; "Stato"; "Tipologia"]
       morpho_mappings);
    ("geomorfologia_poligoni.shp", FieldStandard
       ["FID"; "Shape"; "Pol_Gmo"; "Foglio"; "Tipo_Gmrf"; "Stato"; "Tipologia"; "Direzione"]
       morpho_mappings);
    ("risorse_prospezioni.shp", FieldStandard
       ["FID"; "Shape"; "Num_Ris"; "Label1"; "Label2"; "Label3"; "Foglio"; "Tipo"]
       [("Tipo_txt", "Tipo")]) ].

Definition _get_field_type_from_name (field_name : string) : field_type * nat :=
  let field_name_upper := Py.upper field_name in
  if existsb (λ p, Py.contains (Py.upper p) field_name_upper)
       ["Area"; "Perimeter"; "Length"; "Quota"; "Inclinaz"; "Immersione"; "Direzione"]
  then (TDouble, 0%nat)
  else if existsb (λ p, Py.contains (Py.upper p) field_name_upper) ["Num_"; "FID"]
  then (TInteger, 0%nat)
  else (TString, 255%nat).

(** [existing_fields_info]: the fields that are not the OID. *)
Definition existing_fields_info (t : table) : list field :=
  filter (λ f, f_type f ≠ TOID) (t_fields t).

(** First pass, one target of [field_order]: the field map grows by
    [(source, output name)]; a target with no source is added to the file
    as an empty field first. *)
Definition standardize_target (mappings : list (string * string))
    (st : table * list (string * string)) (target_field_name : string)
    : table * list (string * string) :=
  let '(t, fm) := st in
  if bool_decide (target_field_name ∈ ["FID"; "Shape"]) then st
  else
    let existing := f_name <$> existing_fields_info t in
    let source_field_name :=
      match List.find (λ m, bool_decide (m.2 = target_field_name) &&
                            bool_decide (m.1 ∈ existing)) mappings with
      | Some m => Some m.1
      | None => if bool_decide (target_field_name ∈ existing)
                then Some target_field_name else None
      end in
    match source_field_name with
    | Some src => (t, fm ++ [(src, target_field_name)])
    | None =>
        let '(ty, len) := _get_field_type_from_name target_field_name in
        let t' := AddField t target_field_name ty len in
        if bool_decide (target_field_name ∈ f_name <$> existing_fields_info t')
        then (t', fm ++ [(target_field_name, target_field_name)])
        else (t', fm)
    end.

(** Second pass: the attribute fields no target has used. *)
Definition remaining_field_maps (t : table) (fm : list (string * string))
    : list (string * string) :=
  (λ f, (f_name f, f_name f)) <$>
    filter (λ f, (f_name f ∉ fm.*1) ∧ (f_type f ∉ [TOID; TGeometry])) (existing_fields_info t).

(** [FeatureClassToFeatureClass_conversion] with a field mapping: the OID
    and geometry stay, the mapped fields follow under their output names,
    every feature is carried over. *)
Definition convert_with_field_mapping (t : table) (fm : list (string * string)) : table :=
  let sys := filter (λ f, f_type f ∈ [TOID; TGeometry]) (t_fields t) in
  let out_field (m : string * string) : list field :=
    match List.find (λ f, bool_decide (f_name f = m.1)) (t_fields t) with
    | Some f => [Field m.2 (f_type f) (f_length f)]
    | None => []
    end in
  Table (sys ++ (fm ≫= out_field))
        ((λ r, foldl (λ r' m, <[m.2 := row_get r m.1]> r')
                     (filter (λ kv, kv.1 ∈ f_name <$> sys) r) fm) <$> t_rows t).

Definition standardize_field_names_and_order (self : processor)
    (shapefile_path : string * string) : processor :=
  let shapefile_name := basename shapefile_path in
  match List.find (λ e, bool_decide (e.1 = shapefile_name)) _get_field_standards with
  | None => add_log self [AddMessage ("Standardization not defined for " +:+ shapefile_name)]
  | Some (_, config) =>
      let target_order := filter (λ n, n ≠ "OBJECTID") (field_order config) in
      match store self !! shapefile_path with
      | None =>
          add_log self [AddWarning ("  Field standardization failed for " +:+ shapefile_name)]
      | Some t =>
          let temp_path := path_join (dirname shapefile_path)
                             ("temp_standardized_" +:+ shapefile_name) in
          let st := delete temp_path (store self) in
          let '(t1, fm1) := foldl (standardize_target (field_mappings config)) (t, []) target_order in
          let fm := fm1 ++ remaining_field_maps t1 fm1 in
          let st := <[shapefile_path := t1]> st in
          match fm with
          | [] => set_store self st
          | _ =>
              let st := <[temp_path := convert_with_field_mapping t1 fm]> st in
              let st := delete shapefile_path st in
              let st :=
                match st !! temp_path with
                | Some out => <[shapefile_path := out]> (delete temp_path st)
                | None => st
                end in
              add_log (set_store self st)
                [AddMessage ("Field standardization completed successfully for " +:+ shapefile_name)]
          end
      end
  end.

(** ** MergeEngine: [combine_geology_lines_optimized] *)

(** [arcpy.Append_management(source, dest, "NO_TEST")]: the features of the
    source the store takes ([accept]) are added to the destination under the
    destination's schema; fields the destination lacks are dropped. *)
Definition Append_management (accept : gmap string value → bool) (source dest : table) : table :=
  Table (t_fields dest)
        (t_rows dest ++
         ((λ r, filter (λ kv, kv.1 ∈ field_names dest) r) <$> filter (λ r, accept r) (t_rows source))).

(** ["="*60] *)
Definition banner : string :=
  "============================================================".

(** The comparison that decides between deleting and keeping the source. *)
Definition append_verified (dest_count_before source_count dest_count_after : nat) : bool :=
  bool_decide (dest_count_after = (dest_count_before + source_count)%nat).

Definition combine_geology_lines_optimized (accept : gmap string value → bool)
    (self : processor) : processor :=
  let self := add_log self [AddMessage banner; AddMessage "APPENDING GEOLOGY LINES";
                            AddMessage banner] in
  let dest_file := path_join (workspace_output self) "geologia_linee.shp" in
  let source_file := path_join (workspace_output self) "geologia_linee_pieghe.shp" in
  match store self !! dest_file with
  | None => add_log self [AddWarning "Destination file not found: geologia_linee.shp"]
  | Some dest =>
      match store self !! source_file with
      | None => add_log self [AddWarning "Source file not found: geologia_linee_pieghe.shp"]
      | Some source =>
          let dest_count_before := GetCount dest in
          let source_count := GetCount source in
          let dest' := Append_management accept source dest in
          let self := set_store self (<[dest_file := dest']> (store self)) in
          let dest_count_after := GetCount dest' in
          let self :=
            if append_verified dest_count_before source_count dest_count_after then
              add_log (set_store self (delete source_file (store self)))
                [AddMessage "Append operation successful";
                 AddMessage "Source file deleted: geologia_linee_pieghe.shp"]
            else
              add_log self
                [AddWarning "Append operation may have issues";
                 AddMessage "Source file kept for manual inspection"] in
          let self := standardize_field_names_and_order self dest_file in
          add_log self [AddMessage "Final standardization applied"]
      end
  end.

(** ** PipelineOrchestrator: one theme *)

(** [process_feature_class_optimized] from its step 3 on.  [prepared] is what
    steps 1 and 2 leave: the working copy after the conversion, the field and
    domain mappings and the special processing, or the exception they raise.
    The method's [except Exception] turns every exception into [False]; the
    working copy is scratch, and only step 5 writes to the output
    directory. *)
Definition process_feature_class_optimized (o : delete_oracle) (self : processor)
    (prepared : result table) (config : feature_config) : bool * processor :=
  match prepared with
  | Raise _ => (false, add_log self [AddError "Error processing"])
  | Ok shapefile =>
      match _add_foglio_field self shapefile with
      | Raise _ => (false, add_log self [AddError "Error processing"])
      | Ok shapefile =>
          match _cleanup_output_fields o shapefile config with
          | (_, msgs, Some _) => (false, add_log self (msgs ++ [AddError "Error processing"]))
          | (shapefile, msgs, None) =>
              let final_output := path_join (workspace_output self) (output_name config) in
              let self := set_store (add_log self msgs)
                            (<[final_output := shapefile]> (store self)) in
              let self := standardize_field_names_and_order self final_output in
              (true, add_log self [AddMessage "Successfully processed"])
          end
      end
  end.

(** ** openlibs/gpkg_pipeline.py *)

Module OpenLibs.



(** [_som] of the polygon branch of [process_gpkg]. *)
Definition _som (v : value) : string :=
  if bool_decide (Conv.py_str v ∈ ["1"; "1.0"]) || Conv.py_eq v (VInt 1) then "SI"
  else if bool_decide (Conv.py_str v ∈ ["2"; "2.0"]) || Conv.py_eq v (VInt 2) then "NO"
  else "".

(** The "Append folds" block at the end of [process_gpkg]. *)
Definition append_folds (output_dir : string) (st : gmap (string * string) table)
    : gmap (string * string) table :=
  let pieghe := path_join output_dir "geologia_linee_pieghe.shp" in
  let linee := path_join output_dir "geologia_linee.shp" in
  match st !! pieghe, st !! linee with
  | Some gP, Some gL =>
      let gM := Table (t_fields gL ++ filter (λ f, f_name f ∉ field_names gL) (t_fields gP))
                      (t_rows gL ++ t_rows gP) in
      delete pieghe (<[linee := gM]> st)
  | _, _ => st
  end.

(** The second loop of [find_layer]: the first layer that holds a variant,
    without regard to case. *)
Fixpoint find_partial (layers name_variants : list string) : option string :=
  match name_variants with
  | [] => None
  | nv :: rest =>
      match List.find (λ L, Py.contains (Py.lower nv) (Py.lower L)) layers with
      | Some L => Some L
      | None => find_partial layers rest
      end
  end.

(** [find_layer] of [process_gpkg]; [layers] is [fiona.listlayers]. *)
Definition find_layer (layers name_variants : list string) : option string :=
  match List.find (λ nv, bool_decide (nv ∈ layers)) name_variants with
  | Some nv => Some nv
  | None => find_partial layers name_variants
  end.

(** [_map] of [_apply_domain]: [mapping.get(v, mapping.get(str(v).strip(), ''))],
    and the empty string for a missing value. *)
Definition _map (mapping : gmap key string) (v : value) : string :=
  match v with
  | VNone => ""
  | _ => default (default "" (mapping !! KStr (Py.strip (Conv.py_str v))))
                 (mapping !! Conv.key_of v)
  end.

(** The column [_apply_domain] stores under [out_col]. *)
Definition _apply_domain (df : table) (src_col : string) (mapping : gmap key string)
    : list string :=
  if bool_decide (mapping = ∅) then (λ _, "") <$> t_rows df
  else if bool_decide (src_col ∈ field_names df)
       then (λ r, _map mapping (row_get r src_col)) <$> t_rows df
       else (λ _, "") <$> t_rows df.

End OpenLibs.

(** ** Layer discovery and file names *)

(** [[a-zA-Z0-9_]], the class whose complement [re.sub] replaces. *)
Definition word_char (a : ascii) : bool :=
  let n := nat_of_ascii a in
  ((97 <=? n) && (n <=? 122))%nat || ((65 <=? n) && (n <=? 90))%nat ||
  Py.is_digit a || bool_decide (a = "_"%char).

(** [sanitize_shapefile_name]: every other character becomes an underscore,
    a leading digit gets the prefix shp_, the name is cut to 31 characters
    and the empty name becomes unnamed. *)
Definition sanitize_shapefile_name (name : string) : string :=
  let name := map (λ a, if word_char a then a else "_"%char) (Py.chars name) in
  let name :=
    match name with
    | a :: _ => if Py.is_digit a then Py.chars "shp_" ++ name else name
    | [] => name
    end in
  match name with
  | [] => "unnamed"
  | _ => Py.text (take 31 name)
  end.

(** A dictionary with string keys whose order of iteration matters, as the
    list of its items: a key written again keeps its place and takes the
    new value. *)
Fixpoint dict_set (k v : string) (d : list (string * string)) : list (string * string) :=
  match d with
  | [] => [(k, v)]
  | kv :: r => if bool_decide (kv.1 = k) then (k, v) :: r else kv :: dict_set k v r
  end.

Definition dict_get (k : string) (d : list (string * string)) : option string :=
  snd <$> List.find (λ kv, bool_decide (kv.1 = k)) d.

(** [{layer.lower(): layer for layer in available_layers}] *)
Definition layer_lookup (available_layers : list string) : list (string * string) :=
  foldl (λ d layer, dict_set (Py.lower layer) layer d) [] available_layers.

(** The loop over the patterns of [find_layer_by_pattern]. *)
Fixpoint find_in_lookup (lookup : list (string * string)) (patterns : list string)
    : option string :=
  match patterns with
  | [] => None
  | pattern :: rest =>
      let pattern_lower := Py.lower pattern in
      match dict_get pattern_lower lookup with
      | Some layer_name => Some layer_name
      | None =>
          match List.find (λ kv, Py.contains pattern_lower kv.1) lookup with
          | Some kv => Some kv.2
          | None => find_in_lookup lookup rest
          end
      end
  end.

Definition find_layer_by_pattern (available_layers patterns : list string) : option string :=
  find_in_lookup (layer_lookup available_layers) patterns.

(** ** Input validation: [get_foglio_from_geopackage], [validate_inputs] *)

Definition set_foglio (self : processor) (f : string) : processor :=
  Processor (input_gpkg self) (domini_path self) (workspace_output self) f
    (_domain_cache self) (store self) (trace self) (log self).

(** The first non-null value a search cursor over [FoglioGeologico] yields
    on one layer, as [str(row[0]).strip()]; [None] when the layer has no
    such field or only null values. *)
Definition layer_foglio (t : table) : option string :=
  if bool_decide ("FOGLIOGEOLOGICO" ∈ Py.upper <$> field_names t) then
    match cursor_field t "FoglioGeologico" with
    | Some f =>
        match List.find (λ r, bool_decide (row_get r f ≠ VNone)) (t_rows t) with
        | Some r => Some (Py.strip (Conv.py_str (row_get r f)))
        | None => None
        end
    | None => None
    end
  else None.

(** [get_foglio_from_geopackage]; [available_layers] is what
    [get_available_layers] returns.  A layer that cannot be read is reported
    and skipped. *)
Fixpoint get_foglio_from_geopackage (self : processor) (available_layers : list string)
    : result string * processor :=
  match available_layers with
  | [] => (Raise ValueError, self)
  | layer_name :: rest =>
      match store self !! path_join (input_gpkg self) layer_name with
      | None =>
          get_foglio_from_geopackage
            (add_log self [AddWarning ("Error reading FoglioGeologico from " +:+ layer_name)])
            rest
      | Some t =>
          match layer_foglio t with
          | Some f =>
              (Ok f, add_log (set_foglio self f)
                       [AddMessage ("Found FoglioGeologico: " +:+ f +:+ " in layer " +:+ layer_name)])
          | None => get_foglio_from_geopackage self rest
          end
      end
  end.

(** [validate_inputs]; [exists] is [os.path.exists(self.input_gpkg)]. *)
Definition validate_inputs (self : processor) (exists_gpkg : bool)
    (available_layers : list string) : result unit * processor :=
  if bool_decide (input_gpkg self = "") then (Raise ValueError, self)
  else if negb exists_gpkg then (Raise ValueError, self)
  else if negb (Py.endswith (Py.lower (input_gpkg self)) ".gpkg") then (Raise ValueError, self)
  else
    match get_foglio_from_geopackage self available_layers with
    | (Raise e, self) => (Raise e, self)
    | (Ok _, self) =>
        if bool_decide (foglio self = "") || bool_decide (Py.strip (foglio self) = "")
        then (Raise ValueError, self)
        else (Ok (), self)
    end.

(** ** FieldMapper: [process_field_mapping] *)

(** One entry of a theme's ["fields"] list: every entry of
    [_get_feature_configs] has ["old"] and ["new"], some have ["sources"]. *)
Record field_config := FieldConfig {
  old : string;
  new : string;
  sources : option (list string)
}.

(** [field_config.get("sources", [old_name] if old_name else [])] *)
Definition source_fields (field_config : field_config) : list string :=
  match sources field_config with
  | Some l => l
  | None => if bool_decide (old field_config = "") then [] else [old field_config]
  end.

(** The first source whose upper-cased name the dictionary holds. *)
Fixpoint found_source (existing_fields_dict : gmap string string) (source_fields : list string)
    : option string :=
  match source_fields with
  | [] => None
  | source :: rest =>
      match existing_fields_dict !! Py.upper source with
      | Some name => Some name
      | None => found_source existing_fields_dict rest
      end
  end.

(** [CalculateField_management(t, field, "!source!", ...)]: every feature
    gets the value its field [source] holds. *)
Definition CalculateField_from (t : table) (fld source : string) : result table :=
  match cursor_field t fld, cursor_field t source with
  | Some f, Some s => Ok (Table (t_fields t) ((λ r, <[f := row_get r s]> r) <$> t_rows t))
  | _, _ => Raise (RuntimeError "ExecuteError")
  end.

Definition process_field_mapping (shapefile : table) (field_config : field_config)
    (existing_fields_dict : gmap string string) : bool * table * list log_entry :=
  let new_name := new field_config in
  match found_source existing_fields_dict (source_fields field_config) with
  | None => (false, shapefile, [AddWarning ("No source field found for '" +:+ new_name +:+ "'")])
  | Some found_source =>
      if bool_decide (found_source = "") then
        (false, shapefile, [AddWarning ("No source field found for '" +:+ new_name +:+ "'")])
      else if bool_decide (Py.upper new_name ≠ Py.upper found_source) then
        match List.find (λ f, bool_decide (Py.upper (f_name f) = Py.upper found_source))
                        (t_fields shapefile) with
        | None =>
            (false, shapefile, [AddWarning ("Source field object not found for " +:+ found_source)])
        | Some source_field_obj =>
            let t := AddField shapefile new_name (f_type source_field_obj)
                       (f_length source_field_obj) in
            match CalculateField_from t new_name found_source with
            | Ok t' => (true, t', [AddMessage ("Mapped " +:+ found_source +:+ " -> " +:+ new_name)])
            | Raise _ =>
                (false, t, [AddWarning ("Error mapping field " +:+ found_source +:+ " -> " +:+ new_name)])
            end
        end
      else
        (true, shapefile,
         [AddMessage ("Field " +:+ new_name +:+ " already exists with correct name")])
  end.

(** One entry of a theme's ["domains"] list. *)
Record domain_info := DomainInfo {
  di_field : string;
  di_source : string;
  di_domain : string
}.

(** [_process_standard_fields_and_domains]; [domini_exists] is
    [os.path.exists(self.domini_path)].  The field dictionary is computed
    once, before the first mapping. *)
Definition _process_standard_fields_and_domains (self : processor) (domini_exists : bool)
    (shapefile : table) (fields : list field_config) (domains : list domain_info)
    : table * processor :=
  let existing_fields_dict := existing_fields_dict shapefile in
  let '(shapefile, self) :=
    foldl (λ (st : table * processor) field_config,
             let '(_, t, msgs) := process_field_mapping st.1 field_config existing_fields_dict in
             (t, add_log st.2 msgs))
          (shapefile, self) fields in
  if domini_exists then
    foldl (λ (st : table * processor) domain_info,
             let '(code_map, self) :=
               load_domain_mappings st.2 (di_domain domain_info) "CODE" "DESC" false in
             let '(t, msgs) :=
               apply_domain_mapping st.1 (di_field domain_info) (di_source domain_info) code_map in
             (t, add_log self msgs))
          (shapefile, self) domains
  else (shapefile, self).

(** ** SpecialCaseProcessor: the geology lines *)

(** [cursor.updateRow(values)] on every feature, for a cursor over the
    fields [names]; [None] when a name is no field of the table. *)
Definition update_all (t : table) (names : list string) (values : list value)
    : option table :=
  match mapM (cursor_field t) names with
  | Some fs =>
      Some (Table (t_fields t)
              ((λ r, foldl (λ r' fv, <[fv.1 := fv.2]> r') r (zip fs values)) <$> t_rows t))
  | None => None
  end.

Definition process_geology_lines_standard (shapefile : table) : bool * table * list log_entry :=
  let present := bool_decide (is_Some (existing_fields_dict shapefile !! "FASE_TXT")) in
  let t := if present then shapefile else AddField shapefile "Fase_txt" TString 255 in
  let msgs :=
    AddMessage "Processing geologia_linee with special handling..." ::
    (if present then [] else [AddMessage "'Fase_txt' created"]) in
  match update_all t ["Fase_txt"] [VStr "non applicabile/non classificabile"] with
  | Some t' =>
      (true, t',
       msgs ++ [AddMessage "'Fase_txt' compiled with 'non applicabile/non classificabile'"])
  | None => (false, t, msgs ++ [AddError "Error in processing geologia_linee"])
  end.

(** One round of the loop over [fields_to_add] of [process_geology_lines_pieghe]. *)
Definition add_text_field (st : table * list log_entry) (field_name : string)
    : table * list log_entry :=
  if bool_decide (is_Some (existing_fields_dict st.1 !! Py.upper field_name)) then st
  else (AddField st.1 field_name TString 255,
        st.2 ++ [AddMessage ("Campo " +:+ field_name +:+ " aggiunto")]).

Definition process_geology_lines_pieghe (shapefile : table) : bool * table * list log_entry :=
  let '(t, msgs) :=
    foldl add_text_field
      (shapefile, [AddMessage "Processing geologia_linee_pieghe with standardized fields..."])
      ["Affior_txt"; "Cont_txt"] in
  let existing_field_names_upper := Py.upper <$> (map_to_list (existing_fields_dict t)).*2 in
  let updates :=
    (if bool_decide ("AFFIOR_TXT" ∈ existing_field_names_upper)
     then [("Affior_txt", VStr "non applicabile")] else []) ++
    (if bool_decide ("CONT_TXT" ∈ existing_field_names_upper)
     then [("Cont_txt", VStr "no")] else []) in
  match updates with
  | [] =>
      (true, t, msgs ++ [AddMessage "Field compilation not required";
                         AddMessage "geologia_linee_pieghe processing OK"])
  | _ =>
      match update_all t updates.*1 updates.*2 with
      | Some t' =>
          (true, t',
           msgs ++ [AddMessage "Field compiled: Affior_txt = 'non applicabile', Cont_txt = 'no'";
                    AddMessage "geologia_linee_pieghe processing OK"])
      | None => (false, t, msgs ++ [AddError "geologia_linee_pieghe processing ERROR"])
      end
  end.

(** ** SpecialCaseProcessor: the temporary fields of the geology polygons *)

Definition temp_fields : list string :=
  ["TIPO"; "TIPOLOGIA"; "ID_LIMITE"; "ID_ELEST"; "CONTORNO"; "AFFIORA";
   "PUN_GMO"; "STATO"; "ST018_"; "ST018_ID"; "UQ_CAR"; "ID_TESS";
   "ID_AMB"; "SOMMERSO"; "TempTESS"; "TempTIPO"; "TempSTATO";
   "TMP_super"; "TMP_infer"; "Temp_UnGeo"].

(** [_cleanup_geology_fields]: one call deletes the temporary fields the
    file has; when the store refuses it, a warning is all that happens. *)
Definition _cleanup_geology_fields (o : delete_oracle) (shapefile : table)
    : table * list log_entry :=
  let fields_to_delete := filter (λ f, f ∈ field_names shapefile) temp_fields in
  match fields_to_delete with
  | [] => (shapefile, [])
  | _ =>
      if batch_ok o shapefile fields_to_delete then
        (DeleteField shapefile fields_to_delete,
         [AddMessage ("Deleted " +:+ pretty (length fields_to_delete) +:+ " temporary fields")])
      else (shapefile, [AddWarning "Could not delete some temporary fields"])
  end.

(** ** PipelineOrchestrator: the verification of the outputs *)

(** [expected_files] of [_verify_final_outputs_optimized]. *)
Definition expected_files : list (string * list string) :=
  [ ("geomorfologia_punti.shp", ["Pun_Gmo"; "Foglio"; "Tipo_Gmrf"]);
    ("geomorfologia_poligoni.shp", ["Pol_Gmo"; "Foglio"; "Tipo_Gmrf"]);
    ("geomorfologia_linee.shp", ["Lin_Gmo"; "Foglio"; "Tipo_Gmrf"]);
    ("risorse_prospezioni.shp", ["Num_Ris"; "Foglio"; "Tipo"]);
    ("geologia_linee.shp",
     ["Foglio"; "Fase"; "Affiora"; "Tipo_Geo"; "Contorno"; "Tipologia"; "Direzione"]);
    ("geologia_poligoni.shp", ["Pol_Uc"; "Foglio"; "Tipo_UQ"]);
    ("geologia_punti.shp", ["Num_Oss"; "Foglio"; "Tipo_Geo"]) ].

(** [missing_fields] for one file that exists. *)
Definition missing_fields (t : table) (critical_fields : list string) : list string :=
  filter (λ f, f ∉ field_names t) critical_fields.

(** What the verification reports on one expected file. *)
Definition verify_file (self : processor) (expected : string * list string) : log_entry :=
  let '(filename, critical_fields) := expected in
  match store self !! path_join (workspace_output self) filename with
  | Some t =>
      match missing_fields t critical_fields with
      | [] => AddMessage (filename +:+ " - " +:+ pretty (GetCount t) +:+
                          " features, all critical fields present")
      | _ => AddWarning (filename +:+ " - Missing fields")
      end
  | None =>
      if bool_decide (filename ≠ "geologia_linee_pieghe.shp")
      then AddWarning (filename +:+ " - File not created")
      else AddMessage (filename +:+ " - Correctly merged into geologia_linee.shp")
  end.

Definition _verify_final_outputs_optimized (self : processor) : processor :=
  add_log self ([AddMessage "=== OUTPUT VERIFICATION ==="] ++
                (verify_file self <$> expected_files) ++
                [AddMessage "=== END VERIFICATION ==="]).

(** ** The specification's wording, as definitions *)

(** "numeric 1", "numeric 2": an [int] or a [float] of that value. *)
Definition is_numeric (n : Z) (v : value) : bool :=
  match v with
  | VInt m => bool_decide (m = n)
  | VFloat d => bool_decide (dmant d = n * 10 ^ Z.of_nat (dscale d))
  | _ => false
  end.

(** The tri-state flag of the specification: one is numeric 1, "1" or
    "1.0"; two is numeric 2, "2" or "2.0"; anything else, null included, is
    the empty string. *)
Definition tri_state (v : value) : string :=
  if is_numeric 1 v || bool_decide (v ∈ [VStr "1"; VStr "1.0"]) then "SI"
  else if is_numeric 2 v || bool_decide (v ∈ [VStr "2"; VStr "2.0"]) then "NO"
  else "".









(** ** Auxiliary notions *)

(** A list with no white space at either end. *)
Definition trimmed (l : list ascii) : Prop :=
  Py.drop_while Ascii.is_space l = l ∧
  Py.drop_while Ascii.is_space (reverse l) = reverse l.

(** A character of a number in positional notation. *)
Definition numeric_char (a : ascii) : bool :=
  Py.is_digit a || bool_decide (a = "."%char) || bool_decide (a = "-"%char).


(** ** Concrete inputs *)

(** The two outputs the merge works on. *)
Definition dest_file (self : processor) : string * string :=
  path_join (workspace_output self) "geologia_linee.shp".
Definition source_file (self : processor) : string * string :=
  path_join (workspace_output self) "geologia_linee_pieghe.shp".

(** A processor on an empty workspace. *)
Definition empty_processor : processor :=
  Processor "in.gpkg" "domini" "output" "348" ∅ ∅ [] [].

(** A polygon file with a SOMMERSO column. *)
Definition sommerso_file : table :=
  Table [Field "FID" TOID 4; Field "Shape" TGeometry 0; Field "SOMMERSO" TString 10]
        [ {[ "SOMMERSO" := VInt 1 ]}; {[ "SOMMERSO" := VStr "2.0" ]}; ∅;
          {[ "SOMMERSO" := VStr "x" ]}; {[ "SOMMERSO" := VInt 3 ]} ].

(** Scenario D: a file whose attribute fields are Foglio and TempX, cleaned
    up with the keep-list [["Foglio"]]. *)
Definition scenario_D_file : table :=
  Table [Field "FID" TOID 4; Field "Shape" TGeometry 0; Field "Foglio" TString 50;
         Field "TempX" TString 10]
        [ {[ "Foglio" := VStr "348"; "TempX" := VStr "t" ]} ].
Definition scenario_D_config : feature_config := FeatureConfig "scenario_d.shp" ["Foglio"].

(** A file none of whose attribute fields is kept. *)
Definition unkept_file : table :=
  Table [Field "FID" TOID 4; Field "Shape" TGeometry 0; Field "TempX" TString 10;
         Field "Label" TString 20; Field "Tipologia" TInteger 4] [ ∅ ].
Definition unkept_config : feature_config := FeatureConfig "unkept.shp" ["Pun_Gmo"].

(** Scenario D as the specification words it: Foglio is retained and the
    rescue rule retains a field of the deletion set besides. *)
Definition scenario_D_claim : Prop :=
  let out := (_cleanup_output_fields all_deletable scenario_D_file scenario_D_config).1.1 in
  "Foglio" ∈ field_names out ∧
  ∃ r, (fields_to_delete scenario_D_config scenario_D_file).2 = Some r ∧ r ∈ field_names out.

(** Scenario E: a workspace whose geologia_linee.shp holds 100 features and
    whose geologia_linee_pieghe.shp holds 25. *)
Definition lines_fields : list field :=
  [Field "FID" TOID 4; Field "Shape" TGeometry 0; Field "Foglio" TString 50;
   Field "Fase_txt" TString 254; Field "Tipo_g_txt" TString 254].

Definition scenario_E : processor :=
  Processor "in.gpkg" "domini" "output" "348" ∅
    {[ ("output", "geologia_linee.shp") :=
         Table lines_fields (replicate 100 {[ "Foglio" := VStr "348" ]});
       ("output", "geologia_linee_pieghe.shp") :=
         Table lines_fields (replicate 25 {[ "Foglio" := VStr "348"; "Fase_txt" := VStr "F1" ]}) ]}
    [] [].

(** The temporary output of the standardization of a file. *)
Definition temp_path (shapefile_path : string * string) : string * string :=
  path_join (dirname shapefile_path) ("temp_standardized_" +:+ basename shapefile_path).

(** A run with two domain tables in the domini directory: d_stato.dbf and
    the sheet table d_foglio.dbf, which names sheet 348. *)
Definition stato_path : string * string := ("domini", "d_stato.dbf").

Definition domini_processor : processor :=
  Processor "in.gpkg" "domini" "output" "348" ∅
    {[ stato_path :=
         Table [Field "CODE" TInteger 4; Field "DESCR" TString 50]
               [ {[ "CODE" := VInt 1; "DESCR" := VStr "attivo" ]};
                 {[ "CODE" := VInt 2; "DESCR" := VStr "inattivo" ]} ];
       ("domini", "d_foglio.dbf") :=
         Table [Field "N1" TInteger 4; Field "N2" TString 50]
               [ {[ "N1" := VInt 348; "N2" := VStr "Antrodoco" ]} ] ]}
    [] [].

(** The reads of one load of d_stato.dbf. *)
Definition stato_reads : list io_event :=
  [EvExists stato_path; EvListFields stato_path; EvSearchCursor stato_path ["CODE"; "DESCR"]].





(** Scenario A of the specification. *)
Definition scenario_A : processor :=
  Processor "in.gpkg" "domini" "output" "348" ∅
    {[ ("domini", "d_lito.dbf") :=
         Table [Field "CODE" TString 10; Field "DESCR" TString 50]
               [ {[ "CODE" := VStr "1"; "DESCR" := VStr "Alluvium" ]};
                 {[ "CODE" := VFloat (Dec 20 1); "DESCR" := VStr " Alluvium " ]} ] ]}
    [] [].



(** ** Notions and inputs for the remaining methods *)

(** A name a shapefile can carry: between 1 and 31 characters, letters,
    digits and underscores only, the first not a digit. *)
Definition valid_name (s : string) : Prop :=
  Py.chars s ≠ [] ∧ (length (Py.chars s) ≤ 31)%nat ∧
  Forall (λ a, word_char a = true) (Py.chars s) ∧
  match Py.chars s with a :: _ => Py.is_digit a = false | [] => True end.

(** A pattern lies in a layer name, without regard to case. *)
Definition matches_layer (pattern layer : string) : Prop :=
  Py.contains (Py.lower pattern) (Py.lower layer) = true.

(** A non-null FoglioGeologico value [s] comes from: a feature of a layer
    of the package. *)
Definition foglio_source (self : processor) (available_layers : list string) (s : string)
    : Prop :=
  ∃ layer_name t f r,
    layer_name ∈ available_layers ∧
    store self !! path_join (input_gpkg self) layer_name = Some t ∧
    f ∈ field_names t ∧ Py.upper f = "FOGLIOGEOLOGICO" ∧
    r ∈ t_rows t ∧ row_get r f ≠ VNone ∧ s = Py.strip (Conv.py_str (row_get r f)).

(** A package with one layer, whose second feature carries the sheet
    number. *)
Definition gpkg_processor : processor :=
  Processor "in.GPKG" "domini" "output" "" ∅
    {[ ("in.GPKG", "main.ST018Polygon") :=
         Table [Field "FID" TOID 4; Field "Shape" TGeometry 0;
                Field "FoglioGeologico" TString 10]
               [ ∅; {[ "FoglioGeologico" := VStr " 348 " ]} ] ]}
    [] [].

(** A resources layer whose number field has the alternative name. *)
Definition ris_file : table :=
  Table [Field "FID" TOID 4; Field "Shape" TGeometry 0; Field "NUMERORIS" TInteger 4]
        [ {[ "NUMERORIS" := VInt 7 ]}; ∅ ].
Definition ris_config : field_config :=
  FieldConfig "Num_Ris" "Num_Ris" (Some ["Num_Ris"; "NUMERORIS"]).

(** A file with an infinity literal in its source field. *)
Definition inf_shapefile : table :=
  Table [Field "FID" TOID 4; Field "Shape" TGeometry 0; Field "Lito" TString 10]
        [ {[ "Lito" := VInt 1 ]}; {[ "Lito" := VStr "inf" ]}; {[ "Lito" := VStr "2" ]} ].







(** A store that takes every fold but those with a phase. *)
Definition no_phase (r : gmap string value) : bool := bool_decide (r !! "Fase_txt" = None).





(** * Properties *)

(** ** The conversions on examples *)

Example strip_ex : Py.strip "  a b  " = "a b".
Proof. reflexivity. Qed.

Example str_float_ex :
  Conv.py_str <$> [VFloat (Dec 10 1); VFloat (Dec (-125) 2); VFloat (Dec 5 2); VInt (-12)]
  = ["1.0"; "-1.25"; "0.05"; "-12"].
Proof. vm_compute. reflexivity. Qed.

Example float_ex :
  Conv.py_float <$> [" 1.50 "; "1e2"; "-.5"; "1-2"; "Inf"; "2.5E-1"; ""; "7."; "."; "nan"]
  = [FFinite (Dec 15 1); FFinite (Dec 100 0); FFinite (Dec (-5) 1); FValueError; FInf;
     FFinite (Dec 25 2); FValueError; FFinite (Dec 7 0); FValueError; FNan].
Proof. vm_compute. reflexivity. Qed.

Example key_ex : Conv.key_of (VInt 1) = Conv.key_of (VFloat (Dec 100 2)).
Proof. reflexivity. Qed.

Example keys_to_map_ex :
  keys_to_map <$> [VStr "1.5"; VStr " 1 "; VStr "1-2"; VInt 7]
  = [Ok [KStr "1.5"; KStr "1.5"; KNum 15 1; KNum 1 0]; Ok [KStr "1"];
     Ok [KStr "1-2"; KStr "1-2"]; Ok [KStr "7"; KNum 7 0; KNum 7 0; KNum 7 0]].
Proof. vm_compute. reflexivity. Qed.

(** ** The processor record *)

Section processor_facts.
Context (self : processor).

Lemma store_add_log ms : store (add_log self ms) = store self.
Proof. reflexivity. Qed.

Lemma store_add_trace es : store (add_trace self es) = store self.
Proof. reflexivity. Qed.

Lemma cache_add_log ms : _domain_cache (add_log self ms) = _domain_cache self.
Proof. reflexivity. Qed.

Lemma cache_add_trace es : _domain_cache (add_trace self es) = _domain_cache self.
Proof. reflexivity. Qed.

Lemma add_log_nil : add_log self [] = self.
Proof. destruct self; unfold add_log; simpl. by rewrite app_nil_r. Qed.
End processor_facts.

(** ** Domain application with an empty map *)

(** C9: with an empty code map [apply_domain_mapping] hands the shapefile
    back as it received it, fields and rows alike, and reports exactly one
    warning; the target field is not created. *)
Theorem apply_domain_mapping_empty (shapefile : table) (field_name source_field : string) :
  apply_domain_mapping shapefile field_name source_field ∅ =
    (shapefile, [AddWarning ("No domain mappings available for " +:+ field_name)]) ∧
  field_names (apply_domain_mapping shapefile field_name source_field ∅).1 =
    field_names shapefile ∧
  t_rows (apply_domain_mapping shapefile field_name source_field ∅).1 = t_rows shapefile ∧
  forallb is_warning (apply_domain_mapping shapefile field_name source_field ∅).2 = true.
Proof.
  unfold apply_domain_mapping.
  rewrite bool_decide_eq_true_2 by reflexivity.
  repeat split.
Qed.

(** ** The merge when a file is missing *)

(** C10: when geologia_linee.shp or geologia_linee_pieghe.shp is missing,
    [combine_geology_lines_optimized] only writes to the log: the heading
    and one warning.  The store is the one it was given, so nothing is
    appended, deleted or standardized. *)
Theorem combine_missing_file (accept : gmap string value → bool) (self : processor) :
  store self !! dest_file self = None ∨ store self !! source_file self = None →
  ∃ w, combine_geology_lines_optimized accept self =
         add_log (add_log self [AddMessage banner; AddMessage "APPENDING GEOLOGY LINES";
                                AddMessage banner]) [AddWarning w] ∧
       store (combine_geology_lines_optimized accept self) = store self.
Proof.
  intros Hmissing. unfold combine_geology_lines_optimized, dest_file, source_file in *.
  simpl in *.
  destruct (store self !! path_join (workspace_output self) "geologia_linee.shp")
    as [dest|] eqn:Hd.
  - destruct Hmissing as [?|Hs]; [discriminate|]. rewrite Hs. eauto.
  - eauto.
Qed.

Lemma combine_missing_file_witness :
  ∃ w, combine_geology_lines_optimized (λ _, true) empty_processor =
         add_log (add_log empty_processor
                    [AddMessage banner; AddMessage "APPENDING GEOLOGY LINES";
                     AddMessage banner]) [AddWarning w] ∧
       store (combine_geology_lines_optimized (λ _, true) empty_processor) =
         store empty_processor.
Proof. apply (combine_missing_file (λ _, true) empty_processor). left. reflexivity. Defined.

(** ** Decimals in lowest terms *)

Lemma dnorm_go_int (m : Z) (k : nat) (n : Z) :
  Num.dnorm_go m k = (n, 0%nat) ↔ m = n * 10 ^ Z.of_nat k.
Proof.
  revert m. induction k as [|k IH]; intros m; simpl Num.dnorm_go.
  - change (Z.of_nat 0) with 0. rewrite Z.pow_0_r, Z.mul_1_r. split; congruence.
  - rewrite Nat2Z.inj_succ, Z.pow_succ_r by lia.
    destruct (Z.eqb_spec (m mod 10) 0) as [H0|H0].
    + rewrite IH. pose proof (Z.div_mod m 10 ltac:(lia)). split; intros Hm.
      * lia.
      * subst m. replace (n * (10 * 10 ^ Z.of_nat k)) with (n * 10 ^ Z.of_nat k * 10) by ring.
        apply Z.div_mul. lia.
    + split; [intros [=]|]. intros ->. exfalso. apply H0.
      replace (n * (10 * 10 ^ Z.of_nat k)) with (n * 10 ^ Z.of_nat k * 10) by ring.
      apply Z.mod_mul. lia.
Qed.

Lemma py_eq_float_int (d : dec) (n : Z) :
  Conv.py_eq (VFloat d) (VInt n) = bool_decide (dmant d = n * 10 ^ Z.of_nat (dscale d)).
Proof.
  unfold Conv.py_eq, Conv.key_of, Num.dnorm.
  destruct (Num.dnorm_go (dmant d) (dscale d)) as [m k] eqn:E. simpl.
  apply bool_decide_ext. rewrite <- dnorm_go_int, E. split; congruence.
Qed.

(** ** The Sommerso flag *)

Lemma py_eq_int (v : value) (n : Z) : Conv.py_eq v (VInt n) = is_numeric n v.
Proof.
  destruct v as [|m|d|s]; try reflexivity.
  - unfold Conv.py_eq, is_numeric; simpl. apply bool_decide_ext. split; congruence.
  - apply py_eq_float_int.
Qed.

Lemma py_eq_str (v : value) (s : string) : Conv.py_eq v (VStr s) = bool_decide (v = VStr s).
Proof.
  unfold Conv.py_eq. apply bool_decide_ext.
  destruct v as [|m|d|s']; simpl; split; congruence.
Qed.

Lemma bool_decide_in_pair (v a b : value) :
  bool_decide (v ∈ [a; b]) = bool_decide (v = a) || bool_decide (v = b).
Proof.
  destruct (decide (v = a)) as [->|Ha].
  - rewrite (bool_decide_eq_true_2 (a = a)) by reflexivity. simpl.
    apply bool_decide_eq_true_2. apply elem_of_cons. by left.
  - rewrite (bool_decide_eq_false_2 (v = a)) by assumption. simpl.
    apply bool_decide_ext. rewrite !elem_of_cons, elem_of_nil. tauto.
Qed.

Lemma sommerso_new_val_tri_state (v : value) : sommerso_new_val v = tri_state v.
Proof.
  unfold sommerso_new_val, tri_state. simpl existsb.
  rewrite !py_eq_int, !py_eq_str, !bool_decide_in_pair, !orb_false_r.
  reflexivity.
Qed.

(** ** Fields, cursors and [AddField] *)

Lemma existing_fields_dict_fold (l : list string) (m0 : gmap string string) (u : string) :
  is_Some (foldl (λ m n, <[Py.upper n := n]> m) m0 l !! u) ↔
  is_Some (m0 !! u) ∨ ∃ n, n ∈ l ∧ Py.upper n = u.
Proof.
  revert m0. induction l as [|a l IH]; intros m0; simpl.
  - split; [auto|]. intros [?|(n & Hn & _)]; [done|]. by apply elem_of_nil in Hn.
  - rewrite IH. rewrite lookup_insert_is_Some. split.
    + intros [[Ha|[_ H]]|(n & Hn & Hu)].
      * right. exists a. split; [apply elem_of_cons; by left|done].
      * by left.
      * right. exists n. split; [apply elem_of_cons; by right|done].
    + intros [H|(n & Hn & Hu)].
      * destruct (decide (Py.upper a = u)); [left; by left|left; right; done].
      * apply elem_of_cons in Hn as [->|Hn]; [left; by left|].
        right. by exists n.
Qed.

Lemma existing_fields_dict_is_Some (t : table) (u : string) :
  is_Some (existing_fields_dict t !! u) ↔ ∃ n, n ∈ field_names t ∧ Py.upper n = u.
Proof.
  unfold existing_fields_dict. rewrite existing_fields_dict_fold, lookup_empty.
  split; [intros [[? [=]]|H]; exact H|by right].
Qed.

Lemma cursor_field_found (t : table) (n : string) :
  (∃ m, m ∈ field_names t ∧ Py.upper m = Py.upper n) →
  ∃ f, cursor_field t n = Some f ∧ f ∈ field_names t ∧ Py.upper f = Py.upper n.
Proof.
  intros (m & Hm & Hu). unfold cursor_field.
  destruct (List.find _ (field_names t)) as [f|] eqn:E.
  - apply List.find_some in E as [Hin Hf]. apply bool_decide_eq_true_1 in Hf.
    exists f. by rewrite list_elem_of_In.
  - apply List.find_none with (x := m) in E; [|by apply list_elem_of_In].
    by rewrite bool_decide_eq_true_2 in E.
Qed.

Lemma AddField_rows (t : table) (n : string) ty len : t_rows (AddField t n ty len) = t_rows t.
Proof. unfold AddField. by case_bool_decide. Qed.

Lemma AddField_has_field (t : table) (n : string) ty len :
  ∃ m, m ∈ field_names (AddField t n ty len) ∧ Py.upper m = Py.upper n.
Proof.
  unfold AddField. case_bool_decide as H.
  - by apply existing_fields_dict_is_Some.
  - exists n. split; [|done]. unfold field_names; simpl.
    rewrite fmap_app. apply elem_of_app. right. apply list_elem_of_singleton. done.
Qed.

Lemma AddField_keeps_fields (t : table) (n : string) ty len (m : string) :
  m ∈ field_names t → m ∈ field_names (AddField t n ty len).
Proof.
  unfold AddField. case_bool_decide; [done|]. unfold field_names; simpl.
  rewrite fmap_app, elem_of_app. by left.
Qed.

Lemma row_get_insert (r : gmap string value) (n : string) (v : value) :
  row_get (<[n := v]> r) n = v.
Proof. unfold row_get. by rewrite lookup_insert_eq. Qed.

(** ** Cleanup of the output fields *)

Lemma list_remove_elem_of (x r : string) (l : list string) :
  x ∈ list_remove r l → x ∈ l.
Proof.
  induction l as [|y l IH]; simpl; [done|].
  case_bool_decide as E; rewrite !elem_of_cons; [by right|].
  intros [->|Hin]; [by left|right; by apply IH].
Qed.

Lemma list_remove_length (r : string) (l : list string) :
  r ∈ l → S (length (list_remove r l)) = length l.
Proof.
  induction l as [|y l IH]; simpl; [by intros ?%elem_of_nil|].
  case_bool_decide as E; [done|]. rewrite elem_of_cons. intros [->|Hin]; [done|].
  simpl. by rewrite IH.
Qed.

Lemma list_remove_NoDup (r : string) (l : list string) :
  NoDup l → r ∉ list_remove r l.
Proof.
  induction 1 as [|y l Hy Hl IH]; simpl; [apply not_elem_of_nil|].
  case_bool_decide as E; [by subst|].
  rewrite elem_of_cons. intros [->|Hin]; [done|by apply IH].
Qed.

Lemma rescue_elem_of (del : list string) (r : string) : rescue del = Some r → r ∈ del.
Proof.
  unfold rescue. destruct (List.find _ priority_fields) as [p|] eqn:E.
  - intros [= <-]. apply List.find_some in E as [_ E]. by apply bool_decide_eq_true_1 in E.
  - destruct del; [done|]. simpl. intros [= <-]. apply elem_of_cons. by left.
Qed.

Lemma rescue_is_Some (del : list string) : del ≠ [] → is_Some (rescue del).
Proof.
  unfold rescue. destruct (List.find _ priority_fields); [eauto|].
  destruct del; [done|eauto].
Qed.

Lemma fields_to_delete_elem_of (config : feature_config) (shapefile : table) (x : string) :
  x ∈ (fields_to_delete config shapefile).1 → x ∈ deletion_set config shapefile.
Proof.
  unfold fields_to_delete. destruct (remaining_data_fields config shapefile); [|done].
  destruct (rescue _); [|done]. simpl. apply list_remove_elem_of.
Qed.

Lemma deletion_set_spec (config : feature_config) (shapefile : table) (x : string) :
  x ∈ deletion_set config shapefile ↔
  x ∈ data_fields shapefile ∧ x ∉ fields_to_keep config shapefile.
Proof. unfold deletion_set. rewrite list_elem_of_filter. tauto. Qed.

Lemma DeleteField_fields (t : table) (names : list string) :
  t_fields (DeleteField t names) = filter (λ f, f_name f ∉ names) (t_fields t).
Proof. reflexivity. Qed.

(** Whatever the store answers, the fields left are those of the input
    minus some of the requested ones. *)
Lemma delete_with_fallback_fields (o : delete_oracle) (t : table) (names : list string) :
  ∃ deleted : list string, (∀ x, x ∈ deleted → x ∈ names) ∧
    t_fields (delete_with_fallback o t names).1 =
      filter (λ f, f_name f ∉ deleted) (t_fields t) ∧
    (batch_ok o t names = true → deleted = names).
Proof.
  unfold delete_with_fallback. destruct names as [|n0 names0] eqn:En.
  { exists []. split; [done|]. split; [|done]. simpl.
    induction (t_fields t) as [|f l IH]; [done|].
    rewrite filter_cons_True by apply not_elem_of_nil. by rewrite <- IH. }
  rewrite <- En. clear En n0 names0.
  destruct (batch_ok o t names) eqn:Hb; cbn [fst].
  { exists names. by rewrite DeleteField_fields. }
  assert (∃ deleted : list string, (∀ x, x ∈ deleted → x ∈ names) ∧
    t_fields (foldl (λ t n, if single_ok o t n then DeleteField t [n] else t) t names) =
      filter (λ f, f_name f ∉ deleted) (t_fields t)) as (deleted & H1 & H2).
  { clear Hb. revert t. induction names as [|n names IH]; intros t; simpl.
    - exists []. split; [done|]. induction (t_fields t) as [|f l IHl]; [done|].
      rewrite filter_cons_True by apply not_elem_of_nil. by rewrite <- IHl.
    - destruct (single_ok o t n).
      + destruct (IH (DeleteField t [n])) as (deleted & Hsub & Hf).
        exists (n :: deleted). split.
        * intros x. rewrite !elem_of_cons. intros [->|?]; [by left|right; auto].
        * rewrite Hf, DeleteField_fields, list_filter_filter.
          apply list_filter_iff. intros f. rewrite !elem_of_cons, elem_of_nil. tauto.
      + destruct (IH t) as (deleted & Hsub & Hf). exists deleted. split; [|done].
        intros x Hx. apply elem_of_cons. right. auto. }
  exists deleted. split; [done|]. split; [done|discriminate].
Qed.

Lemma delete_with_fallback_keeps (o : delete_oracle) (t : table) (names : list string)
    (f : field) :
  f ∈ t_fields t → f_name f ∉ names → f ∈ t_fields (delete_with_fallback o t names).1.
Proof.
  intros Hf Hn. destruct (delete_with_fallback_fields o t names) as (deleted & Hsub & -> & _).
  apply list_elem_of_filter. split; [|done]. intros Hd. apply Hn. auto.
Qed.

Lemma data_fields_elem_of (t : table) (x : string) :
  x ∈ data_fields t ↔ ∃ f, f ∈ t_fields t ∧ f_name f = x ∧ f_type f ∉ [TOID; TGeometry].
Proof.
  unfold data_fields. rewrite list_elem_of_fmap. split.
  - intros (f & -> & Hf). apply list_elem_of_filter in Hf as [? ?]. eauto.
  - intros (f & Hf & <- & Hty). exists f. split; [done|]. by apply list_elem_of_filter.
Qed.

Lemma data_fields_survive (o : delete_oracle) (t : table) (names : list string) (x : string) :
  x ∈ data_fields t → x ∉ names → x ∈ data_fields (delete_with_fallback o t names).1.
Proof.
  rewrite !data_fields_elem_of. intros (f & Hf & <- & Hty) Hn.
  exists f. split; [by apply delete_with_fallback_keeps|done].
Qed.

Lemma data_fields_sub_names (t : table) (x : string) : x ∈ data_fields t → x ∈ field_names t.
Proof.
  rewrite data_fields_elem_of. intros (f & Hf & <- & _).
  unfold field_names. by apply list_elem_of_fmap_2.
Qed.

Lemma data_fields_NoDup (t : table) : NoDup (field_names t) → NoDup (data_fields t).
Proof.
  unfold field_names, data_fields. generalize (t_fields t) as l.
  induction l as [|f l IH]; simpl; [constructor|].
  rewrite NoDup_cons. intros [Hf Hl]. rewrite filter_cons. case_decide; [|auto].
  rewrite fmap_cons. apply NoDup_cons. split; [|auto].
  intros (g & Hg & Hin)%list_elem_of_fmap. apply list_elem_of_filter in Hin as [_ Hin].
  apply Hf. rewrite Hg. by apply list_elem_of_fmap_2.
Qed.

Lemma foglio_is_kept (config : feature_config) (shapefile : table) :
  "Foglio" ∈ field_names shapefile → "Foglio" ∈ fields_to_keep config shapefile.
Proof.
  intros H. unfold fields_to_keep. rewrite bool_decide_eq_true_2 by done.
  apply elem_of_union. right. by apply elem_of_singleton.
Qed.

(** C8: a field named Foglio is in the keep set before the deletion set is
    computed, whatever the theme's allowlist; it is in neither the first nor
    the final deletion list, and it is still a field of the file after the
    cleanup, whatever the store answers to the deletions. *)
Theorem cleanup_preserves_foglio (o : delete_oracle) (shapefile : table)
    (config : feature_config) :
  "Foglio" ∈ field_names shapefile →
  "Foglio" ∈ fields_to_keep config shapefile ∧
  ("Foglio" ∉ deletion_set config shapefile) ∧
  ("Foglio" ∉ (fields_to_delete config shapefile).1) ∧
  "Foglio" ∈ field_names (_cleanup_output_fields o shapefile config).1.1.
Proof.
  intros Hf. pose proof (foglio_is_kept config shapefile Hf) as Hk.
  assert ("Foglio" ∉ deletion_set config shapefile) as Hd.
  { rewrite deletion_set_spec. tauto. }
  assert ("Foglio" ∉ (fields_to_delete config shapefile).1) as Hd'.
  { intros H. by apply Hd, fields_to_delete_elem_of. }
  repeat split; try done.
  unfold _cleanup_output_fields.
  destruct (fields_to_delete config shapefile) as [del rescued] eqn:E. simpl in Hd'.
  destruct (delete_with_fallback o shapefile del) as [t msgs] eqn:Et.
  assert ("Foglio" ∈ field_names t) as Ht.
  { unfold field_names in Hf. apply list_elem_of_fmap in Hf as (f & Hn & Hin).
    pose proof (delete_with_fallback_keeps o shapefile del f Hin) as Hkeep.
    rewrite Et in Hkeep. simpl in Hkeep. unfold field_names. rewrite Hn.
    apply list_elem_of_fmap_2. apply Hkeep. by rewrite <- Hn. }
  by destruct (data_fields t).
Qed.

Lemma cleanup_preserves_foglio_witness :
  "Foglio" ∈ fields_to_keep unkept_config scenario_D_file ∧
  ("Foglio" ∉ deletion_set unkept_config scenario_D_file) ∧
  ("Foglio" ∉ (fields_to_delete unkept_config scenario_D_file).1) ∧
  "Foglio" ∈ field_names (_cleanup_output_fields all_deletable scenario_D_file unkept_config).1.1.
Proof.
  apply (cleanup_preserves_foglio all_deletable scenario_D_file unkept_config).
  apply (bool_decide_eq_true_1 ("Foglio" ∈ field_names scenario_D_file)). reflexivity.
Defined.

Lemma cleanup_table (o : delete_oracle) (shapefile : table) (config : feature_config) :
  (_cleanup_output_fields o shapefile config).1.1 =
    (delete_with_fallback o shapefile (fields_to_delete config shapefile).1).1.
Proof.
  unfold _cleanup_output_fields.
  destruct (fields_to_delete config shapefile) as [del rescued]. cbn [fst].
  destruct (delete_with_fallback o shapefile del) as [t msgs].
  by destruct (data_fields t).
Qed.

Lemma cleanup_exn (o : delete_oracle) (shapefile : table) (config : feature_config) :
  (_cleanup_output_fields o shapefile config).2 =
    match data_fields (_cleanup_output_fields o shapefile config).1.1 with
    | [] => Some (RuntimeError "Shapefile cleanup resulted in no data fields")
    | _ => None
    end.
Proof.
  unfold _cleanup_output_fields.
  destruct (fields_to_delete config shapefile) as [del rescued].
  destruct (delete_with_fallback o shapefile del) as [t msgs].
  by destruct (data_fields t) eqn:E; simpl; rewrite E.
Qed.

Lemma rescue_nil : rescue [] = None.
Proof. reflexivity. Qed.

Lemma deletion_set_NoDup (config : feature_config) (shapefile : table) :
  NoDup (field_names shapefile) → NoDup (deletion_set config shapefile).
Proof. intros H. apply NoDup_filter. by apply data_fields_NoDup. Qed.

(** An attribute field of the input outlives the cleanup, whatever the store
    answers, when the field names are distinct. *)
Lemma cleanup_survivor (shapefile : table) (config : feature_config) :
  NoDup (field_names shapefile) → data_fields shapefile ≠ [] →
  ∃ x, x ∈ data_fields shapefile ∧ x ∉ (fields_to_delete config shapefile).1.
Proof.
  intros Hnd Hne. unfold fields_to_delete.
  destruct (remaining_data_fields config shapefile) as [|f rem] eqn:Hrem.
  - destruct (deletion_set config shapefile) as [|d del] eqn:Hdel.
    + rewrite rescue_nil. simpl. destruct (data_fields shapefile) as [|x l]; [done|].
      exists x. split; [apply elem_of_cons; by left|apply not_elem_of_nil].
    + destruct (rescue_is_Some (d :: del)) as [r Hr]; [done|]. rewrite Hr. cbn [fst].
      exists r. split.
      * apply rescue_elem_of in Hr. rewrite <- Hdel in Hr.
        by apply deletion_set_spec in Hr as [? _].
      * apply list_remove_NoDup. rewrite <- Hdel. by apply deletion_set_NoDup.
  - simpl. exists f.
    assert (f ∈ remaining_data_fields config shapefile) as Hf
      by (rewrite Hrem; apply elem_of_cons; by left).
    unfold remaining_data_fields in Hf. apply list_elem_of_filter in Hf as [[? _] ?]. done.
Qed.

(** The error of the cleanup stays within the theme: the method returns
    [False], nothing is written to the output directory, and the run goes
    on. *)
Lemma cleanup_error_theme_scoped (o : delete_oracle) (self : processor)
    (prepared shapefile : table) (config : feature_config) :
  _add_foglio_field self prepared = Ok shapefile →
  (_cleanup_output_fields o shapefile config).2 ≠ None →
  (process_feature_class_optimized o self (Ok prepared) config).1 = false ∧
  store (process_feature_class_optimized o self (Ok prepared) config).2 = store self.
Proof.
  intros Hf Herr. unfold process_feature_class_optimized. rewrite Hf.
  by destruct (_cleanup_output_fields o shapefile config) as [[t msgs] [e|]].
Qed.

(** C2: [_cleanup_output_fields] raises exactly when no attribute field is
    left after the deletions, so a file it returns normally has at least
    one.  When every attribute field would go (no remaining data field) and
    the deletion list is not empty, exactly one field is taken back out of
    it: the first priority field found in it, else its first field.  On a
    file with distinct field names and at least one attribute field the
    rescue is enough: the error is not raised, whatever the store answers
    to the deletions.  When the error is raised, the theme's method returns
    [False] and leaves the output directory as it was. *)
Theorem cleanup_never_empties (o : delete_oracle) (shapefile : table)
    (config : feature_config) :
  let out := _cleanup_output_fields o shapefile config in
  let del := deletion_set config shapefile in
  (out.2 = None ↔ data_fields out.1.1 ≠ []) ∧
  (out.2 = None ∨ out.2 = Some (RuntimeError "Shapefile cleanup resulted in no data fields")) ∧
  (remaining_data_fields config shapefile = [] → del ≠ [] →
     ∃ r, fields_to_delete config shapefile = (list_remove r del, Some r) ∧
          r ∈ del ∧
          S (length (fields_to_delete config shapefile).1) = length del ∧
          (∀ p, List.find (λ p, bool_decide (p ∈ del)) priority_fields = Some p → r = p) ∧
          (List.find (λ p, bool_decide (p ∈ del)) priority_fields = None → head del = Some r)) ∧
  (remaining_data_fields config shapefile ≠ [] →
     fields_to_delete config shapefile = (del, None)) ∧
  (NoDup (field_names shapefile) → data_fields shapefile ≠ [] →
     out.2 = None ∧ data_fields out.1.1 ≠ []) ∧
  (∀ self prepared, _add_foglio_field self prepared = Ok shapefile → out.2 ≠ None →
     (process_feature_class_optimized o self (Ok prepared) config).1 = false ∧
     store (process_feature_class_optimized o self (Ok prepared) config).2 = store self).
Proof.
  intros out del. subst out del.
  assert (∀ l : list string,
            match l with [] => Some (RuntimeError "Shapefile cleanup resulted in no data fields")
                       | _ => @None exn end = None ↔ l ≠ []) as Hcase
    by (intros [|? ?]; split; done).
  split; [|split; [|split; [|split; [|split]]]];
    [| | | | |intros self prepared; apply cleanup_error_theme_scoped].
  - rewrite cleanup_exn at 1. apply Hcase.
  - rewrite cleanup_exn. destruct (data_fields _); auto.
  - intros Hrem Hdel. destruct (rescue_is_Some _ Hdel) as [r Hr].
    exists r. unfold fields_to_delete. rewrite Hrem, Hr. cbn [fst].
    pose proof (rescue_elem_of _ _ Hr) as Hin.
    split; [done|]. split; [done|]. split; [by apply list_remove_length|].
    unfold rescue in Hr. split.
    + intros p Hp. rewrite Hp in Hr. congruence.
    + intros Hn. by rewrite Hn in Hr.
  - intros Hrem. unfold fields_to_delete.
    by destruct (remaining_data_fields config shapefile).
  - intros Hnd Hne.
    destruct (cleanup_survivor shapefile config Hnd Hne) as (x & Hx & Hdel).
    assert (data_fields (_cleanup_output_fields o shapefile config).1.1 ≠ []) as Hout.
    { rewrite cleanup_table. intros E.
      pose proof (data_fields_survive o shapefile _ x Hx Hdel) as Hs.
      rewrite E in Hs. by apply elem_of_nil in Hs. }
    split; [|done]. rewrite cleanup_exn. by apply Hcase.
Qed.

Lemma cleanup_never_empties_witness :
  ∃ r, fields_to_delete unkept_config unkept_file =
         (list_remove r (deletion_set unkept_config unkept_file), Some r) ∧
       r = "Tipologia" ∧
       (_cleanup_output_fields all_deletable unkept_file unkept_config).2 = None ∧
       data_fields (_cleanup_output_fields all_deletable unkept_file unkept_config).1.1 =
         ["Tipologia"].
Proof.
  destruct (cleanup_never_empties all_deletable unkept_file unkept_config)
    as (_ & _ & Hrescue & _ & Hkeep & _).
  destruct Hrescue as (r & Hr & _ & _ & Hprio & _); [reflexivity|discriminate|].
  exists r. split; [exact Hr|]. split; [apply Hprio; reflexivity|].
  split; [|reflexivity].
  apply Hkeep; [|discriminate].
  apply (bool_decide_eq_true_1 (NoDup (field_names unkept_file))). reflexivity.
Defined.

(** ** Scenario D *)

Lemma data_fields_DeleteField (t : table) (names : list string) :
  data_fields (DeleteField t names) = filter (λ n, n ∉ names) (data_fields t).
Proof.
  unfold data_fields. rewrite DeleteField_fields.
  induction (t_fields t) as [|f l IH]; [done|].
  rewrite (filter_cons (λ f, f_name f ∉ names)), (filter_cons (λ f, f_type f ∉ [TOID; TGeometry])).
  destruct (decide (f_name f ∉ names)) as [Hn|Hn], (decide (f_type f ∉ [TOID; TGeometry])) as [Hty|Hty].
  - rewrite filter_cons_True by done. rewrite !fmap_cons, filter_cons_True by done.
    by rewrite IH.
  - rewrite filter_cons_False by done. done.
  - rewrite fmap_cons, filter_cons_False by done. done.
  - done.
Qed.

(** Scenario D on the code: the only non-kept field, TempX, is deleted and
    Foglio alone is left; the rescue does not fire, so no field of the
    deletion set is retained. *)
Lemma scenario_D_counterexample :
  ¬ scenario_D_claim ∧
  fields_to_delete scenario_D_config scenario_D_file = (["TempX"], None) ∧
  field_names (_cleanup_output_fields all_deletable scenario_D_file scenario_D_config).1.1 =
    ["FID"; "Shape"; "Foglio"].
Proof.
  split; [|split; reflexivity].
  intros (_ & r & Hr & _). discriminate Hr.
Qed.

(** C4, amended: with the keep-list [["Foglio"]] on a file whose attribute
    fields are Foglio and TempX, the deletion list is TempX alone and the
    rescue does not fire, because Foglio is a remaining attribute field;
    once the store has deleted TempX, Foglio is the one attribute field left
    and no error is raised. *)
Theorem cleanup_scenario_D (shapefile : table) (config : feature_config) :
  keep_fields config = ["Foglio"] →
  data_fields shapefile = ["Foglio"; "TempX"] ∨ data_fields shapefile = ["TempX"; "Foglio"] →
  remaining_data_fields config shapefile = ["Foglio"] ∧
  fields_to_delete config shapefile = (["TempX"], None) ∧
  data_fields (_cleanup_output_fields all_deletable shapefile config).1.1 = ["Foglio"] ∧
  (_cleanup_output_fields all_deletable shapefile config).2 = None.
Proof.
  intros Hkeep Hdata.
  assert ("Foglio" ∈ field_names shapefile) as Hf.
  { apply data_fields_sub_names. destruct Hdata as [-> | ->]; rewrite !elem_of_cons; tauto. }
  assert (fields_to_keep config shapefile = {[ "Foglio" ]} ∪ system_fields ∪ {[ "Foglio" ]}) as Hk.
  { unfold fields_to_keep. rewrite Hkeep, bool_decide_eq_true_2 by done. simpl.
    by rewrite union_empty_r_L. }
  assert ("Foglio" ∈ ({[ "Foglio" ]} ∪ system_fields ∪ {[ "Foglio" ]} : gset string)) as Hin
    by (apply (bool_decide_eq_true_1 _); reflexivity).
  assert ("TempX" ∉ ({[ "Foglio" ]} ∪ system_fields ∪ {[ "Foglio" ]} : gset string)) as Hout
    by (apply (bool_decide_eq_true_1 _); reflexivity).
  assert ("Foglio" ∉ system_fields) as Hsys by (apply (bool_decide_eq_true_1 _); reflexivity).
  assert (deletion_set config shapefile = ["TempX"]) as Hdel.
  { unfold deletion_set. rewrite Hk.
    destruct Hdata as [-> | ->].
    - rewrite filter_cons_False by (intros H; by apply H).
      by rewrite filter_cons_True by done.
    - rewrite filter_cons_True by done.
      by rewrite filter_cons_False by (intros H; by apply H). }
  assert (remaining_data_fields config shapefile = ["Foglio"]) as Hrem.
  { unfold remaining_data_fields. rewrite Hdel.
    assert ("TempX" ∈ ["TempX"]) as H1 by (apply elem_of_cons; by left).
    assert ("Foglio" ∉ ["TempX"]) as H2 by (apply (bool_decide_eq_true_1 _); reflexivity).
    destruct Hdata as [-> | ->].
    - rewrite filter_cons_True by done.
      by rewrite filter_cons_False by (intros [H _]; by apply H).
    - rewrite filter_cons_False by (intros [H _]; by apply H).
      by rewrite filter_cons_True by done. }
  assert (fields_to_delete config shapefile = (["TempX"], None)) as Hftd.
  { unfold fields_to_delete. by rewrite Hrem, Hdel. }
  assert (data_fields (_cleanup_output_fields all_deletable shapefile config).1.1 = ["Foglio"])
    as Hfinal.
  { rewrite cleanup_table, Hftd. cbn [fst delete_with_fallback all_deletable batch_ok].
    rewrite data_fields_DeleteField.
    assert ("TempX" ∈ ["TempX"]) as H1 by (apply elem_of_cons; by left).
    assert ("Foglio" ∉ ["TempX"]) as H2 by (apply (bool_decide_eq_true_1 _); reflexivity).
    destruct Hdata as [-> | ->].
    - rewrite filter_cons_True by done.
      by rewrite filter_cons_False by (intros H; by apply H).
    - rewrite filter_cons_False by (intros H; by apply H).
      by rewrite filter_cons_True by done. }
  repeat split; try done. by rewrite cleanup_exn, Hfinal.
Qed.

Lemma cleanup_scenario_D_witness :
  remaining_data_fields scenario_D_config scenario_D_file = ["Foglio"] ∧
  fields_to_delete scenario_D_config scenario_D_file = (["TempX"], None) ∧
  data_fields (_cleanup_output_fields all_deletable scenario_D_file scenario_D_config).1.1 =
    ["Foglio"] ∧
  (_cleanup_output_fields all_deletable scenario_D_file scenario_D_config).2 = None.
Proof.
  apply (cleanup_scenario_D scenario_D_file scenario_D_config); [reflexivity|].
  left. reflexivity.
Defined.

(** ** Standardization keeps the features *)

Lemma string_length_app (a b : string) :
  String.length (a +:+ b) = (String.length a + String.length b)%nat.
Proof. induction a as [|c a IH]; simpl; [done|]. by rewrite IH. Qed.

Lemma temp_path_ne (p : string * string) : temp_path p ≠ p.
Proof.
  destruct p as [d n]. unfold temp_path, path_join, dirname, basename. simpl.
  intros [= H]. apply (f_equal String.length) in H.
  rewrite string_length_app in H. simpl in H. lia.
Qed.

Lemma standardize_target_rows (mappings : list (string * string))
    (st : table * list (string * string)) (target : string) :
  t_rows (standardize_target mappings st target).1 = t_rows st.1.
Proof.
  unfold standardize_target. destruct st as [t fm]. case_bool_decide; [done|].
  destruct (List.find _ mappings); [done|]. case_bool_decide; [done|].
  destruct (_get_field_type_from_name target) as [ty len].
  case_bool_decide; simpl; apply AddField_rows.
Qed.

Lemma standardize_fold_rows (mappings : list (string * string)) (order : list string)
    (st : table * list (string * string)) :
  t_rows (foldl (standardize_target mappings) st order).1 = t_rows st.1.
Proof.
  revert st. induction order as [|x order IH]; intros st; simpl; [done|].
  by rewrite IH, standardize_target_rows.
Qed.

Lemma convert_count (t : table) (fm : list (string * string)) :
  GetCount (convert_with_field_mapping t fm) = GetCount t.
Proof. unfold GetCount, convert_with_field_mapping. simpl. apply length_fmap. Qed.

(** The standardization replaces the file by one with the same number of
    features and leaves every other file but its temporary output alone. *)
Lemma standardize_store (self : processor) (p : string * string) (t : table) :
  store self !! p = Some t →
  (∃ t', store (standardize_field_names_and_order self p) !! p = Some t' ∧
         GetCount t' = GetCount t) ∧
  ∀ q, q ≠ p → q ≠ temp_path p →
    store (standardize_field_names_and_order self p) !! q = store self !! q.
Proof.
  intros Hp. unfold standardize_field_names_and_order.
  destruct (List.find _ _get_field_standards) as [[name config]|]; [|by eauto].
  rewrite Hp. fold (temp_path p).
  pose proof (standardize_fold_rows (field_mappings config)
                (filter (λ n, n ≠ "OBJECTID") (field_order config)) (t, [])) as Hrows.
  destruct (foldl _ (t, []) _) as [t1 fm1]. simpl in Hrows.
  pose proof (temp_path_ne p) as Hne.
  destruct (fm1 ++ remaining_field_maps t1 fm1) as [|m fm] eqn:Hfm.
  - simpl. split.
    + exists t1. rewrite lookup_insert_eq. split; [done|]. unfold GetCount. by rewrite Hrows.
    + intros q Hq Hq'. by rewrite lookup_insert_ne, lookup_delete_ne.
  - rewrite lookup_delete_ne, lookup_insert_eq by done. simpl. split.
    + eexists. rewrite lookup_insert_eq. split; [done|].
      rewrite convert_count. unfold GetCount. by rewrite Hrows.
    + intros q Hq Hq'.
      rewrite lookup_insert_ne, lookup_delete_ne, lookup_delete_ne, lookup_insert_ne,
        lookup_insert_ne, lookup_delete_ne by done. done.
Qed.

(** ** The merge *)

Lemma source_ne_dest (self : processor) : source_file self ≠ dest_file self.
Proof. intros [=]. Qed.

Lemma source_ne_temp (self : processor) : source_file self ≠ temp_path (dest_file self).
Proof. intros [=]. Qed.

(** C3: when the count check after the append succeeds, the destination
    holds its former features plus those of the source at the end of
    [combine_geology_lines_optimized] (the final standardization keeps every
    feature), and the source file is gone from the store. *)
Theorem combine_count_verified (accept : gmap string value → bool) (self : processor)
    (dest source : table) :
  store self !! dest_file self = Some dest →
  store self !! source_file self = Some source →
  append_verified (GetCount dest) (GetCount source)
    (GetCount (Append_management accept source dest)) = true →
  GetCount (Append_management accept source dest) = (GetCount dest + GetCount source)%nat ∧
  store (combine_geology_lines_optimized accept self) !! source_file self = None ∧
  ∃ dest', store (combine_geology_lines_optimized accept self) !! dest_file self = Some dest' ∧
           GetCount dest' = (GetCount dest + GetCount source)%nat.
Proof.
  intros Hd Hs Hok.
  assert (GetCount (Append_management accept source dest) =
          (GetCount dest + GetCount source)%nat) as Hcount
    by (by apply bool_decide_eq_true_1 in Hok).
  split; [exact Hcount|].
  unfold combine_geology_lines_optimized.
  change (path_join (workspace_output (add_log self _)) "geologia_linee.shp")
    with (dest_file self).
  change (path_join (workspace_output (add_log self _)) "geologia_linee_pieghe.shp")
    with (source_file self).
  rewrite store_add_log, Hd, Hs, Hok. rewrite store_add_log.
  set (self1 := add_log (set_store _ _) _).
  assert (store self1 !! dest_file self = Some (Append_management accept source dest)) as Hd1.
  { subst self1. simpl. rewrite lookup_delete_ne by apply source_ne_dest.
    by rewrite lookup_insert_eq. }
  assert (store self1 !! source_file self = None) as Hs1.
  { subst self1. simpl. by rewrite lookup_delete_eq. }
  destruct (standardize_store self1 (dest_file self) _ Hd1) as [(dest' & Hd' & Hc') Hother].
  split.
  - rewrite Hother; [done|apply source_ne_dest|apply source_ne_temp].
  - exists dest'. split; [done|]. by rewrite Hc'.
Qed.

Lemma combine_count_verified_witness :
  GetCount (Append_management (λ _, true)
              (Table lines_fields (replicate 25 {[ "Foglio" := VStr "348"; "Fase_txt" := VStr "F1" ]}))
              (Table lines_fields (replicate 100 {[ "Foglio" := VStr "348" ]}))) = 125%nat ∧
  store (combine_geology_lines_optimized (λ _, true) scenario_E) !! source_file scenario_E = None ∧
  ∃ dest', store (combine_geology_lines_optimized (λ _, true) scenario_E) !! dest_file scenario_E
             = Some dest' ∧ GetCount dest' = 125%nat.
Proof.
  apply (combine_count_verified (λ _, true) scenario_E
           (Table lines_fields (replicate 100 {[ "Foglio" := VStr "348" ]}))
           (Table lines_fields (replicate 25 {[ "Foglio" := VStr "348"; "Fase_txt" := VStr "F1" ]})));
    vm_compute; reflexivity.
Defined.

(** When the check fails the source file is kept. *)
Lemma combine_count_mismatch (accept : gmap string value → bool) (self : processor)
    (dest source : table) :
  store self !! dest_file self = Some dest →
  store self !! source_file self = Some source →
  append_verified (GetCount dest) (GetCount source)
    (GetCount (Append_management accept source dest)) = false →
  store (combine_geology_lines_optimized accept self) !! source_file self = Some source.
Proof.
  intros Hd Hs Hok. unfold combine_geology_lines_optimized.
  change (path_join (workspace_output (add_log self _)) "geologia_linee.shp")
    with (dest_file self).
  change (path_join (workspace_output (add_log self _)) "geologia_linee_pieghe.shp")
    with (source_file self).
  rewrite store_add_log, Hd, Hs, Hok. rewrite store_add_log.
  set (self1 := add_log (set_store _ _) _).
  assert (store self1 !! dest_file self = Some (Append_management accept source dest)) as Hd1.
  { subst self1. simpl. by rewrite lookup_insert_eq. }
  destruct (standardize_store self1 (dest_file self) _ Hd1) as [_ Hother].
  rewrite Hother; [|apply source_ne_dest|apply source_ne_temp].
  subst self1. simpl. rewrite lookup_insert_ne; [done|]. intros H. by apply (source_ne_dest self).
Qed.

(** The open-library pipeline concatenates and removes without a check. *)
Lemma append_folds_count (output_dir : string) (st : gmap (string * string) table)
    (gP gL : table) :
  st !! path_join output_dir "geologia_linee_pieghe.shp" = Some gP →
  st !! path_join output_dir "geologia_linee.shp" = Some gL →
  OpenLibs.append_folds output_dir st !! path_join output_dir "geologia_linee_pieghe.shp" = None ∧
  ∃ gM, OpenLibs.append_folds output_dir st !! path_join output_dir "geologia_linee.shp" = Some gM ∧
        GetCount gM = (GetCount gL + GetCount gP)%nat.
Proof.
  intros HP HL. unfold OpenLibs.append_folds. rewrite HP, HL. split.
  - apply lookup_delete_eq.
  - eexists. rewrite lookup_delete_ne by (intros [=]). rewrite lookup_insert_eq.
    split; [done|]. unfold GetCount. simpl. apply length_app.
Qed.

(** ** The domain cache *)

Lemma read_domain_table_cache (self : processor) (file code pat : string) (gpkg : bool) :
  _domain_cache (read_domain_table self file code pat gpkg).2 = _domain_cache self ∧
  store (read_domain_table self file code pat gpkg).2 = store self.
Proof.
  unfold read_domain_table. rewrite store_add_trace.
  destruct (store self !! _) as [t|]; [|done].
  destruct (List.find _ (field_names t)) as [desc_field|]; [|done].
  case_bool_decide; [done|]. destruct (negb _); [done|].
  by destruct (build_code_map _ _).
Qed.

(** Every call reads: the trace grows by at least the existence test. *)
Lemma read_domain_table_trace (self : processor) (file code pat : string) (gpkg : bool) :
  ∃ es, trace (read_domain_table self file code pat gpkg).2 =
          trace self ++
          EvExists (if gpkg then path_join (input_gpkg self) file
                    else path_join (domini_path self) file) :: es.
Proof.
  unfold read_domain_table. simpl.
  destruct (store self !! _) as [t|]; [|by exists []].
  destruct (List.find _ (field_names t)) as [desc_field|]; simpl.
  2:{ eexists. by rewrite <- app_assoc. }
  case_bool_decide; simpl. { eexists. by rewrite <- app_assoc. }
  destruct (negb _); simpl. { eexists. by rewrite <- app_assoc. }
  destruct (build_code_map _ _). simpl. eexists. by rewrite <- !app_assoc.
Qed.

(** BDgpkg2shape.py: [load_domain_mappings] neither reads nor writes
    [_domain_cache]; every call goes to the store. *)
Lemma load_domain_mappings_no_cache (self : processor) (file code pat : string) (gpkg : bool) :
  _domain_cache (load_domain_mappings self file code pat gpkg).2 = _domain_cache self ∧
  (∀ c, (load_domain_mappings (set_cache self c) file code pat gpkg).1 =
        (load_domain_mappings self file code pat gpkg).1) ∧
  ∃ es, trace (load_domain_mappings self file code pat gpkg).2 =
          trace self ++
          EvExists (if gpkg then path_join (input_gpkg self) file
                    else path_join (domini_path self) file) :: es.
Proof.
  unfold load_domain_mappings.
  pose proof (read_domain_table_cache self file code pat gpkg) as [Hc _].
  pose proof (read_domain_table_trace self file code pat gpkg) as Ht.
  split; [|split].
  - by destruct (read_domain_table self file code pat gpkg) as [[m|] s].
  - intros c. unfold read_domain_table. simpl.
    destruct (store self !! _) as [t|]; [|done].
    destruct (List.find _ (field_names t)) as [desc_field|]; [|done].
    case_bool_decide; [done|]. destruct (negb _); [done|].
    by destruct (build_code_map _ _).
  - by destruct (read_domain_table self file code pat gpkg) as [[m|] s].
Qed.

(** C6 on BDgpkg2shape.py: loading d_stato.dbf twice with the same
    arguments reads the table twice (existence test, field list and cursor
    each time) and leaves [_domain_cache] empty; the second call returns the
    same map, built again from the file. *)
Theorem load_domain_mappings_reloads :
  let first := load_domain_mappings domini_processor "d_stato.dbf" "CODE" "DESC" false in
  let second := load_domain_mappings first.2 "d_stato.dbf" "CODE" "DESC" false in
  second.1 = first.1 ∧
  trace first.2 = stato_reads ∧
  trace second.2 = stato_reads ++ stato_reads ∧
  _domain_cache second.2 = ∅.
Proof. intros first second. split; [|split; [|split]]; vm_compute; reflexivity. Qed.

(** script/BDgpkg2shapePRO.py: a cached entry is returned without touching
    the store, the trace or the log. *)
Lemma PRO_load_cached (self : processor) (file code pat : string) (gpkg : bool)
    (cached : gmap key string) :
  _domain_cache self !! (file, code, pat, gpkg) = Some cached →
  PRO.load_domain_mappings self file code pat gpkg = (cached, self).
Proof. intros H. unfold PRO.load_domain_mappings. by rewrite H. Qed.

(** A load that reaches the cursor stores its map, empty or not, and the
    next call with the same arguments returns it with no read. *)
Lemma PRO_load_then_cached (self self' : processor) (file code pat : string) (gpkg : bool)
    (code_map : gmap key string) :
  _domain_cache self !! (file, code, pat, gpkg) = None →
  read_domain_table self file code pat gpkg = (Some code_map, self') →
  (PRO.load_domain_mappings self file code pat gpkg).1 = code_map ∧
  PRO.load_domain_mappings (PRO.load_domain_mappings self file code pat gpkg).2
      file code pat gpkg =
    (code_map, (PRO.load_domain_mappings self file code pat gpkg).2).
Proof.
  intros Hc Hr. unfold PRO.load_domain_mappings at 1 3 4. rewrite Hc, Hr. simpl.
  split; [done|]. apply PRO_load_cached. simpl. apply lookup_insert_eq.
Qed.

(** Entries are never evicted. *)
Lemma PRO_cache_monotone (self : processor) (file code pat : string) (gpkg : bool)
    (k : string * string * string * bool) (cached : gmap key string) :
  _domain_cache self !! k = Some cached →
  _domain_cache (PRO.load_domain_mappings self file code pat gpkg).2 !! k = Some cached.
Proof.
  intros Hk. unfold PRO.load_domain_mappings.
  destruct (_domain_cache self !! (file, code, pat, gpkg)) as [c|] eqn:Hc; [done|].
  pose proof (read_domain_table_cache self file code pat gpkg) as [Hcache _].
  destruct (read_domain_table self file code pat gpkg) as [[m|] s]; simpl in *.
  - rewrite lookup_insert_ne; [by rewrite Hcache|]. intros <-. congruence.
  - by rewrite Hcache.
Qed.

Example PRO_load_twice :
  let first := PRO.load_domain_mappings domini_processor "d_stato.dbf" "CODE" "DESC" false in
  let second := PRO.load_domain_mappings first.2 "d_stato.dbf" "CODE" "DESC" false in
  second.1 = first.1 ∧ trace second.2 = stato_reads.
Proof. intros first second. split; vm_compute; reflexivity. Qed.

(** ** Strings as character lists *)

Lemma chars_text (l : list ascii) : Py.chars (Py.text l) = l.
Proof. apply list_ascii_of_string_of_list_ascii. Qed.

Lemma text_chars (s : string) : Py.text (Py.chars s) = s.
Proof. apply string_of_list_ascii_of_string. Qed.

Lemma chars_app (a b : string) : Py.chars (a +:+ b) = Py.chars a ++ Py.chars b.
Proof.
  unfold Py.chars. induction a as [|c a IH]; [done|].
  change (String c a +:+ b) with (String c (a +:+ b)). simpl. by rewrite IH.
Qed.

Lemma chars_inj (a b : string) : Py.chars a = Py.chars b → a = b.
Proof. intros H. by rewrite <- (text_chars a), <- (text_chars b), H. Qed.

Lemma forallb_reverse (p : ascii → bool) (l : list ascii) :
  forallb p (reverse l) = forallb p l.
Proof.
  apply eq_true_iff_eq. rewrite !forallb_forall. split; intros H x Hx.
  - apply H, list_elem_of_In, elem_of_reverse, list_elem_of_In, Hx.
  - apply H, list_elem_of_In, elem_of_reverse, list_elem_of_In, Hx.
Qed.

(** ** Sheet-id injection *)

Lemma eval_expression_quoted (v : string) :
  forallb plain_char (Py.chars v) = true → eval_expression (quoted v) = Ok (VStr v).
Proof.
  intros Hplain. unfold eval_expression, quoted.
  change ("'" +:+ v +:+ "'") with (String "'"%char (v +:+ "'")).
  change (Py.chars (String "'"%char (v +:+ "'"))) with ("'"%char :: Py.chars (v +:+ "'")).
  rewrite chars_app. change (Py.chars "'") with ["'"%char]. rewrite reverse_snoc.
  by rewrite forallb_reverse, Hplain, reverse_involutive, text_chars.
Qed.

Lemma CalculateField_quoted (t : table) (fld v : string) :
  forallb plain_char (Py.chars v) = true →
  (∃ m, m ∈ field_names t ∧ Py.upper m = Py.upper fld) →
  ∃ tgt, Py.upper tgt = Py.upper fld ∧
    CalculateField t fld (quoted v) = Ok (Table (t_fields t) ((λ r, <[tgt := VStr v]> r) <$> t_rows t)).
Proof.
  intros Hplain Hfld. destruct (cursor_field_found t fld Hfld) as (tgt & Htgt & _ & Hup).
  exists tgt. split; [done|]. unfold CalculateField.
  by rewrite Htgt, eval_expression_quoted.
Qed.

(** BDgpkg2shape.py writes the sheet value it read from the GeoPackage,
    unchanged, whatever the store holds. *)
Lemma add_foglio_field_raw (self : processor) (shapefile : table) :
  forallb plain_char (Py.chars (foglio self)) = true →
  ∃ tgt t, Py.upper tgt = "FOGLIO" ∧ _add_foglio_field self shapefile = Ok t ∧
    t_rows t = (λ r, <[tgt := VStr (foglio self)]> r) <$> t_rows shapefile.
Proof.
  intros Hplain. unfold _add_foglio_field.
  assert ((if bool_decide (is_Some (existing_fields_dict shapefile !! "FOGLIO")) then shapefile
           else AddField shapefile "Foglio" TString 50) = AddField shapefile "Foglio" TString 50)
    as ->.
  { unfold AddField. change (Py.upper "Foglio") with "FOGLIO". by case_bool_decide. }
  destruct (CalculateField_quoted (AddField shapefile "Foglio" TString 50) "Foglio"
              (foglio self) Hplain (AddField_has_field _ _ _ _)) as (tgt & Hup & ->).
  exists tgt. eexists. split; [exact Hup|]. split; [reflexivity|].
  simpl. by rewrite AddField_rows.
Qed.

Lemma read_domain_table_foglio (self : processor) (file code pat : string) (gpkg : bool) :
  foglio (read_domain_table self file code pat gpkg).2 = foglio self.
Proof.
  unfold read_domain_table. simpl.
  destruct (store self !! _) as [t|]; [|done].
  destruct (List.find _ (field_names t)) as [desc_field|]; [|done].
  case_bool_decide; [done|]. destruct (negb _); [done|].
  by destruct (build_code_map _ _).
Qed.

Lemma PRO_load_foglio (self : processor) (file code pat : string) (gpkg : bool) :
  foglio (PRO.load_domain_mappings self file code pat gpkg).2 = foglio self.
Proof.
  unfold PRO.load_domain_mappings. destruct (_domain_cache self !! _); [done|].
  pose proof (read_domain_table_foglio self file code pat gpkg) as H.
  by destruct (read_domain_table self file code pat gpkg) as [[m|] s].
Qed.

(** script/BDgpkg2shapePRO.py writes the description the sheet table gives
    for the sheet value, and the sheet value itself when the table does not
    map it. *)
Lemma PRO_add_foglio_field_mapped (self : processor) (shapefile : table) :
  let foglio_domain := (PRO.load_domain_mappings self "d_foglio.dbf" "N1" "N2" false).1 in
  let mapped_foglio := default (foglio self) (foglio_domain !! KStr (foglio self)) in
  forallb plain_char (Py.chars mapped_foglio) = true →
  ∃ tgt t, Py.upper tgt = "FOGLIO" ∧
    (PRO._add_foglio_field self shapefile).1 = Ok t ∧
    t_rows t = (λ r, <[tgt := VStr mapped_foglio]> r) <$> t_rows shapefile.
Proof.
  intros foglio_domain mapped_foglio Hplain. unfold PRO._add_foglio_field.
  assert ((if bool_decide (is_Some (existing_fields_dict shapefile !! "FOGLIO")) then shapefile
           else AddField shapefile "Foglio" TString 254) = AddField shapefile "Foglio" TString 254)
    as ->.
  { unfold AddField. change (Py.upper "Foglio") with "FOGLIO". by case_bool_decide. }
  pose proof (PRO_load_foglio self "d_foglio.dbf" "N1" "N2" false) as Hfog.
  subst mapped_foglio foglio_domain.
  destruct (PRO.load_domain_mappings self "d_foglio.dbf" "N1" "N2" false) as [dom self'].
  simpl in *. rewrite Hfog.
  assert (∃ tgt, Py.upper tgt = "FOGLIO" ∧
            CalculateField (AddField shapefile "Foglio" TString 254) "Foglio"
              (quoted (default (foglio self) (dom !! KStr (foglio self)))) =
            Ok (Table (t_fields (AddField shapefile "Foglio" TString 254))
                  ((λ r, <[tgt := VStr (default (foglio self) (dom !! KStr (foglio self)))]> r)
                     <$> t_rows shapefile))) as (tgt & Hup & Hcalc).
  { destruct (CalculateField_quoted (AddField shapefile "Foglio" TString 254) "Foglio"
                _ Hplain (AddField_has_field _ _ _ _)) as (tgt & Hup & Hc).
    exists tgt. split; [exact Hup|]. by rewrite Hc, AddField_rows. }
  exists tgt. case_bool_decide as Hempty.
  - subst dom. rewrite lookup_empty in Hcalc. simpl in Hcalc. rewrite lookup_empty. simpl.
    eexists. split; [done|]. split; [exact Hcalc|done].
  - eexists. split; [done|]. split; [exact Hcalc|done].
Qed.


(** ** Trimming *)


Lemma drop_while_head {A} (p : A → bool) (l : list A) (a : A) (r : list A) :
  Py.drop_while p l = a :: r → p a = false.
Proof.
  induction l as [|b l IH]; simpl; [done|].
  destruct (p b) eqn:E; [done|]. by intros [= <- _].
Qed.

Lemma drop_while_id {A} (p : A → bool) (l : list A) :
  match l with [] => True | a :: _ => p a = false end → Py.drop_while p l = l.
Proof. destruct l as [|a l]; simpl; [done|]. by intros ->. Qed.

Lemma drop_while_idemp {A} (p : A → bool) (l : list A) :
  Py.drop_while p (Py.drop_while p l) = Py.drop_while p l.
Proof.
  apply drop_while_id. destruct (Py.drop_while p l) as [|a r] eqn:E; [done|].
  by apply drop_while_head in E.
Qed.

Lemma take_drop_while {A} (p : A → bool) (l : list A) :
  Py.take_while p l ++ Py.drop_while p l = l.
Proof. induction l as [|a l IH]; simpl; [done|]. destruct (p a); simpl; by rewrite ?IH. Qed.

Lemma strip_chars_trimmed_id (l : list ascii) : trimmed l → Py.strip_chars l = l.
Proof.
  intros [H1 H2]. unfold Py.strip_chars, Py.lstrip_chars, Py.rstrip_chars.
  by rewrite H1, H2, reverse_involutive.
Qed.

Lemma strip_chars_trimmed (l : list ascii) : trimmed (Py.strip_chars l).
Proof.
  unfold Py.strip_chars, Py.lstrip_chars, Py.rstrip_chars.
  set (m := Py.drop_while Ascii.is_space l).
  set (x := Py.drop_while Ascii.is_space (reverse m)).
  split.
  - apply drop_while_id. destruct (reverse x) as [|a r] eqn:Ex; [done|].
    pose proof (take_drop_while Ascii.is_space (reverse m)) as Hsplit. fold x in Hsplit.
    apply (f_equal reverse) in Hsplit. rewrite reverse_app, reverse_involutive, Ex in Hsplit.
    simpl in Hsplit. subst m. symmetry in Hsplit. by apply drop_while_head in Hsplit.
  - rewrite reverse_involutive. subst x. apply drop_while_idemp.
Qed.

Lemma strip_chars_idemp (l : list ascii) :
  Py.strip_chars (Py.strip_chars l) = Py.strip_chars l.
Proof. apply strip_chars_trimmed_id, strip_chars_trimmed. Qed.

Lemma strip_idemp (s : string) : Py.strip (Py.strip s) = Py.strip s.
Proof. unfold Py.strip. by rewrite chars_text, strip_chars_idemp. Qed.




(** ** Number-like strings *)



Lemma numeric_char_not_n (a : ascii) : numeric_char a = true → Py.lower_char a ≠ "n"%char.
Proof. destruct a as [[] [] [] [] [] [] [] []]; by vm_compute. Qed.




(** ** The text of numbers *)

Lemma pretty_N_char_digit (y : N) : Py.is_digit (pretty_N_char y) = true.
Proof. unfold pretty_N_char. repeat case_match; reflexivity. Qed.

Lemma pretty_N_go_chars (x : N) (s : string) :
  ∃ ds, Py.chars (pretty_N_go x s) = ds ++ Py.chars s ∧
        Forall (λ a, Py.is_digit a = true) ds ∧ ((0 < x)%N → ds ≠ []).
Proof.
  revert s. induction (N.lt_wf_0 x) as [x _ IH]. intros s.
  destruct (decide (0 < x)%N) as [Hpos|Hz].
  - rewrite pretty_N_go_step by done.
    destruct (IH (x `div` 10)%N (N.div_lt x 10 Hpos eq_refl)
                (String (pretty_N_char (x `mod` 10)) s)) as (ds & Hds & Hall & _).
    exists (ds ++ [pretty_N_char (x `mod` 10)%N]). split; [|split].
    + rewrite Hds, <- app_assoc. reflexivity.
    + apply Forall_app. split; [done|]. apply Forall_cons. split; [|by apply Forall_nil].
      apply pretty_N_char_digit.
    + intros _. by destruct ds.
  - assert (x = 0%N) as -> by lia. exists []. rewrite pretty_N_go_0. split; [done|].
    split; [by apply Forall_nil|lia].
Qed.

Lemma pretty_N_digits (x : N) :
  Forall (λ a, Py.is_digit a = true) (Py.chars (pretty x)) ∧ Py.chars (pretty x) ≠ [].
Proof.
  unfold pretty, pretty_N. case_decide as Hx.
  { change (Py.chars "0") with ["0"%char]. split; [|done]. by repeat constructor. }
  destruct (pretty_N_go_chars x "") as (ds & -> & Hall & Hne).
  change (Py.chars "") with (@nil ascii). rewrite app_nil_r.
  split; [done|]. apply Hne. lia.
Qed.

Lemma pretty_Z_nonneg_digits (n : Z) :
  0 ≤ n → Forall (λ a, Py.is_digit a = true) (Py.chars (pretty n)) ∧ Py.chars (pretty n) ≠ [].
Proof.
  destruct n as [|p|p]; [|intros _; apply (pretty_N_digits (Npos p))|lia].
  intros _. change (Py.chars (pretty 0)) with ["0"%char]. split; [|done]. by repeat constructor.
Qed.










(** ** The code map *)









(** ** The lookup of one value *)







(** ** The cursor loop of [apply_domain_mapping] *)



(** ** The domain lookup *)





(** Scenario A: the table holds ("1", "Alluvium") and (2.0, "Alluvium");
    probing with "1", 1 and 1.0 each returns "Alluvium". *)
Example scenario_A_probes :
  (λ v, mapped_value (load_domain_mappings scenario_A "d_lito.dbf" "CODE" "DESC" false).1 v)
    <$> [VStr "1"; VInt 1; VFloat (Dec 10 1)]
  = [Ok "Alluvium"; Ok "Alluvium"; Ok "Alluvium"].
Proof. vm_compute. reflexivity. Qed.


(** ** The flag in the open-library pipeline *)

Lemma split_at_point (l1 l2 r1 r2 : list ascii) :
  l1 ++ "."%char :: r1 = l2 ++ "."%char :: r2 →
  "."%char ∉ l1 → "."%char ∉ l2 → l1 = l2 ∧ r1 = r2.
Proof.
  revert l2. induction l1 as [|a l1 IH]; intros [|b l2] H H1 H2; simpl in H.
  - by injection H as ->.
  - injection H as <- _. exfalso. apply H2, elem_of_cons. by left.
  - injection H as -> _. exfalso. apply H1, elem_of_cons. by left.
  - injection H as -> H. destruct (IH l2 H) as [-> ->]; [| |done].
    + intros ?. apply H1, elem_of_cons. by right.
    + intros ?. apply H2, elem_of_cons. by right.
Qed.

Lemma digits_no_point (l : list ascii) :
  Forall (λ a, Py.is_digit a = true) l → "."%char ∉ l.
Proof. rewrite Forall_forall. intros H Hin. by apply H in Hin. Qed.

Lemma pretty_Z_no_point (n : Z) : "."%char ∉ Py.chars (pretty n).
Proof.
  destruct n as [|p|p].
  - by apply digits_no_point, pretty_Z_nonneg_digits.
  - by apply digits_no_point, pretty_Z_nonneg_digits.
  - change (pretty (Zneg p)) with ("-" +:+ pretty (Npos p)). rewrite chars_app.
    rewrite elem_of_app. intros [H|H].
    + by apply list_elem_of_singleton in H.
    + by apply (digits_no_point _ (proj1 (pretty_N_digits (Npos p)))).
Qed.

Lemma dnorm_go_normal (m0 : Z) (k0 : nat) (m : Z) (k : nat) :
  Num.dnorm_go m0 k0 = (m, S k) → m `mod` 10 ≠ 0.
Proof.
  revert m0. induction k0 as [|k0 IH]; intros m0; simpl; [done|].
  destruct (Z.eqb_spec (m0 `mod` 10) 0) as [H0|H0]; [apply IH|].
  by intros [= <- _].
Qed.

Lemma frac_digits_length (k : nat) (n : Z) : length (Num.frac_digits k n) = k.
Proof.
  revert n. induction k as [|k IH]; intros n; simpl; [done|].
  rewrite length_app, IH. simpl. lia.
Qed.

Lemma str_dec_chars (d : dec) :
  let m := dmant (Num.dnorm d) in
  let k := dscale (Num.dnorm d) in
  Py.chars (Num.str_dec d) =
    (if m <? 0 then ["-"%char] else []) ++
    Py.chars (pretty (Z.abs m / 10 ^ Z.of_nat k)) ++
    "."%char :: match k with
                | O => ["0"%char]
                | _ => Num.frac_digits k (Z.abs m `mod` 10 ^ Z.of_nat k)
                end.
Proof.
  intros m k. unfold Num.str_dec. fold m k. rewrite !chars_app.
  f_equal; [by destruct (m <? 0)|]. f_equal.
  change (Py.chars ".") with ["."%char]. simpl. f_equal.
  destruct k; [done|apply chars_text].
Qed.

(** The text of a float is that of an integer followed by ".0" only for
    the float of that value. *)
Lemma str_dec_int_text (d : dec) (n : Z) :
  0 ≤ n → Num.str_dec d = pretty n +:+ ".0" →
  dmant d = n * 10 ^ Z.of_nat (dscale d).
Proof.
  intros Hn Htext. apply (f_equal Py.chars) in Htext.
  rewrite str_dec_chars, chars_app in Htext. change (Py.chars ".0") with ["."%char; "0"%char] in Htext.
  apply dnorm_go_int. unfold Num.dnorm in Htext.
  destruct (Num.dnorm_go (dmant d) (dscale d)) as [m k] eqn:Enorm. simpl in Htext.
  destruct (pretty_Z_nonneg_digits n Hn) as [Hdn Hnn].
  destruct (Z.ltb_spec m 0) as [Hneg|Hpos].
  { exfalso. destruct (Py.chars (pretty n)) as [|c cs]; [done|].
    simpl in Htext. injection Htext as <- _. apply Forall_cons in Hdn as [Hc _]. discriminate Hc. }
  simpl in Htext. rewrite Z.abs_eq in Htext by done.
  apply split_at_point in Htext as [Hint Hfrac];
    [|apply pretty_Z_no_point|apply pretty_Z_no_point].
  apply chars_inj in Hint. apply (inj pretty) in Hint.
  destruct k as [|k].
  - change (Z.of_nat 0) with 0 in Hint. rewrite Z.pow_0_r, Z.div_1_r in Hint. by subst m.
  - exfalso. apply (dnorm_go_normal _ _ _ _ Enorm).
    simpl in Hfrac. apply (f_equal reverse) in Hfrac. rewrite reverse_snoc in Hfrac.
    change (reverse ["0"%char]) with ["0"%char] in Hfrac. injection Hfrac as Hdigit Hrest.
    apply (f_equal length) in Hrest. rewrite length_reverse, frac_digits_length in Hrest.
    simpl in Hrest. subst k. change (Z.of_nat 1) with 1 in Hdigit. rewrite Z.pow_1_r in Hdigit.
    rewrite Z.mod_mod in Hdigit by lia.
    pose proof (Z.mod_pos_bound m 10 ltac:(lia)) as Hb.
    assert (Z.to_nat (m `mod` 10) < 10)%nat as Hlt by lia.
    destruct (Z.to_nat (m `mod` 10)) as [|[|[|[|[|[|[|[|[|[|x]]]]]]]]]] eqn:E;
      try discriminate Hdigit; lia.
Qed.

Lemma str_dec_has_point (d : dec) : "."%char ∈ Py.chars (Num.str_dec d).
Proof.
  rewrite str_dec_chars. rewrite !elem_of_app, elem_of_cons. right. right. by left.
Qed.

(** [str(v) in (a, a.0) or v == n] is the specification's "recognized as
    n", for a non-negative n whose text is [a]. *)
Lemma som_test (v : value) (n : Z) :
  0 ≤ n →
  bool_decide (Conv.py_str v ∈ [pretty n; pretty n +:+ ".0"]) || Conv.py_eq v (VInt n) =
  is_numeric n v || bool_decide (v ∈ [VStr (pretty n); VStr (pretty n +:+ ".0")]).
Proof.
  intros Hn. rewrite py_eq_int.
  assert (pretty n ≠ pretty n +:+ ".0") as Hne.
  { intros H. apply (f_equal String.length) in H. rewrite string_length_app in H. simpl in H. lia. }
  destruct v as [|m|d|s]; cbn [Conv.py_str is_numeric].
  - assert (∃ c cs, Py.chars (pretty n) = c :: cs ∧ Py.is_digit c = true) as (c & cs & Hc & Hd).
    { destruct (pretty_Z_nonneg_digits n Hn) as [Hall Hnil].
      destruct (Py.chars (pretty n)) as [|c cs]; [done|].
      apply Forall_cons in Hall as [? _]. eauto. }
    assert ("None" ∉ [pretty n; pretty n +:+ ".0"]) as Hl.
    { rewrite !elem_of_cons, elem_of_nil.
      intros [H|[H|[]]]; apply (f_equal Py.chars) in H; rewrite ?chars_app, Hc in H;
        injection H as <-; discriminate Hd. }
    assert (VNone ∉ [VStr (pretty n); VStr (pretty n +:+ ".0")]) as Hr.
    { rewrite !elem_of_cons, elem_of_nil. intros [|[|[]]]; discriminate. }
    by rewrite (bool_decide_eq_false_2 _ Hl), (bool_decide_eq_false_2 _ Hr).
  - assert (VInt m ∉ [VStr (pretty n); VStr (pretty n +:+ ".0")]) as Hr.
    { rewrite !elem_of_cons, elem_of_nil. intros [|[|[]]]; discriminate. }
    rewrite (bool_decide_eq_false_2 _ Hr), orb_false_r.
    destruct (decide (m = n)) as [->|Hmn].
    + rewrite (bool_decide_eq_true_2 (n = n)) by done. apply orb_true_r.
    + rewrite (bool_decide_eq_false_2 (m = n)) by done. rewrite orb_false_r.
      apply bool_decide_eq_false_2. rewrite !elem_of_cons, elem_of_nil. intros [H|[H|[]]].
      * by apply (inj pretty) in H.
      * apply (pretty_Z_no_point m). rewrite H, chars_app, elem_of_app. right.
        apply elem_of_cons. by left.
  - assert (VFloat d ∉ [VStr (pretty n); VStr (pretty n +:+ ".0")]) as Hr.
    { rewrite !elem_of_cons, elem_of_nil. intros [|[|[]]]; discriminate. }
    rewrite (bool_decide_eq_false_2 _ Hr), orb_false_r.
    destruct (decide (dmant d = n * 10 ^ Z.of_nat (dscale d))) as [Hd|Hd].
    + rewrite (bool_decide_eq_true_2 _ Hd). apply orb_true_r.
    + rewrite (bool_decide_eq_false_2 _ Hd), orb_false_r.
      apply bool_decide_eq_false_2. rewrite !elem_of_cons, elem_of_nil. intros [H|[H|[]]].
      * apply (pretty_Z_no_point n). rewrite <- H. apply str_dec_has_point.
      * by apply str_dec_int_text in H.
  - rewrite orb_false_r. apply bool_decide_ext.
    rewrite !elem_of_cons, !elem_of_nil. split; intros [H|[H|[]]]; simplify_eq; tauto.
Qed.

Lemma som_tri_state (v : value) : OpenLibs._som v = tri_state v.
Proof.
  unfold OpenLibs._som, tri_state.
  pose proof (som_test v 1 ltac:(lia)) as H1. pose proof (som_test v 2 ltac:(lia)) as H2.
  change (pretty 1) with "1" in H1. change (pretty 2) with "2" in H2.
  change ("1" +:+ ".0") with "1.0" in H1. change ("2" +:+ ".0") with "2.0" in H2.
  by rewrite H1, H2.
Qed.

(** C5: the flag written for a source value is the specification's
    tri-state value (numeric 1, "1", "1.0" give SI; numeric 2, "2", "2.0"
    give NO; anything else, null included, gives the empty string), in
    [process_sommerso_field_optimized] and in [_som] of the open-library
    pipeline alike, and the cursor loop of
    [process_sommerso_field_optimized] writes it into the Sommerso_ column
    of every row. *)
Theorem sommerso_tri_state :
  (∀ v, sommerso_new_val v = tri_state v) ∧
  (∀ v, OpenLibs._som v = tri_state v) ∧
  (∀ t fld, find_sommerso_field t = Some fld →
     ∃ tgt, Py.upper tgt = "SOMMERSO_" ∧
       length (t_rows (process_sommerso_field_optimized t).1) = length (t_rows t) ∧
       ∀ i r, t_rows t !! i = Some r →
         ∃ r', t_rows (process_sommerso_field_optimized t).1 !! i = Some r' ∧
               row_get r' tgt = VStr (tri_state (row_get r fld))).
Proof.
  split; [exact sommerso_new_val_tri_state|]. split; [exact som_tri_state|].
  intros t fld Hfld. unfold process_sommerso_field_optimized. rewrite Hfld.
  destruct (cursor_field_found (AddField t "Sommerso_" TString 10) "Sommerso_")
    as (tgt & Htgt & _ & Hup); [apply AddField_has_field|].
  rewrite Htgt. exists tgt. simpl. rewrite AddField_rows, length_fmap.
  split; [exact Hup|]. split; [reflexivity|].
  intros i r Hr. rewrite list_lookup_fmap, Hr. simpl. eexists; split; [reflexivity|].
  by rewrite row_get_insert, sommerso_new_val_tri_state.
Qed.

Lemma sommerso_tri_state_witness :
  ∃ tgt, Py.upper tgt = "SOMMERSO_" ∧
    length (t_rows (process_sommerso_field_optimized sommerso_file).1) =
      length (t_rows sommerso_file) ∧
    ∀ i r, t_rows sommerso_file !! i = Some r →
      ∃ r', t_rows (process_sommerso_field_optimized sommerso_file).1 !! i = Some r' ∧
            row_get r' tgt = VStr (tri_state (row_get r "SOMMERSO")).
Proof.
  apply (proj2 (proj2 sommerso_tri_state) sommerso_file "SOMMERSO"). reflexivity.
Defined.

(** Scenario C: 1, "1", "1.0" give SI; 2, "2", "2.0" give NO; None, "x", 3
    give the empty string. *)
Example scenario_C :
  sommerso_new_val <$> [VInt 1; VStr "1"; VStr "1.0"; VInt 2; VStr "2"; VStr "2.0";
                        VNone; VStr "x"; VInt 3]
  = ["SI"; "SI"; "SI"; "NO"; "NO"; "NO"; ""; ""; ""].
Proof. reflexivity. Qed.

(** * The remaining methods *)

(** ** File names *)

Lemma sanitize_chars (name : string) :
  ∃ l, l ≠ [] ∧ Forall (λ a, word_char a = true) l ∧
       match l with a :: _ => Py.is_digit a = false | [] => True end ∧
       sanitize_shapefile_name name = Py.text (take 31 l).
Proof.
  unfold sanitize_shapefile_name.
  set (l := map _ (Py.chars name)).
  assert (Hl : Forall (λ a, word_char a = true) l).
  { subst l. induction (Py.chars name) as [|b r IH]; [constructor|].
    cbn [map]. constructor; [|exact IH].
    destruct (word_char b) eqn:E; [exact E | reflexivity]. }
  clearbody l. destruct l as [|a r].
  - exists (Py.chars "unnamed"). repeat split; try discriminate.
    + apply Forall_forall. intros a Ha. vm_compute in Ha.
      repeat (apply elem_of_cons in Ha as [-> | Ha]; [reflexivity|]).
      apply elem_of_nil in Ha as [].
  - destruct (Py.is_digit a) eqn:Ed.
    + exists (Py.chars "shp_" ++ a :: r). repeat split; try discriminate.
      apply Forall_app. split; [|exact Hl].
      repeat constructor.
    + exists (a :: r). repeat split; try discriminate; assumption.
Qed.

Lemma replace_word_chars (l : list ascii) :
  Forall (λ a, word_char a = true) l →
  map (λ a, if word_char a then a else "_"%char) l = l.
Proof.
  induction l as [|a r IH]; [reflexivity|]. intros H.
  apply Forall_cons in H as [Ha Hr]. cbn [map]. rewrite Ha, IH by exact Hr. reflexivity.
Qed.

(** X1: whatever the name, the sanitized name can be carried by a shapefile:
    it has between 1 and 31 characters, only letters, digits and
    underscores, and no digit in front; sanitizing it again changes
    nothing. *)
Theorem sanitize_shapefile_name_valid (name : string) :
  valid_name (sanitize_shapefile_name name) ∧
  sanitize_shapefile_name (sanitize_shapefile_name name) = sanitize_shapefile_name name.
Proof.
  assert (H : valid_name (sanitize_shapefile_name name)).
  { destruct (sanitize_chars name) as (l & Hne & Hall & Hhd & ->).
    unfold valid_name. rewrite chars_text.
    destruct l as [|a r]; [congruence|].
    repeat split.
    - discriminate.
    - rewrite length_take. lia.
    - apply Forall_take. exact Hall.
    - exact Hhd. }
  split; [exact H|]. destruct H as (Hne & Hlen & Hall & Hhd).
  set (s := sanitize_shapefile_name name) in *. unfold sanitize_shapefile_name.
  rewrite replace_word_chars by exact Hall.
  destruct (Py.chars s) as [|a r] eqn:E; [congruence|].
  rewrite Hhd. rewrite take_ge by exact Hlen. rewrite <- E. apply text_chars.
Qed.

(** X2: a name that is already valid is left as it is. *)
Theorem sanitize_shapefile_name_keeps_valid (name : string) :
  valid_name name → sanitize_shapefile_name name = name.
Proof.
  intros (Hne & Hlen & Hall & Hhd). unfold sanitize_shapefile_name.
  rewrite replace_word_chars by exact Hall.
  destruct (Py.chars name) as [|a r] eqn:E; [congruence|].
  rewrite Hhd. rewrite take_ge by exact Hlen. rewrite <- E. apply text_chars.
Qed.

Lemma sanitize_shapefile_name_keeps_valid_witness :
  sanitize_shapefile_name "ST018Polygon" = "ST018Polygon".
Proof.
  apply sanitize_shapefile_name_keeps_valid. unfold valid_name.
  change (Py.chars "ST018Polygon") with
    ["S"; "T"; "0"; "1"; "8"; "P"; "o"; "l"; "y"; "g"; "o"; "n"]%char.
  split; [discriminate|]. split; [cbn; lia|]. split; [|reflexivity].
  repeat constructor.
Defined.

(** ** Layer discovery *)

Lemma is_prefix_refl (l : list ascii) : Py.is_prefix l l = true.
Proof. induction l as [|a r IH]; [reflexivity|]. cbn. rewrite bool_decide_eq_true_2, IH; done. Qed.

Lemma contains_refl (s : string) : Py.contains s s = true.
Proof.
  unfold Py.contains. destruct (Py.chars s) as [|a r] eqn:E; [reflexivity|].
  cbn [Py.contains_chars]. rewrite is_prefix_refl. reflexivity.
Qed.

Lemma dict_set_elem_of (k v : string) (d : list (string * string)) (kv : string * string) :
  kv ∈ dict_set k v d → kv = (k, v) ∨ kv ∈ d.
Proof.
  induction d as [|[k' v'] r IH]; cbn [dict_set].
  - intros H. apply list_elem_of_singleton in H. left. exact H.
  - cbn [fst]. case_bool_decide as E.
    + intros H. apply elem_of_cons in H as [H | H]; [left; exact H | right; right; exact H].
    + intros H. apply elem_of_cons in H as [H | H]; [right; rewrite H; left|].
      destruct (IH H) as [H' | H']; [left; exact H' | right; right; exact H'].
Qed.

Lemma dict_set_keys (k v : string) (d : list (string * string)) (k' : string) :
  k' ∈ (dict_set k v d).*1 ↔ k' = k ∨ k' ∈ d.*1.
Proof.
  induction d as [|[k0 v0] r IH]; cbn [dict_set].
  - cbn. rewrite list_elem_of_singleton, elem_of_nil. tauto.
  - cbn [fst]. case_bool_decide as E.
    + subst k0. cbn. rewrite !elem_of_cons. tauto.
    + cbn [fmap list_fmap]. cbn [fmap list_fmap] in IH. rewrite !elem_of_cons, IH. cbn. tauto.
Qed.

Lemma layer_lookup_snoc (layers : list string) (l : string) :
  layer_lookup (layers ++ [l]) = dict_set (Py.lower l) l (layer_lookup layers).
Proof. unfold layer_lookup. rewrite foldl_app. reflexivity. Qed.

Lemma layer_lookup_elem_of (layers : list string) (kv : string * string) :
  kv ∈ layer_lookup layers → kv.2 ∈ layers ∧ Py.lower kv.2 = kv.1.
Proof.
  induction layers as [|l layers IH] using rev_ind.
  - intros H. apply elem_of_nil in H as [].
  - rewrite layer_lookup_snoc. intros H. apply dict_set_elem_of in H as [-> | H].
    + split; [apply elem_of_app; right; left | reflexivity].
    + destruct (IH H) as [H1 H2]. split; [apply elem_of_app; left; exact H1 | exact H2].
Qed.

Lemma layer_lookup_keys (layers : list string) (k : string) :
  k ∈ (layer_lookup layers).*1 ↔ ∃ l, l ∈ layers ∧ Py.lower l = k.
Proof.
  induction layers as [|l layers IH] using rev_ind.
  - cbn. rewrite elem_of_nil. split; [tauto|]. intros (l & H & _). apply elem_of_nil in H as [].
  - rewrite layer_lookup_snoc, dict_set_keys, IH. split.
    + intros [-> | (l' & H1 & H2)].
      * exists l. split; [apply elem_of_app; right; left | reflexivity].
      * exists l'. split; [apply elem_of_app; left; exact H1 | exact H2].
    + intros (l' & H1 & H2). apply elem_of_app in H1 as [H1 | H1].
      * right. exists l'. split; assumption.
      * apply list_elem_of_singleton in H1. subst l'. left. symmetry. exact H2.
Qed.

Lemma dict_get_Some (k v : string) (d : list (string * string)) :
  dict_get k d = Some v → (k, v) ∈ d.
Proof.
  unfold dict_get. destruct (List.find _ d) as [[k' v']|] eqn:E; [|discriminate].
  intros [= <-]. apply find_some in E as [Hin Hk].
  apply bool_decide_eq_true_1 in Hk. cbn [fst] in Hk. subst k'. apply list_elem_of_In. exact Hin.
Qed.

Lemma dict_get_None (k : string) (d : list (string * string)) :
  dict_get k d = None ↔ k ∉ d.*1.
Proof.
  unfold dict_get. induction d as [|[k' v'] r IH]; cbn [List.find].
  - cbn. rewrite elem_of_nil. tauto.
  - cbn [fst]. case_bool_decide as E.
    + subst k'. cbn. rewrite elem_of_cons. split; [discriminate | tauto].
    + cbn [fmap list_fmap]. cbn [fmap list_fmap] in IH. rewrite elem_of_cons, IH. cbn.
      split; [intros H [H' | H']; [congruence | tauto] | tauto].
Qed.

Lemma find_None_iff {A} (p : A → bool) (l : list A) :
  List.find p l = None ↔ ∀ x, x ∈ l → p x = false.
Proof.
  induction l as [|a r IH]; cbn [List.find].
  - split; [intros _ x H; apply elem_of_nil in H as [] | reflexivity].
  - destruct (p a) eqn:E.
    + split; [discriminate|]. intros H. rewrite (H a) in E by left. discriminate.
    + rewrite IH. split.
      * intros H x Hx. apply elem_of_cons in Hx as [-> | Hx]; [exact E | exact (H x Hx)].
      * intros H x Hx. apply H. right. exact Hx.
Qed.

Lemma find_Some_elem_of {A} (p : A → bool) (l : list A) (x : A) :
  List.find p l = Some x → x ∈ l ∧ p x = true.
Proof. intros H. apply find_some in H as [H1 H2]. split; [apply list_elem_of_In; exact H1 | exact H2]. Qed.

Lemma find_in_lookup_Some (lookup : list (string * string)) (patterns : list string)
    (l : string) :
  find_in_lookup lookup patterns = Some l → ∃ k, (k, l) ∈ lookup.
Proof.
  induction patterns as [|p ps IH]; cbn [find_in_lookup]; [discriminate|].
  destruct (dict_get (Py.lower p) lookup) as [l'|] eqn:E1.
  - intros [= <-]. exists (Py.lower p). apply dict_get_Some. exact E1.
  - destruct (List.find _ lookup) as [[k v]|] eqn:E2.
    + intros [= <-]. exists k. apply find_Some_elem_of in E2 as [H _]. exact H.
    + exact IH.
Qed.

Lemma find_in_lookup_None (lookup : list (string * string)) (patterns : list string) :
  find_in_lookup lookup patterns = None ↔
  ∀ p kv, p ∈ patterns → kv ∈ lookup → Py.contains (Py.lower p) kv.1 = false.
Proof.
  induction patterns as [|p ps IH]; cbn [find_in_lookup].
  - split; [intros _ p kv H; apply elem_of_nil in H as [] | reflexivity].
  - destruct (dict_get (Py.lower p) lookup) as [l'|] eqn:E1.
    + split; [discriminate|]. intros H. apply dict_get_Some in E1.
      specialize (H p _ ltac:(left) E1). cbn [fst] in H. rewrite contains_refl in H. discriminate.
    + destruct (List.find _ lookup) as [[k v]|] eqn:E2.
      * split; [discriminate|]. intros H. apply find_Some_elem_of in E2 as [H1 H2].
        rewrite (H p _ ltac:(left) H1) in H2. discriminate.
      * rewrite IH. rewrite find_None_iff in E2. split.
        -- intros H q kv Hq Hkv. apply elem_of_cons in Hq as [-> | Hq];
             [exact (E2 kv Hkv) | exact (H q kv Hq Hkv)].
        -- intros H q kv Hq Hkv. apply (H q kv); [right; exact Hq | exact Hkv].
Qed.

Lemma items_elem_of (available_layers : list string) (items : list (string * string))
    (kv : string * string) :
  items ≡ₚ layer_lookup available_layers →
  kv ∈ items → kv.2 ∈ available_layers ∧ Py.lower kv.2 = kv.1.
Proof. intros Hp H. rewrite Hp in H. apply layer_lookup_elem_of. exact H. Qed.

Lemma items_keys (available_layers : list string) (items : list (string * string))
    (l : string) :
  items ≡ₚ layer_lookup available_layers →
  l ∈ available_layers → ∃ v, (Py.lower l, v) ∈ items.
Proof.
  intros Hp Hl.
  assert (Hk : Py.lower l ∈ (layer_lookup available_layers).*1).
  { apply layer_lookup_keys. exists l. split; [exact Hl | reflexivity]. }
  apply list_elem_of_fmap in Hk as ([k v] & Hk & Hkv). cbn [fst] in Hk. subst k.
  exists v. rewrite Hp. exact Hkv.
Qed.

Lemma find_items_None (available_layers patterns : list string)
    (items : list (string * string)) :
  items ≡ₚ layer_lookup available_layers →
  find_in_lookup items patterns = None ↔
  ∀ p l, p ∈ patterns → l ∈ available_layers → ¬ matches_layer p l.
Proof.
  intros Hp. unfold matches_layer. rewrite find_in_lookup_None. split.
  - intros H p l Hpat Hl. destruct (items_keys available_layers items l Hp Hl) as [v Hkv].
    rewrite (H p _ Hpat Hkv : Py.contains _ (Py.lower l) = false). discriminate.
  - intros H p [k v] Hpat Hkv.
    apply (items_elem_of available_layers items _ Hp) in Hkv as [H1 H2].
    cbn [fst snd] in *. subst k.
    specialize (H p v Hpat H1). destruct (Py.contains _ _); [congruence | reflexivity].
Qed.

(** X3: whatever the order in which the lookup dictionary is walked, a layer
    that is found is one of the available layers, and none is found exactly
    when no pattern lies in any layer name. *)
Theorem find_layer_by_pattern_sound (available_layers patterns : list string)
    (items : list (string * string)) :
  items ≡ₚ layer_lookup available_layers →
  (∀ l, find_in_lookup items patterns = Some l → l ∈ available_layers) ∧
  (find_in_lookup items patterns = None ↔
   ∀ p l, p ∈ patterns → l ∈ available_layers → ¬ matches_layer p l).
Proof.
  intros Hp. split; [|apply find_items_None; exact Hp].
  intros l H. apply find_in_lookup_Some in H as [k H].
  apply (items_elem_of available_layers items _ Hp) in H as [H _]. exact H.
Qed.

Lemma find_layer_by_pattern_sound_witness :
  (∀ l, find_layer_by_pattern ["main.ST018Polygon"; "main.ST018Polyline"]
          ["ST018Polygon"; "main.ST018Polygon"] = Some l →
        l ∈ ["main.ST018Polygon"; "main.ST018Polyline"]) ∧
  (find_layer_by_pattern ["main.ST018Polygon"; "main.ST018Polyline"]
     ["ST018Polygon"; "main.ST018Polygon"] = None ↔
   ∀ p l, p ∈ ["ST018Polygon"; "main.ST018Polygon"] →
          l ∈ ["main.ST018Polygon"; "main.ST018Polyline"] → ¬ matches_layer p l).
Proof.
  apply (find_layer_by_pattern_sound ["main.ST018Polygon"; "main.ST018Polyline"]
           ["ST018Polygon"; "main.ST018Polygon"]).
  reflexivity.
Defined.

Lemma find_in_lookup_skip (lookup : list (string * string)) (pre post : list string) :
  (∀ p kv, p ∈ pre → kv ∈ lookup → Py.contains (Py.lower p) kv.1 = false) →
  find_in_lookup lookup (pre ++ post) = find_in_lookup lookup post.
Proof.
  induction pre as [|p pre IH]; [reflexivity|]. intros H.
  assert (H0 : find_in_lookup lookup [p] = None).
  { apply find_in_lookup_None. intros q kv Hq. apply list_elem_of_singleton in Hq. subst q.
    apply H. left. }
  cbn [app find_in_lookup]. cbn [find_in_lookup] in H0.
  destruct (dict_get (Py.lower p) lookup); [discriminate|].
  destruct (List.find _ lookup); [discriminate|].
  apply IH. intros q kv Hq. apply H. right. exact Hq.
Qed.

(** X4: patterns are tried in order, and for one pattern a layer of that
    very name (up to case) is taken before any layer that merely holds it,
    whatever the order in which the dictionary is walked. *)
Theorem find_layer_by_pattern_exact_first (available_layers pre post : list string)
    (pattern l : string) (items : list (string * string)) :
  items ≡ₚ layer_lookup available_layers →
  (∀ q l', q ∈ pre → l' ∈ available_layers → ¬ matches_layer q l') →
  l ∈ available_layers → Py.lower l = Py.lower pattern →
  ∃ l', find_in_lookup items (pre ++ pattern :: post) = Some l' ∧
        l' ∈ available_layers ∧ Py.lower l' = Py.lower pattern ∧
        ((∀ l2, l2 ∈ available_layers → Py.lower l2 = Py.lower l → l2 = l) → l' = l).
Proof.
  intros Hp Hpre Hl Hlow.
  rewrite find_in_lookup_skip.
  2:{ intros q [k v] Hq Hkv.
      apply (items_elem_of available_layers items _ Hp) in Hkv as [H1 H2].
      cbn [fst snd] in *. subst k.
      specialize (Hpre q v Hq H1). unfold matches_layer in Hpre.
      destruct (Py.contains _ _); [congruence | reflexivity]. }
  cbn [find_in_lookup].
  destruct (dict_get (Py.lower pattern) items) as [l'|] eqn:E.
  - exists l'. apply dict_get_Some in E.
    apply (items_elem_of available_layers items _ Hp) in E as [H1 H2]. cbn [fst snd] in H1, H2.
    repeat split; try assumption. intros Huniq. apply Huniq; [exact H1 | congruence].
  - exfalso. apply dict_get_None in E. apply E.
    destruct (items_keys available_layers items l Hp Hl) as [v Hkv].
    rewrite <- Hlow. apply list_elem_of_fmap. exists (Py.lower l, v). split; [reflexivity | exact Hkv].
Qed.

(** ** Layer discovery in the open-library pipeline *)

Lemma find_partial_None (layers name_variants : list string) :
  OpenLibs.find_partial layers name_variants = None ↔
  ∀ nv L, nv ∈ name_variants → L ∈ layers → ¬ matches_layer nv L.
Proof.
  unfold matches_layer. induction name_variants as [|nv r IH]; cbn [OpenLibs.find_partial].
  - split; [intros _ nv L H; apply elem_of_nil in H as [] | reflexivity].
  - destruct (List.find _ layers) as [L|] eqn:E.
    + split; [discriminate|]. intros H. apply find_Some_elem_of in E as [H1 H2].
      destruct (H nv L ltac:(left) H1 H2).
    + rewrite IH. rewrite find_None_iff in E. split.
      * intros H q L Hq HL. apply elem_of_cons in Hq as [-> | Hq]; [|exact (H q L Hq HL)].
        rewrite (E L HL). discriminate.
      * intros H q L Hq HL. apply (H q L); [right; exact Hq | exact HL].
Qed.

Lemma find_partial_Some (layers name_variants : list string) (L : string) :
  OpenLibs.find_partial layers name_variants = Some L → L ∈ layers.
Proof.
  induction name_variants as [|nv r IH]; cbn [OpenLibs.find_partial]; [discriminate|].
  destruct (List.find _ layers) as [L'|] eqn:E; [|exact IH].
  intros [= <-]. apply find_Some_elem_of in E as [H _]. exact H.
Qed.

Lemma find_layer_None (layers name_variants : list string) :
  OpenLibs.find_layer layers name_variants = None ↔
  ∀ nv L, nv ∈ name_variants → L ∈ layers → ¬ matches_layer nv L.
Proof.
  unfold OpenLibs.find_layer.
  destruct (List.find _ name_variants) as [nv|] eqn:E.
  - split; [discriminate|]. intros H. apply find_Some_elem_of in E as [H1 H2].
    apply bool_decide_eq_true_1 in H2. destruct (H nv nv H1 H2). apply contains_refl.
  - apply find_partial_None.
Qed.

(** X5: the open-library pipeline finds no layer exactly when the script finds
    none (in whatever order the script walks its dictionary), and what it
    finds is a layer of the package. *)
Theorem find_layer_agrees_on_failure (layers name_variants : list string)
    (items : list (string * string)) :
  items ≡ₚ layer_lookup layers →
  (OpenLibs.find_layer layers name_variants = None ↔
   find_in_lookup items name_variants = None) ∧
  (∀ L, OpenLibs.find_layer layers name_variants = Some L → L ∈ layers).
Proof.
  intros Hp. split.
  - rewrite find_layer_None, (find_items_None layers name_variants items Hp). reflexivity.
  - intros L. unfold OpenLibs.find_layer.
    destruct (List.find _ name_variants) as [nv|] eqn:E.
    + intros [= <-]. apply find_Some_elem_of in E as [_ H].
      apply bool_decide_eq_true_1 in H. exact H.
    + apply find_partial_Some.
Qed.

(** X6: in the open-library pipeline a variant that is the exact name of a
    layer is taken before any partial match, also of an earlier variant. *)
Theorem find_layer_exact_first (layers pre post : list string) (nv : string) :
  (∀ q, q ∈ pre → q ∉ layers) → nv ∈ layers →
  OpenLibs.find_layer layers (pre ++ nv :: post) = Some nv.
Proof.
  intros Hpre Hnv. unfold OpenLibs.find_layer.
  assert (H : List.find (λ nv, bool_decide (nv ∈ layers)) (pre ++ nv :: post) = Some nv).
  { induction pre as [|q pre IH]; cbn [app List.find].
    - rewrite bool_decide_eq_true_2 by exact Hnv. reflexivity.
    - rewrite bool_decide_eq_false_2 by (apply Hpre; left).
      apply IH. intros q' Hq'. apply Hpre. right. exact Hq'. }
  rewrite H. reflexivity.
Qed.

Lemma find_layer_exact_first_witness :
  OpenLibs.find_layer ["x_ST018Polygon_bak"; "main.ST018Polygon"]
    (["ST018Polygon"] ++ "main.ST018Polygon" :: []) = Some "main.ST018Polygon".
Proof.
  apply find_layer_exact_first.
  - intros q Hq. apply list_elem_of_singleton in Hq. subst q.
    apply (bool_decide_eq_false_1 (_ ∈ _)). vm_compute. reflexivity.
  - apply (bool_decide_eq_true_1 (_ ∈ _)). vm_compute. reflexivity.
Defined.

Lemma find_layer_by_pattern_exact_first_witness :
  ∃ l', find_layer_by_pattern ["main.ST018Polygon"; "main.ST018Polyline"]
          (["ST099Point"] ++ "MAIN.st018polygon" :: ["ST018Polyline"]) = Some l' ∧
        l' ∈ ["main.ST018Polygon"; "main.ST018Polyline"] ∧
        Py.lower l' = Py.lower "MAIN.st018polygon" ∧
        ((∀ l2, l2 ∈ ["main.ST018Polygon"; "main.ST018Polyline"] →
                Py.lower l2 = Py.lower "main.ST018Polygon" → l2 = "main.ST018Polygon") →
         l' = "main.ST018Polygon").
Proof.
  apply (find_layer_by_pattern_exact_first ["main.ST018Polygon"; "main.ST018Polyline"]
           ["ST099Point"] ["ST018Polyline"] "MAIN.st018polygon" "main.ST018Polygon"
           (layer_lookup ["main.ST018Polygon"; "main.ST018Polyline"])).
  - reflexivity.
  - intros q l' Hq Hl'. apply list_elem_of_singleton in Hq. subst q. unfold matches_layer.
    repeat (apply elem_of_cons in Hl' as [-> | Hl']; [vm_compute; discriminate|]).
    apply elem_of_nil in Hl' as [].
  - apply (bool_decide_eq_true_1 (_ ∈ _)). vm_compute. reflexivity.
  - vm_compute. reflexivity.
Defined.

Lemma find_layer_agrees_on_failure_witness :
  (OpenLibs.find_layer ["main.ST018Polygon"; "main.ST018Polyline"] ["ST010Point"] = None ↔
   find_layer_by_pattern ["main.ST018Polygon"; "main.ST018Polyline"] ["ST010Point"] = None) ∧
  (∀ L, OpenLibs.find_layer ["main.ST018Polygon"; "main.ST018Polyline"] ["ST010Point"] = Some L →
        L ∈ ["main.ST018Polygon"; "main.ST018Polyline"]).
Proof.
  apply (find_layer_agrees_on_failure ["main.ST018Polygon"; "main.ST018Polyline"]
           ["ST010Point"]).
  reflexivity.
Defined.

(** ** Cursors and the field dictionary *)

Lemma cursor_field_Some (t : table) (n f : string) :
  cursor_field t n = Some f → f ∈ field_names t ∧ Py.upper f = Py.upper n.
Proof.
  unfold cursor_field. intros H. apply find_Some_elem_of in H as [H1 H2].
  apply bool_decide_eq_true_1 in H2. split; assumption.
Qed.

Lemma existing_fields_dict_lookup (t : table) (u n : string) :
  existing_fields_dict t !! u = Some n → n ∈ field_names t ∧ Py.upper n = u.
Proof.
  unfold existing_fields_dict. generalize (field_names t). intros l.
  induction l as [|m l IH] using rev_ind.
  - cbn. rewrite lookup_empty. discriminate.
  - rewrite foldl_app. cbn [foldl].
    destruct (decide (Py.upper m = u)) as [<- | Hne].
    + rewrite lookup_insert_eq. intros [= <-]. split; [apply elem_of_app; right; left | reflexivity].
    + rewrite lookup_insert_ne by exact Hne. intros H. destruct (IH H) as [H1 H2].
      split; [apply elem_of_app; left; exact H1 | exact H2].
Qed.

Lemma update_cursor_length (f : gmap string value → result (gmap string value))
    (rows : list (gmap string value)) :
  length (update_cursor f rows).1 = length rows.
Proof.
  induction rows as [|r rows IH]; [reflexivity|]. cbn [update_cursor].
  destruct (f r) as [r'|e]; [|reflexivity].
  destruct (update_cursor f rows) as [rs e]. cbn [fst length] in *. rewrite IH. reflexivity.
Qed.

Lemma AddField_fields (t : table) (n : string) ty len :
  ∃ extra, t_fields (AddField t n ty len) = t_fields t ++ extra.
Proof.
  unfold AddField. case_bool_decide.
  - exists []. rewrite app_nil_r. reflexivity.
  - exists [Field n ty len]. reflexivity.
Qed.

Lemma apply_domain_mapping_count (t : table) (field_name source_field : string)
    (code_map : gmap key string) :
  GetCount (apply_domain_mapping t field_name source_field code_map).1 = GetCount t.
Proof.
  unfold apply_domain_mapping. case_bool_decide as E; [reflexivity|].
  set (t' := if bool_decide _ then t else _).
  assert (Ht' : t_rows t' = t_rows t).
  { subst t'. case_bool_decide; [reflexivity | apply AddField_rows]. }
  destruct (cursor_field t' source_field) as [src|]; [|unfold GetCount; cbn [fst]; congruence].
  destruct (cursor_field t' field_name) as [tgt|]; [|unfold GetCount; cbn [fst]; congruence].
  pose proof (update_cursor_length (map_row code_map src tgt) (t_rows t')) as Hlen.
  destruct (update_cursor _ _) as [rows [e|]]; unfold GetCount; cbn [fst t_rows] in *; congruence.
Qed.

(** ** Input validation *)

Lemma layer_foglio_Some (t : table) (s : string) :
  layer_foglio t = Some s →
  ∃ f r, f ∈ field_names t ∧ Py.upper f = "FOGLIOGEOLOGICO" ∧ r ∈ t_rows t ∧
         row_get r f ≠ VNone ∧ s = Py.strip (Conv.py_str (row_get r f)).
Proof.
  unfold layer_foglio. case_bool_decide as E; [|discriminate].
  destruct (cursor_field t "FoglioGeologico") as [f|] eqn:Ef; [|discriminate].
  destruct (List.find _ (t_rows t)) as [r|] eqn:Er; [|discriminate].
  intros [= <-]. apply cursor_field_Some in Ef as [H1 H2].
  apply find_Some_elem_of in Er as [H3 H4]. apply bool_decide_eq_true_1 in H4.
  exists f, r. repeat split; assumption.
Qed.

Section foglio_facts.
Context (self : processor).

Lemma set_foglio_store f : store (set_foglio self f) = store self.
Proof. reflexivity. Qed.

Lemma set_foglio_gpkg f : input_gpkg (set_foglio self f) = input_gpkg self.
Proof. reflexivity. Qed.

Lemma add_log_gpkg ms : input_gpkg (add_log self ms) = input_gpkg self.
Proof. reflexivity. Qed.

Lemma add_log_foglio ms : foglio (add_log self ms) = foglio self.
Proof. reflexivity. Qed.

End foglio_facts.

Lemma get_foglio_spec (self : processor) (available_layers : list string) :
  store (get_foglio_from_geopackage self available_layers).2 = store self ∧
  input_gpkg (get_foglio_from_geopackage self available_layers).2 = input_gpkg self ∧
  match (get_foglio_from_geopackage self available_layers).1 with
  | Ok s =>
      foglio (get_foglio_from_geopackage self available_layers).2 = s ∧
      Py.strip s = s ∧ foglio_source self available_layers s
  | Raise e =>
      e = ValueError ∧
      foglio (get_foglio_from_geopackage self available_layers).2 = foglio self ∧
      ∀ layer_name t, layer_name ∈ available_layers →
        store self !! path_join (input_gpkg self) layer_name = Some t → layer_foglio t = None
  end.
Proof.
  revert self. induction available_layers as [|layer rest IH]; intros self.
  - cbn. repeat split. intros l t H. apply elem_of_nil in H as [].
  - cbn [get_foglio_from_geopackage].
    destruct (store self !! path_join (input_gpkg self) layer) as [t|] eqn:Et.
    + destruct (layer_foglio t) as [f|] eqn:Ef.
      * cbn [fst snd]. repeat split.
        -- apply layer_foglio_Some in Ef as (f' & r & _ & _ & _ & _ & ->). apply strip_idemp.
        -- apply layer_foglio_Some in Ef as (f' & r & H1 & H2 & H3 & H4 & H5).
           exists layer, t, f', r. repeat split; try assumption. left.
      * destruct (IH self) as (H1 & H2 & H3). split; [exact H1|]. split; [exact H2|].
        destruct (get_foglio_from_geopackage self rest).1 as [s|e].
        -- destruct H3 as (H3 & H4 & (l & t' & f' & r & H5 & H6)).
           repeat split; try assumption. exists l, t', f', r. split; [right; exact H5 | exact H6].
        -- destruct H3 as (H3 & H4 & H5). repeat split; try assumption.
           intros l t' Hl Ht'. apply elem_of_cons in Hl as [-> | Hl]; [congruence|].
           exact (H5 l t' Hl Ht').
    + set (self' := add_log self _).
      destruct (IH self') as (H1 & H2 & H3). split; [exact H1|]. split; [exact H2|].
      destruct (get_foglio_from_geopackage self' rest).1 as [s|e].
      * destruct H3 as (H3 & H4 & (l & t' & f' & r & H5 & H6)).
        repeat split; try assumption. exists l, t', f', r. split; [right; exact H5 | exact H6].
      * destruct H3 as (H3 & H4 & H5). repeat split; try assumption.
        intros l t' Hl Ht'. apply elem_of_cons in Hl as [-> | Hl]; [congruence|].
        exact (H5 l t' Hl Ht').
Qed.

(** X7: the sheet number read from the package is the trimmed text of a
    non-null FoglioGeologico value of one of its layers; the search fails
    with ValueError exactly when no layer holds such a value. *)
Theorem get_foglio_from_geopackage_sound (self : processor) (available_layers : list string) :
  match (get_foglio_from_geopackage self available_layers).1 with
  | Ok s =>
      foglio (get_foglio_from_geopackage self available_layers).2 = s ∧
      Py.strip s = s ∧ foglio_source self available_layers s
  | Raise e =>
      e = ValueError ∧
      ∀ layer_name t, layer_name ∈ available_layers →
        store self !! path_join (input_gpkg self) layer_name = Some t → layer_foglio t = None
  end.
Proof.
  destruct (get_foglio_spec self available_layers) as (_ & _ & H).
  destruct (get_foglio_from_geopackage self available_layers).1; [exact H|].
  destruct H as (H1 & _ & H2). split; assumption.
Qed.

(** X8: when the validation passes, the package path ends in .gpkg, and the
    sheet number is not blank, has no white space around it and comes from
    a feature of the package. *)
Theorem validate_inputs_ok (self self' : processor) (exists_gpkg : bool)
    (available_layers : list string) :
  validate_inputs self exists_gpkg available_layers = (Ok (), self') →
  exists_gpkg = true ∧
  Py.endswith (Py.lower (input_gpkg self)) ".gpkg" = true ∧
  foglio self' ≠ "" ∧ Py.strip (foglio self') = foglio self' ∧
  foglio_source self available_layers (foglio self') ∧
  store self' = store self.
Proof.
  unfold validate_inputs. case_bool_decide as E1; [discriminate|].
  destruct exists_gpkg; [|discriminate]. cbn [negb].
  destruct (Py.endswith _ _) eqn:E2; [|discriminate]. cbn [negb].
  pose proof (get_foglio_spec self available_layers) as (H1 & H2 & H3).
  destruct (get_foglio_from_geopackage self available_layers) as [[s|e] self1]; [|discriminate].
  cbn [fst snd] in *. destruct H3 as (H3 & H4 & H5).
  case_bool_decide as E3; [discriminate|]. cbn [orb].
  case_bool_decide as E4; [discriminate|]. intros [= <-]. subst s.
  repeat split; assumption.
Qed.

Lemma validate_inputs_ok_witness :
  let self' := (validate_inputs gpkg_processor true ["main.T0180801000"; "main.ST018Polygon"]).2 in
  true = true ∧
  Py.endswith (Py.lower (input_gpkg gpkg_processor)) ".gpkg" = true ∧
  foglio self' ≠ "" ∧ Py.strip (foglio self') = foglio self' ∧
  foglio_source gpkg_processor ["main.T0180801000"; "main.ST018Polygon"] (foglio self') ∧
  store self' = store gpkg_processor.
Proof.
  apply (validate_inputs_ok gpkg_processor _ true ["main.T0180801000"; "main.ST018Polygon"]).
  vm_compute. reflexivity.
Defined.

(** ** Field mapping *)

Lemma row_get_insert_ne (r : gmap string value) (n m : string) (v : value) :
  n ≠ m → row_get (<[n := v]> r) m = row_get r m.
Proof. intros H. unfold row_get. rewrite lookup_insert_ne by exact H. reflexivity. Qed.

Lemma CalculateField_from_Ok (t t' : table) (fld source : string) :
  CalculateField_from t fld source = Ok t' →
  ∃ f s, f ∈ field_names t ∧ Py.upper f = Py.upper fld ∧
         s ∈ field_names t ∧ Py.upper s = Py.upper source ∧
         t' = Table (t_fields t) ((λ r, <[f := row_get r s]> r) <$> t_rows t).
Proof.
  unfold CalculateField_from.
  destruct (cursor_field t fld) as [f|] eqn:Ef; [|discriminate].
  destruct (cursor_field t source) as [s|] eqn:Es; [|discriminate].
  intros [= <-]. apply cursor_field_Some in Ef as [H1 H2]. apply cursor_field_Some in Es as [H3 H4].
  exists f, s. repeat split; assumption.
Qed.

Lemma process_field_mapping_count (shapefile : table) (field_config : field_config)
    (d : gmap string string) :
  GetCount (process_field_mapping shapefile field_config d).1.2 = GetCount shapefile.
Proof.
  unfold process_field_mapping.
  destruct (found_source _ _) as [src|]; [|reflexivity].
  case_bool_decide; [reflexivity|]. case_bool_decide; [|reflexivity].
  destruct (List.find _ (t_fields shapefile)) as [obj|]; [|reflexivity].
  destruct (CalculateField_from _ _ _) as [t'|e] eqn:Ec; cbn [fst snd]; unfold GetCount.
  - apply CalculateField_from_Ok in Ec as (f & s & _ & _ & _ & _ & ->).
    cbn [t_rows]. rewrite length_fmap, AddField_rows. reflexivity.
  - rewrite AddField_rows. reflexivity.
Qed.

(** X9: a field mapping never loses data: the features stay as many, the
    fields of the file stay in place, at most one field is added at the end,
    and no value changes outside the field of the new name. *)
Theorem process_field_mapping_preserves (shapefile : table) (field_config : field_config)
    (existing_fields_dict : gmap string string) :
  let out := (process_field_mapping shapefile field_config existing_fields_dict).1.2 in
  GetCount out = GetCount shapefile ∧
  (∃ extra, t_fields out = t_fields shapefile ++ extra ∧ (length extra ≤ 1)%nat) ∧
  ∀ i r, t_rows shapefile !! i = Some r →
    ∃ r', t_rows out !! i = Some r' ∧
          ∀ n, Py.upper n ≠ Py.upper (new field_config) → row_get r' n = row_get r n.
Proof.
  assert (Hid : GetCount shapefile = GetCount shapefile ∧
    (∃ extra, t_fields shapefile = t_fields shapefile ++ extra ∧ (length extra ≤ 1)%nat) ∧
    ∀ i r, t_rows shapefile !! i = Some r →
      ∃ r', t_rows shapefile !! i = Some r' ∧
            ∀ n, Py.upper n ≠ Py.upper (new field_config) → row_get r' n = row_get r n).
  { split; [reflexivity|]. split.
    - exists []. rewrite app_nil_r. split; [reflexivity | cbn; lia].
    - intros i r Hr. exists r. split; [exact Hr | reflexivity]. }
  assert (Hadd : ∀ ty len,
    let t := AddField shapefile (new field_config) ty len in
    GetCount t = GetCount shapefile ∧
    (∃ extra, t_fields t = t_fields shapefile ++ extra ∧ (length extra ≤ 1)%nat) ∧
    ∀ i r, t_rows shapefile !! i = Some r →
      ∃ r', t_rows t !! i = Some r' ∧
            ∀ n, Py.upper n ≠ Py.upper (new field_config) → row_get r' n = row_get r n).
  { intros ty len t. subst t. unfold GetCount. rewrite AddField_rows. split; [reflexivity|]. split.
    - unfold AddField. case_bool_decide.
      + exists []. rewrite app_nil_r. split; [reflexivity | cbn; lia].
      + exists [Field (new field_config) ty len]. split; [reflexivity | cbn; lia].
    - intros i r Hr. exists r. split; [exact Hr | reflexivity]. }
  unfold process_field_mapping.
  destruct (found_source _ _) as [src|]; [|exact Hid].
  case_bool_decide as E1; [exact Hid|].
  case_bool_decide as E2; [|exact Hid].
  destruct (List.find _ (t_fields shapefile)) as [obj|]; [|exact Hid].
  destruct (CalculateField_from _ _ _) as [t'|e] eqn:Ec; [|apply Hadd].
  cbn [fst snd].
  destruct (Hadd (f_type obj) (f_length obj)) as (Hc & Hf & _).
  apply CalculateField_from_Ok in Ec as (f & s & H1 & H2 & H3 & H4 & ->).
  unfold GetCount in *. cbn [t_rows t_fields]. rewrite length_fmap, AddField_rows.
  split; [reflexivity|]. split; [exact Hf|].
  intros i r Hr. exists (<[f := row_get r s]> r). rewrite list_lookup_fmap, Hr. split; [reflexivity|].
  intros n Hn. apply row_get_insert_ne. intros ->. congruence.
Qed.

Lemma found_source_first (d : gmap string string) (pre post : list string) (u : string) :
  (∀ q, q ∈ pre → d !! Py.upper q = None) →
  found_source d (pre ++ u :: post) =
    match d !! Py.upper u with Some n => Some n | None => found_source d post end.
Proof.
  intros H. induction pre as [|q pre IH]; [reflexivity|].
  cbn [app found_source]. rewrite (H q) by left. apply IH. intros q' Hq'. apply H. right. exact Hq'.
Qed.

(** X10: the first source the file has is the one that is copied: after a
    mapping to a new name every feature holds, under the new name, the value
    of that source field, and the source field keeps it. *)
Theorem process_field_mapping_copies (shapefile : table) (field_config : field_config)
    (pre post : list string) (u src : string) :
  source_fields field_config = pre ++ u :: post →
  (∀ q, q ∈ pre → existing_fields_dict shapefile !! Py.upper q = None) →
  existing_fields_dict shapefile !! Py.upper u = Some src →
  src ≠ "" → Py.upper (new field_config) ≠ Py.upper src →
  let out := process_field_mapping shapefile field_config (existing_fields_dict shapefile) in
  out.1.1 = true ∧
  ∃ tgt s, tgt ∈ field_names out.1.2 ∧ Py.upper tgt = Py.upper (new field_config) ∧
           s ∈ field_names shapefile ∧ Py.upper s = Py.upper u ∧
    ∀ i r, t_rows shapefile !! i = Some r →
      ∃ r', t_rows out.1.2 !! i = Some r' ∧
            row_get r' tgt = row_get r s ∧ row_get r' s = row_get r s.
Proof.
  intros Hsrc Hpre Hu Hne Hnew. unfold process_field_mapping.
  rewrite Hsrc, found_source_first, Hu by exact Hpre.
  rewrite bool_decide_eq_false_2 by exact Hne.
  rewrite bool_decide_eq_true_2 by exact Hnew.
  apply existing_fields_dict_lookup in Hu as [Hin Hup].
  destruct (List.find _ (t_fields shapefile)) as [obj|] eqn:Eo.
  2:{ exfalso. rewrite find_None_iff in Eo. apply list_elem_of_fmap in Hin as (f & -> & Hf).
      specialize (Eo f Hf). cbn in Eo. apply bool_decide_eq_false_1 in Eo. congruence. }
  set (t := AddField shapefile _ _ _).
  destruct (AddField_has_field shapefile (new field_config) (f_type obj) (f_length obj))
    as (m & Hm1 & Hm2). fold t in Hm1.
  destruct (cursor_field_found t (new field_config)) as (f & Hf1 & Hf2 & Hf3);
    [exists m; split; assumption|].
  destruct (cursor_field_found t src) as (s & Hs1 & Hs2 & Hs3).
  { exists src. split; [apply AddField_keeps_fields; exact Hin | reflexivity]. }
  unfold CalculateField_from. rewrite Hf1, Hs1. cbn [fst snd]. split; [reflexivity|].
  assert (Hfs : f ≠ s) by (intros ->; congruence).
  assert (Hs : s ∈ field_names shapefile).
  { unfold t, AddField in Hs2. case_bool_decide; [exact Hs2|].
    unfold field_names in Hs2. cbn [t_fields] in Hs2. rewrite fmap_app in Hs2.
    apply elem_of_app in Hs2 as [Hs2 | Hs2]; [exact Hs2|].
    apply list_elem_of_singleton in Hs2. cbn in Hs2. subst s. congruence. }
  exists f, s. split; [exact Hf2|]. split; [exact Hf3|]. split; [exact Hs|].
  split; [congruence|].
  intros i r Hr. exists (<[f := row_get r s]> r). cbn [t_rows].
  rewrite list_lookup_fmap. unfold t. rewrite AddField_rows, Hr. split; [reflexivity|].
  split; [apply row_get_insert | apply row_get_insert_ne; exact Hfs].
Qed.

Lemma process_field_mapping_copies_witness :
  let out := process_field_mapping ris_file ris_config (existing_fields_dict ris_file) in
  out.1.1 = true ∧
  ∃ tgt s, tgt ∈ field_names out.1.2 ∧ Py.upper tgt = Py.upper (new ris_config) ∧
           s ∈ field_names ris_file ∧ Py.upper s = Py.upper "NUMERORIS" ∧
    ∀ i r, t_rows ris_file !! i = Some r →
      ∃ r', t_rows out.1.2 !! i = Some r' ∧
            row_get r' tgt = row_get r s ∧ row_get r' s = row_get r s.
Proof.
  apply (process_field_mapping_copies ris_file ris_config ["Num_Ris"] [] "NUMERORIS" "NUMERORIS").
  - reflexivity.
  - intros q Hq. apply list_elem_of_singleton in Hq. subst q. vm_compute. reflexivity.
  - vm_compute. reflexivity.
  - discriminate.
  - vm_compute. discriminate.
Defined.

(** ** Field and domain processing of a standard theme *)

Lemma field_loop_count (d : gmap string string) (fields : list field_config)
    (st : table * processor) :
  let out := foldl (λ (st : table * processor) field_config,
                      let '(_, t, msgs) := process_field_mapping st.1 field_config d in
                      (t, add_log st.2 msgs)) st fields in
  GetCount out.1 = GetCount st.1 ∧ store out.2 = store st.2.
Proof.
  revert st. induction fields as [|fc fields IH]; intros st; [split; reflexivity|].
  cbn [foldl]. cbn zeta in IH.
  set (st' := let '(_, t, msgs) := process_field_mapping st.1 fc d in (t, add_log st.2 msgs)).
  destruct (IH st') as [H1 H2]. cbn zeta. rewrite H1, H2. subst st'.
  pose proof (process_field_mapping_count st.1 fc d) as Hc.
  destruct (process_field_mapping st.1 fc d) as [[b t] msgs]. cbn [fst snd] in *.
  split; [exact Hc | apply store_add_log].
Qed.

Lemma domain_loop_count (domains : list domain_info) (st : table * processor) :
  let out := foldl (λ (st : table * processor) domain_info,
                      let '(code_map, self) :=
                        load_domain_mappings st.2 (di_domain domain_info) "CODE" "DESC" false in
                      let '(t, msgs) :=
                        apply_domain_mapping st.1 (di_field domain_info)
                          (di_source domain_info) code_map in
                      (t, add_log self msgs)) st domains in
  GetCount out.1 = GetCount st.1 ∧ store out.2 = store st.2.
Proof.
  revert st. induction domains as [|di domains IH]; intros st; [split; reflexivity|].
  cbn [foldl]. cbn zeta in IH.
  set (st' := let '(code_map, self) := load_domain_mappings st.2 (di_domain di) "CODE" "DESC" false in _).
  destruct (IH st') as [H1 H2]. cbn zeta. rewrite H1, H2. subst st'.
  pose proof (read_domain_table_cache st.2 (di_domain di) "CODE" "DESC" false) as [_ Hst].
  unfold load_domain_mappings.
  destruct (read_domain_table st.2 (di_domain di) "CODE" "DESC" false) as [[cm|] self'];
    cbn [snd] in Hst.
  - pose proof (apply_domain_mapping_count st.1 (di_field di) (di_source di) cm) as Hc.
    destruct (apply_domain_mapping _ _ _ cm) as [t msgs]. cbn [fst snd] in *.
    split; [exact Hc | rewrite store_add_log; exact Hst].
  - pose proof (apply_domain_mapping_count st.1 (di_field di) (di_source di) ∅) as Hc.
    destruct (apply_domain_mapping _ _ _ ∅) as [t msgs]. cbn [fst snd] in *.
    split; [exact Hc | rewrite store_add_log; exact Hst].
Qed.

(** X11: the field and domain processing of a theme keeps every feature and
    writes to no file of the store, whatever the configuration. *)
Theorem process_standard_fields_and_domains_count (self : processor) (domini_exists : bool)
    (shapefile : table) (fields : list field_config) (domains : list domain_info) :
  let out := _process_standard_fields_and_domains self domini_exists shapefile fields domains in
  GetCount out.1 = GetCount shapefile ∧ store out.2 = store self.
Proof.
  unfold _process_standard_fields_and_domains.
  pose proof (field_loop_count (existing_fields_dict shapefile) fields (shapefile, self))
    as [H1 H2]. cbn zeta in H1, H2.
  destruct (foldl _ (shapefile, self) fields) as [t1 self1]. cbn [fst snd] in H1, H2.
  destruct domini_exists; [|split; assumption].
  pose proof (domain_loop_count domains (t1, self1)) as [H3 H4]. cbn zeta in H3, H4.
  cbn [fst snd] in H3, H4. cbn zeta. split; congruence.
Qed.

(** ** The cursor loop, feature by feature *)

Lemma update_cursor_pointwise (f : gmap string value → result (gmap string value))
    (rows : list (gmap string value)) (i : nat) (r : gmap string value) :
  rows !! i = Some r →
  ∃ r', (update_cursor f rows).1 !! i = Some r' ∧ (r' = r ∨ f r = Ok r').
Proof.
  revert i. induction rows as [|r0 rows IH]; intros i Hr; [discriminate|].
  cbn [update_cursor]. destruct (f r0) as [r0'|e] eqn:E0.
  - destruct (update_cursor f rows) as [rs e] eqn:Eu. cbn [fst] in *.
    destruct i as [|i]; cbn in Hr |- *.
    + injection Hr as <-. exists r0'. split; [reflexivity | right; exact E0].
    + exact (IH i Hr).
  - cbn [fst]. exists r. split; [exact Hr | left; reflexivity].
Qed.


Lemma map_row_frame (code_map : gmap key string) (src tgt : string)
    (r r' : gmap string value) (n : string) :
  map_row code_map src tgt r = Ok r' → n ≠ tgt → row_get r' n = row_get r n.
Proof.
  unfold map_row. destruct (mapped_value code_map (row_get r src)) as [d|e]; [|discriminate].
  intros [= <-] Hn. rewrite row_get_insert_ne by congruence.
  destruct (decide (src = n)) as [-> | Hne].
  - apply row_get_insert.
  - apply row_get_insert_ne. exact Hne.
Qed.

(** X12: applying a domain touches the target field only: the features stay as
    many and every other field keeps its values, also when the map is empty
    or the loop stops on an error. *)
Theorem apply_domain_mapping_frame (shapefile : table) (field_name source_field : string)
    (code_map : gmap key string) :
  let out := (apply_domain_mapping shapefile field_name source_field code_map).1 in
  GetCount out = GetCount shapefile ∧
  ∀ i r, t_rows shapefile !! i = Some r →
    ∃ r', t_rows out !! i = Some r' ∧
          ∀ n, Py.upper n ≠ Py.upper field_name → row_get r' n = row_get r n.
Proof.
  cbn zeta. split; [apply apply_domain_mapping_count|].
  intros i r Hr. unfold apply_domain_mapping.
  case_bool_decide as E; [exists r; split; [exact Hr | reflexivity]|].
  set (t' := if bool_decide _ then shapefile else _).
  assert (Ht' : t_rows t' = t_rows shapefile).
  { subst t'. case_bool_decide; [reflexivity | apply AddField_rows]. }
  destruct (cursor_field t' source_field) as [src|];
    [|exists r; cbn [fst]; rewrite Ht'; split; [exact Hr | reflexivity]].
  destruct (cursor_field t' field_name) as [tgt|] eqn:Et;
    [|exists r; cbn [fst]; rewrite Ht'; split; [exact Hr | reflexivity]].
  apply cursor_field_Some in Et as [_ Hup].
  rewrite <- Ht' in Hr.
  destruct (update_cursor_pointwise (map_row code_map src tgt) _ i r Hr) as (r' & H1 & H2).
  exists r'. split.
  - destruct (update_cursor _ _) as [rows [e|]]; exact H1.
  - intros n Hn. destruct H2 as [-> | H2]; [reflexivity|].
    apply (map_row_frame code_map src tgt r r' n H2). intros ->. congruence.
Qed.



(** ** The geology lines *)

Lemma add_if_missing (t : table) (name : string) ty len :
  (if bool_decide (is_Some (existing_fields_dict t !! Py.upper name)) then t
   else AddField t name ty len) = AddField t name ty len.
Proof. unfold AddField. case_bool_decide; reflexivity. Qed.

(** X14: the special processing of geologia_linee succeeds on every file and
    leaves each feature with the fixed text in its Fase_txt field, whatever
    the field held before; nothing else changes. *)
Theorem process_geology_lines_standard_fills (shapefile : table) :
  let out := process_geology_lines_standard shapefile in
  out.1.1 = true ∧ GetCount out.1.2 = GetCount shapefile ∧
  ∃ tgt, Py.upper tgt = "FASE_TXT" ∧ tgt ∈ field_names out.1.2 ∧
    ∀ i r, t_rows shapefile !! i = Some r →
      ∃ r', t_rows out.1.2 !! i = Some r' ∧
        row_get r' tgt = VStr "non applicabile/non classificabile" ∧
        ∀ n, n ≠ tgt → row_get r' n = row_get r n.
Proof.
  cbn zeta. unfold process_geology_lines_standard.
  change "FASE_TXT" with (Py.upper "Fase_txt").
  rewrite (add_if_missing shapefile "Fase_txt" TString 255).
  set (t := AddField shapefile "Fase_txt" TString 255).
  destruct (cursor_field_found t "Fase_txt") as (tgt & Htgt & Hin & Hup);
    [apply AddField_has_field|].
  unfold update_all. cbn [mapM]. rewrite Htgt. cbn [mbind option_bind mret option_ret zip zip_with].
  cbn [fst snd]. unfold GetCount. cbn [t_rows]. rewrite length_fmap. unfold t at 1.
  rewrite AddField_rows. repeat split.
  exists tgt. split; [exact Hup|]. split; [exact Hin|].
  intros i r Hr. eexists. rewrite list_lookup_fmap. unfold t at 1. rewrite AddField_rows, Hr.
  split; [reflexivity|]. cbn [foldl fst snd]. split; [apply row_get_insert|].
  intros n Hn. apply row_get_insert_ne. congruence.
Qed.

Lemma add_text_field_table (st : table * list log_entry) (name : string) :
  (add_text_field st name).1 = AddField st.1 name TString 255.
Proof.
  unfold add_text_field. case_bool_decide as E; [|reflexivity].
  unfold AddField. rewrite bool_decide_eq_true_2 by exact E. reflexivity.
Qed.

Lemma upper_in_dict_values (t : table) (name : string) :
  (∃ m, m ∈ field_names t ∧ Py.upper m = Py.upper name) →
  Py.upper name ∈ Py.upper <$> (map_to_list (existing_fields_dict t)).*2.
Proof.
  intros H. apply existing_fields_dict_is_Some in H as [v Hv].
  pose proof (existing_fields_dict_lookup t _ v Hv) as [_ Hup].
  apply list_elem_of_fmap. exists v. split; [symmetry; exact Hup|].
  apply list_elem_of_fmap. exists (Py.upper name, v). split; [reflexivity|].
  apply elem_of_map_to_list. exact Hv.
Qed.

(** X15: the special processing of the folds succeeds on every file and
    leaves each feature with Affior_txt "non applicabile" and Cont_txt "no",
    whatever the fields held before; nothing else changes. *)
Theorem process_geology_lines_pieghe_fills (shapefile : table) :
  let out := process_geology_lines_pieghe shapefile in
  out.1.1 = true ∧ GetCount out.1.2 = GetCount shapefile ∧
  ∃ a c, Py.upper a = "AFFIOR_TXT" ∧ Py.upper c = "CONT_TXT" ∧
    a ∈ field_names out.1.2 ∧ c ∈ field_names out.1.2 ∧
    ∀ i r, t_rows shapefile !! i = Some r →
      ∃ r', t_rows out.1.2 !! i = Some r' ∧
        row_get r' a = VStr "non applicabile" ∧ row_get r' c = VStr "no" ∧
        ∀ n, n ≠ a → n ≠ c → row_get r' n = row_get r n.
Proof.
  cbn zeta. unfold process_geology_lines_pieghe. cbn [foldl].
  set (st0 := (shapefile, _)).
  pose proof (add_text_field_table st0 "Affior_txt") as H1.
  pose proof (add_text_field_table (add_text_field st0 "Affior_txt") "Cont_txt") as H2.
  rewrite H1 in H2. subst st0. cbn [fst] in H2.
  destruct (add_text_field (add_text_field _ "Affior_txt") "Cont_txt") as [t msgs].
  cbn [fst] in H2. clear H1.
  set (t1 := AddField shapefile "Affior_txt" TString 255) in H2.
  assert (Hrows : t_rows t = t_rows shapefile).
  { rewrite H2. unfold t1. rewrite !AddField_rows. reflexivity. }
  assert (Ha : ∃ m, m ∈ field_names t ∧ Py.upper m = Py.upper "Affior_txt").
  { destruct (AddField_has_field shapefile "Affior_txt" TString 255) as (m & Hm1 & Hm2).
    exists m. split; [|exact Hm2]. rewrite H2. apply AddField_keeps_fields. exact Hm1. }
  assert (Hc : ∃ m, m ∈ field_names t ∧ Py.upper m = Py.upper "Cont_txt").
  { rewrite H2. apply AddField_has_field. }
  rewrite (bool_decide_eq_true_2 _ (upper_in_dict_values t "Affior_txt" Ha)).
  rewrite (bool_decide_eq_true_2 _ (upper_in_dict_values t "Cont_txt" Hc)).
  destruct (cursor_field_found t "Affior_txt" Ha) as (a & Ea & Hain & Haup).
  destruct (cursor_field_found t "Cont_txt" Hc) as (c & Ec & Hcin & Hcup).
  cbn [app fmap list_fmap fst snd]. unfold update_all. cbn [mapM]. rewrite Ea, Ec.
  cbn [mbind option_bind mret option_ret zip zip_with fst snd].
  unfold GetCount. cbn [t_rows]. rewrite length_fmap, Hrows.
  assert (Hac : a ≠ c) by (intros ->; rewrite Haup in Hcup; vm_compute in Hcup; discriminate).
  repeat split. exists a, c. split; [exact Haup|]. split; [exact Hcup|].
  split; [exact Hain|]. split; [exact Hcin|].
  intros i r Hr. eexists. rewrite list_lookup_fmap, Hr. split; [reflexivity|].
  cbn [foldl fst snd]. split; [|split].
  - rewrite row_get_insert_ne by congruence. apply row_get_insert.
  - apply row_get_insert.
  - intros n Hna Hnc. rewrite !row_get_insert_ne by congruence. reflexivity.
Qed.

(** ** String keys of the code map *)






(** ** The two loaders *)




(** ** The canonical schema *)






























(** ** The cache of the PRO script *)

Lemma read_domain_table_paths (self : processor) (file code pat : string) (gpkg : bool) :
  input_gpkg (read_domain_table self file code pat gpkg).2 = input_gpkg self ∧
  domini_path (read_domain_table self file code pat gpkg).2 = domini_path self.
Proof.
  unfold read_domain_table. rewrite store_add_trace.
  destruct (store self !! _) as [t|]; [|split; reflexivity].
  destruct (List.find _ (field_names t)) as [desc_field|]; [|split; reflexivity].
  case_bool_decide; [split; reflexivity|]. destruct (negb _); [split; reflexivity|].
  destruct (build_code_map _ _). split; reflexivity.
Qed.

Lemma read_domain_table_stable (self self2 : processor) (file code pat : string)
    (gpkg : bool) :
  store self2 = store self → input_gpkg self2 = input_gpkg self →
  domini_path self2 = domini_path self →
  (read_domain_table self2 file code pat gpkg).1 = (read_domain_table self file code pat gpkg).1.
Proof.
  intros Hs Hg Hd. unfold read_domain_table. rewrite !store_add_trace, Hs.
  change (input_gpkg (add_trace self2 ?e)) with (input_gpkg self2).
  change (domini_path (add_trace self2 ?e)) with (domini_path self2).
  change (input_gpkg (add_trace self ?e)) with (input_gpkg self).
  change (domini_path (add_trace self ?e)) with (domini_path self).
  rewrite Hg, Hd.
  destruct (store self !! _) as [t|]; [|reflexivity].
  destruct (List.find _ (field_names t)) as [desc_field|]; [|reflexivity].
  case_bool_decide; [reflexivity|]. destruct (negb _); [reflexivity|].
  destruct (build_code_map _ _). reflexivity.
Qed.

Lemma read_domain_table_None_log (self : processor) (file code pat : string) (gpkg : bool) :
  (read_domain_table self file code pat gpkg).1 = None →
  ∃ w, log (read_domain_table self file code pat gpkg).2 = log self ++ [AddWarning w].
Proof.
  unfold read_domain_table. rewrite store_add_trace.
  destruct (store self !! _) as [t|]; [|intros _; eexists; reflexivity].
  destruct (List.find _ (field_names t)) as [desc_field|]; [|intros _; eexists; reflexivity].
  case_bool_decide; [intros _; eexists; reflexivity|].
  destruct (negb _); [intros _; eexists; reflexivity|].
  destruct (build_code_map _ _). discriminate.
Qed.

(** X21: in the PRO script a second call with the same arguments returns the
    same map.  Once the map is in the cache the call touches nothing: no
    read, no message.  A load that ended early (missing table or field) is
    not cached: it returns the empty map, and the next call tests the store
    and warns again. *)
Theorem PRO_load_second_call (self : processor) (file code pat : string) (gpkg : bool) :
  let first := PRO.load_domain_mappings self file code pat gpkg in
  let second := PRO.load_domain_mappings first.2 file code pat gpkg in
  second.1 = first.1 ∧
  match _domain_cache first.2 !! (file, code, pat, gpkg) with
  | Some cached => cached = first.1 ∧ second.2 = first.2
  | None =>
      first.1 = ∅ ∧
      ∃ es w, trace second.2 =
                trace first.2 ++
                EvExists (if gpkg then path_join (input_gpkg self) file
                          else path_join (domini_path self) file) :: es ∧
              log second.2 = log first.2 ++ [AddWarning w]
  end.
Proof.
  cbn zeta.
  destruct (_domain_cache self !! (file, code, pat, gpkg)) as [c|] eqn:Hc.
  { rewrite !(PRO_load_cached self file code pat gpkg c Hc). cbn [fst snd].
    rewrite (PRO_load_cached self file code pat gpkg c Hc), Hc. repeat split. }
  pose proof (read_domain_table_cache self file code pat gpkg) as [Hcache Hstore].
  pose proof (read_domain_table_paths self file code pat gpkg) as [Hg Hd].
  assert (Hfirst : PRO.load_domain_mappings self file code pat gpkg =
            match read_domain_table self file code pat gpkg with
            | (None, self') => (∅, self')
            | (Some code_map, self') =>
                (code_map, set_cache self'
                             (<[(file, code, pat, gpkg) := code_map]> (_domain_cache self')))
            end).
  { unfold PRO.load_domain_mappings. rewrite Hc. reflexivity. }
  rewrite Hfirst. clear Hfirst.
  destruct (read_domain_table self file code pat gpkg) as [[m|] self1] eqn:Hr;
    cbn [fst snd] in *.
  - assert (Hk : _domain_cache (set_cache self1 (<[(file, code, pat, gpkg) := m]>
                                   (_domain_cache self1))) !! (file, code, pat, gpkg) = Some m)
      by apply lookup_insert_eq.
    rewrite Hk, (PRO_load_cached _ file code pat gpkg m Hk). repeat split.
  - rewrite Hcache, Hc. unfold PRO.load_domain_mappings. rewrite Hcache, Hc.
    pose proof (read_domain_table_stable self self1 file code pat gpkg Hstore Hg Hd) as Hst.
    rewrite Hr in Hst. cbn [fst] in Hst.
    pose proof (read_domain_table_None_log self1 file code pat gpkg Hst) as [w Hw].
    pose proof (read_domain_table_trace self1 file code pat gpkg) as [es Hes].
    rewrite Hg, Hd in Hes.
    destruct (read_domain_table self1 file code pat gpkg) as [[m|] self2];
      cbn [fst snd] in *; [discriminate|].
    repeat split. exists es, w. split; assumption.
Qed.

(** ** The merge when the count check fails *)

Lemma Append_count (accept : gmap string value → bool) (source dest : table) :
  GetCount (Append_management accept source dest) =
    (GetCount dest + length (filter (λ r, accept r) (t_rows source)))%nat.
Proof. unfold GetCount, Append_management. cbn [t_rows]. rewrite length_app, length_fmap. reflexivity. Qed.

(** X22: when the count after the append differs from the sum, the source
    file is kept as it was and the destination holds what the append took:
    its former features and a part of those of the source. *)
Theorem combine_mismatch_keeps_source (accept : gmap string value → bool) (self : processor)
    (dest source : table) :
  store self !! dest_file self = Some dest →
  store self !! source_file self = Some source →
  append_verified (GetCount dest) (GetCount source)
    (GetCount (Append_management accept source dest)) = false →
  store (combine_geology_lines_optimized accept self) !! source_file self = Some source ∧
  ∃ dest', store (combine_geology_lines_optimized accept self) !! dest_file self = Some dest' ∧
           (GetCount dest ≤ GetCount dest' < GetCount dest + GetCount source)%nat.
Proof.
  intros Hd Hs Hok. split; [exact (combine_count_mismatch accept self dest source Hd Hs Hok)|].
  assert (Hlt : (GetCount dest ≤ GetCount (Append_management accept source dest)
                 < GetCount dest + GetCount source)%nat).
  { apply bool_decide_eq_false_1 in Hok. rewrite Append_count in Hok |- *.
    pose proof (length_filter (λ r, accept r) (t_rows source)) as Hle.
    unfold GetCount in *. lia. }
  unfold combine_geology_lines_optimized.
  change (path_join (workspace_output (add_log self _)) "geologia_linee.shp")
    with (dest_file self).
  change (path_join (workspace_output (add_log self _)) "geologia_linee_pieghe.shp")
    with (source_file self).
  rewrite store_add_log, Hd, Hs, Hok. rewrite store_add_log.
  set (self1 := add_log (set_store _ _) _).
  assert (Hd1 : store self1 !! dest_file self = Some (Append_management accept source dest)).
  { subst self1. cbn [store add_log set_store]. apply lookup_insert_eq. }
  destruct (standardize_store self1 (dest_file self) _ Hd1) as [(dest' & Hd' & Hc') _].
  exists dest'. split; [exact Hd'|]. rewrite Hc'. exact Hlt.
Qed.

Lemma combine_mismatch_keeps_source_witness :
  store (combine_geology_lines_optimized no_phase scenario_E) !! source_file scenario_E =
    Some (Table lines_fields (replicate 25 {[ "Foglio" := VStr "348"; "Fase_txt" := VStr "F1" ]})) ∧
  ∃ dest', store (combine_geology_lines_optimized no_phase scenario_E) !! dest_file scenario_E
             = Some dest' ∧
           (100 ≤ GetCount dest' < 100 + 25)%nat.
Proof.
  apply (combine_mismatch_keeps_source no_phase scenario_E
           (Table lines_fields (replicate 100 {[ "Foglio" := VStr "348" ]}))
           (Table lines_fields (replicate 25 {[ "Foglio" := VStr "348"; "Fase_txt" := VStr "F1" ]})));
    vm_compute; reflexivity.
Defined.

(** ** What the cleanup keeps *)

Lemma delete_names_get (names : list string) (r : gmap string value) (n : string) :
  n ∉ names → row_get (foldl (λ r' m, delete m r') r names) n = row_get r n.
Proof.
  revert r. induction names as [|m names IH]; intros r Hn; [reflexivity|].
  cbn [foldl]. rewrite IH by (intros H; apply Hn; right; exact H).
  unfold row_get. rewrite lookup_delete_ne; [reflexivity|]. intros ->. apply Hn. left.
Qed.

Lemma DeleteField_row (t : table) (names : list string) (i : nat) (r : gmap string value) :
  t_rows t !! i = Some r →
  ∃ r', t_rows (DeleteField t names) !! i = Some r' ∧
        ∀ n, n ∉ names → row_get r' n = row_get r n.
Proof.
  intros Hr. eexists. unfold DeleteField. cbn [t_rows]. rewrite list_lookup_fmap, Hr.
  split; [reflexivity|]. intros n Hn. apply delete_names_get. exact Hn.
Qed.

Lemma delete_with_fallback_row (o : delete_oracle) (t : table) (names : list string)
    (i : nat) (r : gmap string value) :
  t_rows t !! i = Some r →
  ∃ r', t_rows (delete_with_fallback o t names).1 !! i = Some r' ∧
        ∀ n, n ∉ names → row_get r' n = row_get r n.
Proof.
  intros Hr. unfold delete_with_fallback. destruct names as [|n0 names0] eqn:En.
  { exists r. split; [exact Hr | reflexivity]. }
  rewrite <- En. clear En n0 names0.
  destruct (batch_ok o t names); cbn [fst]; [apply DeleteField_row; exact Hr|].
  revert t r Hr. induction names as [|m names IH]; intros t r Hr; cbn [foldl].
  - exists r. split; [exact Hr | reflexivity].
  - destruct (single_ok o t m).
    + destruct (DeleteField_row t [m] i r Hr) as (r1 & Hr1 & Hget1).
      destruct (IH _ r1 Hr1) as (r' & Hr' & Hget). exists r'. split; [exact Hr'|].
      intros n Hn. rewrite Hget by (intros H; apply Hn; right; exact H).
      apply Hget1. intros H. apply list_elem_of_singleton in H. subst n. apply Hn. left.
    + destruct (IH t r Hr) as (r' & Hr' & Hget). exists r'. split; [exact Hr'|].
      intros n Hn. apply Hget. intros H. apply Hn. right. exact H.
Qed.

Lemma delete_with_fallback_count (o : delete_oracle) (t : table) (names : list string) :
  GetCount (delete_with_fallback o t names).1 = GetCount t.
Proof.
  unfold delete_with_fallback. destruct names as [|n0 names0] eqn:En; [reflexivity|].
  rewrite <- En. clear En n0 names0.
  destruct (batch_ok o t names); cbn [fst].
  { unfold GetCount, DeleteField. cbn [t_rows]. apply length_fmap. }
  revert t. induction names as [|m names IH]; intros t; cbn [foldl]; [reflexivity|].
  rewrite IH. destruct (single_ok o t m); [|reflexivity].
  unfold GetCount, DeleteField. cbn [t_rows]. apply length_fmap.
Qed.

Lemma kept_not_deleted (config : feature_config) (shapefile : table) (n : string) :
  n ∈ keep_fields config ∨ n ∈ ["FID"; "Shape"] →
  n ∉ (fields_to_delete config shapefile).1.
Proof.
  intros Hn Hdel. apply fields_to_delete_elem_of, deletion_set_spec in Hdel as [_ Hk].
  apply Hk. unfold fields_to_keep, system_fields.
  destruct Hn as [Hn | Hn].
  - apply elem_of_union. left. apply elem_of_union. left. apply elem_of_list_to_set. exact Hn.
  - apply elem_of_union. left. apply elem_of_union. right.
    rewrite !elem_of_cons, elem_of_nil in Hn. destruct Hn as [-> | [-> | []]].
    + apply elem_of_union. left. apply elem_of_singleton. reflexivity.
    + apply elem_of_union. right. apply elem_of_singleton. reflexivity.
Qed.

(** X23: the cleanup only ever deletes: it adds no field and loses no feature,
    and a field on the allowlist of the theme, like FID and Shape, stays in
    the file with its values, whatever the store answers to the deletions. *)
Theorem cleanup_keeps_allowlist (o : delete_oracle) (shapefile : table)
    (config : feature_config) :
  let out := (_cleanup_output_fields o shapefile config).1.1 in
  GetCount out = GetCount shapefile ∧
  (∀ f, f ∈ t_fields out → f ∈ t_fields shapefile) ∧
  (∀ f, f ∈ t_fields shapefile →
        f_name f ∈ keep_fields config ∨ f_name f ∈ ["FID"; "Shape"] → f ∈ t_fields out) ∧
  ∀ i r, t_rows shapefile !! i = Some r →
    ∃ r', t_rows out !! i = Some r' ∧
          ∀ n, n ∈ keep_fields config ∨ n ∈ ["FID"; "Shape"] → row_get r' n = row_get r n.
Proof.
  cbn zeta. rewrite cleanup_table. split; [apply delete_with_fallback_count|]. split; [|split].
  - intros f Hf.
    destruct (delete_with_fallback_fields o shapefile (fields_to_delete config shapefile).1)
      as (deleted & _ & Hfields & _).
    rewrite Hfields in Hf. apply list_elem_of_filter in Hf as [_ Hf]. exact Hf.
  - intros f Hf Hkeep. apply delete_with_fallback_keeps; [exact Hf|].
    apply kept_not_deleted. exact Hkeep.
  - intros i r Hr.
    destruct (delete_with_fallback_row o shapefile (fields_to_delete config shapefile).1 i r Hr)
      as (r' & Hr' & Hget).
    exists r'. split; [exact Hr'|]. intros n Hn. apply Hget, kept_not_deleted. exact Hn.
Qed.

(** ** The temporary fields of the geology polygons *)

Lemma keep_fields_not_temporary (key : string) (config : feature_config) (n : string) :
  (key, config) ∈ _get_feature_configs → n ∈ keep_fields config → n ∉ temp_fields.
Proof.
  intros H Hn. unfold _get_feature_configs in H.
  repeat (apply elem_of_cons in H as [[= -> ->] | H];
          [cbn [keep_fields] in Hn;
           repeat (apply elem_of_cons in Hn as [-> | Hn];
                   [apply (bool_decide_eq_true_1 (_ ∉ _)); vm_compute; reflexivity|]);
           apply elem_of_nil in Hn as []|]).
  apply elem_of_nil in H as [].
Qed.

(** X24: the removal of the temporary fields of the geology polygons takes
    fields of its fixed list only, so no field a theme keeps is lost to it,
    and no feature either. *)
Theorem cleanup_geology_fields_keeps (o : delete_oracle) (shapefile : table) :
  let out := (_cleanup_geology_fields o shapefile).1 in
  GetCount out = GetCount shapefile ∧
  (∀ f, f ∈ t_fields shapefile → f_name f ∉ temp_fields → f ∈ t_fields out) ∧
  ∀ key config f, (key, config) ∈ _get_feature_configs →
    f ∈ t_fields shapefile → f_name f ∈ keep_fields config → f ∈ t_fields out.
Proof.
  cbn zeta.
  assert (Hkeep : ∀ f, f ∈ t_fields shapefile → f_name f ∉ temp_fields →
                       f ∈ t_fields (_cleanup_geology_fields o shapefile).1).
  { intros f Hf Hn. unfold _cleanup_geology_fields.
    destruct (filter _ temp_fields) as [|d del] eqn:Ed; [exact Hf|].
    rewrite <- Ed. destruct (batch_ok o shapefile _); cbn [fst]; [|exact Hf].
    rewrite DeleteField_fields. apply list_elem_of_filter. split; [|exact Hf].
    intros Hin. apply list_elem_of_filter in Hin as [_ Hin]. exact (Hn Hin). }
  split; [|split; [exact Hkeep|]].
  - unfold _cleanup_geology_fields.
    destruct (filter _ temp_fields) as [|d del]; [reflexivity|].
    destruct (batch_ok o shapefile _); cbn [fst]; [|reflexivity].
    unfold GetCount, DeleteField. cbn [t_rows]. apply length_fmap.
  - intros key config f Hc Hf Hn. apply Hkeep; [exact Hf|].
    exact (keep_fields_not_temporary key config _ Hc Hn).
Qed.

(** ** One theme, from the working copy to the output *)

Lemma CalculateField_count (t t' : table) (fld expression : string) :
  CalculateField t fld expression = Ok t' → GetCount t' = GetCount t.
Proof.
  unfold CalculateField. destruct (cursor_field t fld) as [f|]; [|discriminate].
  destruct (eval_expression expression) as [v|e]; [|discriminate].
  intros [= <-]. unfold GetCount. cbn [t_rows]. apply length_fmap.
Qed.

Lemma add_foglio_field_count (self : processor) (shapefile t : table) :
  _add_foglio_field self shapefile = Ok t → GetCount t = GetCount shapefile.
Proof.
  unfold _add_foglio_field. intros H. apply CalculateField_count in H. rewrite H.
  case_bool_decide; [reflexivity|]. unfold GetCount. rewrite AddField_rows. reflexivity.
Qed.

(** X25: a theme either fails, and then the store is as it was, or succeeds,
    and then its output holds every feature of the working copy and no other
    file but the temporary one of the standardization is touched. *)
Theorem process_feature_class_outcome (o : delete_oracle) (self : processor)
    (prepared : result table) (config : feature_config) :
  let out := process_feature_class_optimized o self prepared config in
  let final_output := path_join (workspace_output self) (output_name config) in
  if out.1 then
    ∃ shapefile t',
      prepared = Ok shapefile ∧
      store out.2 !! final_output = Some t' ∧ GetCount t' = GetCount shapefile ∧
      ∀ q, q ≠ final_output → q ≠ temp_path final_output →
           store out.2 !! q = store self !! q
  else store out.2 = store self.
Proof.
  cbn zeta. unfold process_feature_class_optimized.
  destruct prepared as [shapefile|e]; [|reflexivity].
  destruct (_add_foglio_field self shapefile) as [t1|e] eqn:Ef; [|reflexivity].
  pose proof (add_foglio_field_count self shapefile t1 Ef) as Hc1.
  pose proof (cleanup_table o t1 config) as Ht.
  pose proof (delete_with_fallback_count o t1 (fields_to_delete config t1).1) as Hc2.
  rewrite <- Ht in Hc2.
  destruct (_cleanup_output_fields o t1 config) as [[t2 msgs] [e|]]; [reflexivity|].
  cbn [fst snd] in *.
  set (final_output := path_join (workspace_output self) (output_name config)).
  set (self1 := set_store (add_log self msgs) _).
  assert (H1 : store self1 !! final_output = Some t2).
  { subst self1. cbn [store set_store]. apply lookup_insert_eq. }
  destruct (standardize_store self1 final_output t2 H1) as [(t' & Ht' & Hc') Hother].
  exists shapefile, t'. split; [reflexivity|].
  change (store (add_log ?s ?m)) with (store s).
  split; [exact Ht'|]. split; [congruence|].
  intros q Hq Hq'. rewrite (Hother q Hq Hq'). subst self1. cbn [store set_store].
  rewrite lookup_insert_ne by (intros E; apply Hq; symmetry; exact E).
  reflexivity.
Qed.

(** ** A domain table that cannot be read *)

(** X26: when the domain table is not there, has no field whose name holds the
    description pattern, or has no field of the code name, the loader gives
    the empty map, leaves the store as it was and logs one warning; applying
    that map gives the shapefile back with a warning. *)
Theorem load_domain_mappings_soft_failure (self : processor)
    (file code_field pat : string) (shapefile : table) (field_name source_field : string) :
  (store self !! path_join (domini_path self) file = None ∨
   ∃ t, store self !! path_join (domini_path self) file = Some t ∧
        ((∀ n, n ∈ field_names t → Py.contains (Py.upper pat) (Py.upper n) = false) ∨
         code_field ∉ field_names t)) →
  let loaded := load_domain_mappings self file code_field pat false in
  loaded.1 = ∅ ∧
  store loaded.2 = store self ∧
  (∃ w, log loaded.2 = log self ++ [AddWarning w]) ∧
  apply_domain_mapping shapefile field_name source_field loaded.1 =
    (shapefile, [AddWarning ("No domain mappings available for " +:+ field_name)]).
Proof.
  intros H loaded.
  assert (Hl : loaded.1 = ∅ ∧ store loaded.2 = store self ∧
               ∃ w, log loaded.2 = log self ++ [AddWarning w]).
  { subst loaded. unfold load_domain_mappings, read_domain_table. rewrite store_add_trace.
    destruct H as [-> | (t & -> & Ht)].
    - cbn. split; [reflexivity|]. split; [reflexivity|]. eexists. reflexivity.
    - cbn zeta.
      destruct (List.find _ (field_names t)) as [desc_field|] eqn:Ef.
      2:{ cbn. split; [reflexivity|]. split; [reflexivity|]. eexists. reflexivity. }
      case_bool_decide as E1.
      { cbn. split; [reflexivity|]. split; [reflexivity|]. eexists. reflexivity. }
      case_bool_decide as E2; cbn [negb].
      2:{ cbn. split; [reflexivity|]. split; [reflexivity|]. eexists. reflexivity. }
      exfalso. destruct Ht as [Ht | Ht]; [|exact (Ht E2)].
      apply find_some in Ef as [Hin Hc]. apply list_elem_of_In in Hin.
      rewrite (Ht _ Hin) in Hc. discriminate. }
  destruct Hl as (Hm & Hs & Hw). repeat split; try assumption.
  rewrite Hm. unfold apply_domain_mapping. rewrite bool_decide_eq_true_2 by reflexivity.
  reflexivity.
Qed.

Lemma load_domain_mappings_soft_failure_witness :
  let loaded := load_domain_mappings empty_processor "d_stato.dbf" "CODE" "DESC" false in
  loaded.1 = ∅ ∧
  store loaded.2 = store empty_processor ∧
  (∃ w, log loaded.2 = log empty_processor ++ [AddWarning w]) ∧
  apply_domain_mapping inf_shapefile "Stato" "Stato_cod" loaded.1 =
    (inf_shapefile, [AddWarning ("No domain mappings available for " +:+ "Stato")]).
Proof.
  apply (load_domain_mappings_soft_failure empty_processor "d_stato.dbf" "CODE" "DESC").
  left. vm_compute. reflexivity.
Defined.
